(** * cloudflare-ddns: reconciliation of DNS A records with the public IP

    A shallow embedding of the two source files of the repository:
    [index.js] (module [IndexJs]) and the second service file, which adds
    API-key authentication, record creation and the immediate update on
    [POST /domains] (module [Part000]).  The helpers whose text is the same
    in both files are embedded once, before the two modules.

    Conventions of the embedding:
    - a JavaScript value that is a string, [null] or [undefined] is an
      [option string]; [None] stands for [null]/[undefined];
    - everything outside the JavaScript heap (the two files on disk, the
      network, the console) is the [world]; the code runs in the state
      monad [IO] over it and every observable action is appended to
      [trace];
    - the network is a function of the history so far and of the request,
      so a provider whose answers depend on earlier calls is covered;
    - a string is the UTF-8 text of the JavaScript string;
    - a file has a content and a permission: what is written into a file
      that the process may not read is not read back;
    - [fs.writeFileSync] is taken to return.  Every helper catches the
      errors of its own network call, so the one statement that can throw
      inside the [try] of [app.post('/domains', ...)] is the write of
      [last_ip.txt]; [Part000.post_domains_on] takes the error it throws,
      if any, and [Part000.post_domains] is the handler when it returns;
    - [app] is the application behind [bodyParser.json()], on a request
      whose body the parser has taken; [serve] puts the parser in front;
    - [IndexJs] and [Part000] describe a pass or a handler that runs with no
      other handler in between; [Interleaving] describes [updateDNS]
      suspended at its [await]s while other handlers run, on a heap where
      [domains] is a reference to an array object.  With no handler in
      between the two descriptions agree ([part_000_updateDNS_quiet],
      [index_js_updateDNS_quiet]). *)

From Stdlib Require Import String Ascii List Bool Arith ZArith Lia.
From Stdlib Require Import DecimalString DecimalPos DecimalZ.
Import ListNotations.
Open Scope string_scope.
Open Scope list_scope.

(** ** Data model *)

(** An element of the [domains] array: [{ zone, record }]. *)
Record Domain : Type := mkDomain { zone : string; record : string }.

(** [d.zone === zone && d.record === record] *)
Definition same_domain (z r : string) (d : Domain) : bool :=
  (zone d =? z) && (record d =? r).

(** The JSON body of an axios response, restricted to the fields the code
    reads: [data.ip] (ipify), [data.success] and [data.result] (Cloudflare;
    [result] is the list of the [id]s of the returned objects and is [None]
    when the field is [null] or missing). *)
Record data : Type := mkData {
  ip : option string;
  success : bool;
  result : option (list string)
}.

(** Outcome of [await axios.get/post/put(...)]: the promise rejects with an
    error carrying [error.message], or resolves with [{ data }]. *)
Inductive axios_result : Type :=
| Rejected (message : string)
| Fulfilled (d : data).

(** The five remote calls of the program. *)
Inductive request : Type :=
| GET_ipify
| GET_zones (name : string)
| GET_dns_records (zoneID name : string)
| POST_dns_records (zoneID name content : string)
| PUT_dns_records (zoneID recordID name content : string).

(** The lines written by [log] and [errorLog], by the place that writes
    them (the time stamp is left out). *)
Inductive message : Type :=
| MsgReadDomainsFailed (err : string)
| MsgReadLastIPFailed (err : string)
| MsgGetPublicIPFailed (err : string)
| MsgZoneNotFound (z : string)
| MsgGetZoneIDFailed (z err : string)
| MsgRecordNotFound (name zoneID : string)
| MsgGetRecordIDFailed (name err : string)
| MsgCreated (name addr : string)
| MsgCreateRefused (name : string)
| MsgCreateFailed (name err : string)
| MsgUpdated (name addr : string)
| MsgUpdateRefused (name : string)
| MsgUpdateFailed (name err : string)
| MsgIPUnchanged (addr : string)
| MsgIPChanged (last : option string) (addr : string)
| MsgDomainAdded (z r : string)
| MsgDomainRemoved (z r : string)
| MsgAddDomainError (err : string).

Inductive event : Type :=
| Http (rq : request) (rs : axios_result)
| WriteLastIP (content : string)
| WriteDomains (ds : list Domain)
| Log (m : message)
| ErrorLog (m : message).

(** What is at the path of a file: nothing, something whose content cannot
    be obtained because of what it holds (for [domains.json], a text that
    [JSON.parse] rejects; for [last_ip.txt], more than fits in a string; the
    error is the one thrown), or a content.  A write replaces it by a
    content. *)
Inductive file (A : Type) : Type :=
| Missing
| Unreadable (err : string)
| Content (c : A).
Arguments Missing {A}.
Arguments Unreadable {A} err.
Arguments Content {A} c.

(** The last two fields are the permissions of the two files: the error
    [fs.readFileSync] throws on the file whatever it holds (EACCES for a
    file the process may write but not read), if any.  Writing into the file
    does not change it; a file the process creates is one it can read. *)
Record world : Type := mkWorld {
  last_ip_txt : file string;          (* IP_FILE *)
  domains_json : file (list Domain);  (* DOMAINS_FILE *)
  network : list event -> request -> axios_result;
  trace : list event;
  last_ip_denied : option string;
  domains_denied : option string
}.

(** [fs.existsSync] then [fs.readFileSync] (and [JSON.parse]) on a file:
    what the process gets to see of it. *)
Definition read {A : Type} (f : file A) (denied : option string) : file A :=
  match f, denied with
  | Missing, _ => Missing
  | _, Some err => Unreadable err
  | _, None => f
  end.

(** The permission of a file after [fs.writeFileSync] on its path. *)
Definition after_write {A : Type} (f : file A) (denied : option string)
    : option string :=
  match f with
  | Missing => None
  | _ => denied
  end.

(** The process: the module-level binding [domains] and the world. *)
Record state : Type := mkState { domains : list Domain; env : world }.

(** ** The state monad; [IO] is the one over the world *)

Definition ST (S A : Type) : Type := S -> A * S.

Definition ret {S A : Type} (a : A) : ST S A := fun w => (a, w).

Definition bind {S A B : Type} (m : ST S A) (k : A -> ST S B) : ST S B :=
  fun w => let (a, w') := m w in k a w'.

Definition IO (A : Type) : Type := ST world A.

Declare Scope io_scope.
Delimit Scope io_scope with io.
Notation "x <- m ;; k" := (bind m (fun x => k))
  (at level 61, m at next level, right associativity) : io_scope.
Notation "m ;; k" := (bind m (fun _ => k))
  (at level 61, right associativity) : io_scope.
Open Scope io_scope.

Definition emit (e : event) : IO unit := fun w =>
  (tt, {| last_ip_txt := last_ip_txt w; domains_json := domains_json w;
          network := network w; trace := trace w ++ [e];
          last_ip_denied := last_ip_denied w;
          domains_denied := domains_denied w |}).

Definition log (m : message) : IO unit := emit (Log m).
Definition errorLog (m : message) : IO unit := emit (ErrorLog m).

(** [await axios...]: the network answers from the history, and the call
    and its outcome are recorded. *)
Definition axios (rq : request) : IO axios_result := fun w =>
  let rs := network w (trace w) rq in
  (rs, snd (emit (Http rq rs) w)).

(** ** JavaScript primitives *)

(** [if (!v) no; else yes(v)]: [null], [undefined] and the empty string are
    falsy. *)
Definition when_truthy {A : Type} (v : option string) (no : A)
    (yes : string -> A) : A :=
  match v with
  | Some s => if s =? "" then no else yes s
  | None => no
  end.

Definition truthy (v : option string) : bool :=
  when_truthy v false (fun _ => true).

(** [a === b] for a string [a] and a string-or-null [b]. *)
Definition strict_eq (a : string) (b : option string) : bool :=
  match b with
  | Some s => a =? s
  | None => false
  end.

(** [String.prototype.trim] removes the white space and the line
    terminators of ECMAScript at both ends.  A string of the model is the
    UTF-8 text of the JavaScript string, so they are the bytes TAB, LF, VT,
    FF, CR and SPACE, the two bytes of U+00A0, and the three bytes of
    U+1680, U+2000 to U+200A, U+2028, U+2029, U+202F, U+205F, U+3000 and
    U+FEFF. *)
Definition is_space (c : ascii) : bool :=
  let n := nat_of_ascii c in
  (((9 <=? n) && (n <=? 13)) || (n =? 32))%nat.

Definition is_space2 (c1 c2 : ascii) : bool :=
  ((nat_of_ascii c1 =? 194) && (nat_of_ascii c2 =? 160))%nat.

Definition is_space3 (c1 c2 c3 : ascii) : bool :=
  let a := nat_of_ascii c1 in
  let b := nat_of_ascii c2 in
  let c := nat_of_ascii c3 in
  (((a =? 225) && (b =? 154) && (c =? 128))
   || ((a =? 226) && (b =? 128)
         && (((128 <=? c) && (c <=? 138))
             || (c =? 168) || (c =? 169) || (c =? 175)))
   || ((a =? 226) && (b =? 129) && (c =? 159))
   || ((a =? 227) && (b =? 128) && (c =? 128))
   || ((a =? 239) && (b =? 187) && (c =? 191)))%nat.

(** The bytes left when the white space at the head of [l] is dropped;
    [back] tells that [l] is the string read from its end, so that the bytes
    of a character come in reverse order. *)
Fixpoint drop_space (back : bool) (l : list ascii) : list ascii :=
  match l with
  | c1 :: l1 =>
      if is_space c1 then drop_space back l1
      else
        match l1 with
        | c2 :: l2 =>
            if (if back then is_space2 c2 c1 else is_space2 c1 c2)
            then drop_space back l2
            else
              match l2 with
              | c3 :: l3 =>
                  if (if back then is_space3 c3 c2 c1 else is_space3 c1 c2 c3)
                  then drop_space back l3
                  else l
              | [] => l
              end
        | [] => l
        end
  | [] => []
  end.

Definition trim_start (s : string) : string :=
  string_of_list_ascii (drop_space false (list_ascii_of_string s)).

Definition trim_end (s : string) : string :=
  string_of_list_ascii
    (rev (drop_space true (rev (list_ascii_of_string s)))).

Definition trim (s : string) : string := trim_end (trim_start s).

(** ** Helpers shared by the two files *)

(** [saveDomains]: [fs.writeFileSync(DOMAINS_FILE, JSON.stringify(domains))];
    the array is passed in. *)
Definition saveDomains (ds : list Domain) : IO unit := fun w =>
  emit (WriteDomains ds)
    {| last_ip_txt := last_ip_txt w; domains_json := Content ds;
       network := network w; trace := trace w;
       last_ip_denied := last_ip_denied w;
       domains_denied := after_write (domains_json w) (domains_denied w) |}.

(** Module initialisation of [domains] (the [let domains = []] block). *)
Definition load_domains (w : world) : state :=
  match read (domains_json w) (domains_denied w) with
  | Missing => {| domains := []; env := snd (saveDomains [] w) |}
  | Unreadable err =>
      {| domains := []; env := snd (errorLog (MsgReadDomainsFailed err) w) |}
  | Content ds => {| domains := ds; env := w |}
  end.

Definition getLastIP : IO (option string) := fun w =>
  match read (last_ip_txt w) (last_ip_denied w) with
  | Missing => ret None w
  | Unreadable err => (errorLog (MsgReadLastIPFailed err) ;; ret None) w
  | Content c => ret (Some (trim c)) w
  end.

Definition saveLastIP (addr : string) : IO unit := fun w =>
  emit (WriteLastIP addr)
    {| last_ip_txt := Content addr; domains_json := domains_json w;
       network := network w; trace := trace w;
       last_ip_denied := after_write (last_ip_txt w) (last_ip_denied w);
       domains_denied := domains_denied w |}.

Definition getPublicIP : IO (option string) :=
  r <- axios GET_ipify ;;
  match r with
  | Fulfilled d => ret (ip d)
  | Rejected err => errorLog (MsgGetPublicIPFailed err) ;; ret None
  end.

(** The [TypeError] raised by [data.result.length] when [result] is not an
    array; it is caught by the enclosing [catch]. *)
Definition type_error : string :=
  "Cannot read properties of null (reading 'length')".

Definition getZoneID (z : string) : IO (option string) :=
  r <- axios (GET_zones z) ;;
  match r with
  | Fulfilled d =>
      if success d then
        match result d with
        | Some (id :: _) => ret (Some id)
        | Some [] => errorLog (MsgZoneNotFound z) ;; ret None
        | None => errorLog (MsgGetZoneIDFailed z type_error) ;; ret None
        end
      else errorLog (MsgZoneNotFound z) ;; ret None
  | Rejected err => errorLog (MsgGetZoneIDFailed z err) ;; ret None
  end.

Definition updateDNSRecord (zoneID recordID recordName addr : string)
    : IO unit :=
  r <- axios (PUT_dns_records zoneID recordID recordName addr) ;;
  match r with
  | Fulfilled d =>
      if success d then log (MsgUpdated recordName addr)
      else errorLog (MsgUpdateRefused recordName)
  | Rejected err => errorLog (MsgUpdateFailed recordName err)
  end.

(** [for (const d of ds) body(d)] over an array nobody else touches. *)
Fixpoint for_of (ds : list Domain) (body : Domain -> IO unit) : IO unit :=
  match ds with
  | [] => ret tt
  | d :: ds' => body d ;; for_of ds' body
  end.

(** ** Time stamps

    [getTimestamp] has the same text in both files.  The clock is passed
    in: [now] holds what the five getters of [new Date()] return. *)

Record Date : Type := mkDate {
  getFullYear : Z;
  getMonth : nat;     (* 0 to 11 *)
  getDate : nat;      (* 1 to 31 *)
  getHours : nat;     (* 0 to 23 *)
  getMinutes : nat    (* 0 to 59 *)
}.

(** [String(n)] for a natural number: its decimal digits. *)
Definition String_of_nat (n : nat) : string :=
  NilZero.string_of_uint (Nat.to_uint n).

(** The interpolation of an integer in a template string. *)
Definition String_of_Z (n : Z) : string :=
  NilZero.string_of_int (Z.to_int n).

Fixpoint pad_with (c : ascii) (k : nat) (s : string) : string :=
  match k with
  | 0 => s
  | S k' => String c (pad_with c k' s)
  end.

(** [s.padStart(targetLength, c)] for a one-character pad string. *)
Definition padStart (targetLength : nat) (c : ascii) (s : string) : string :=
  pad_with c (targetLength - String.length s) s.

Definition getTimestamp (now : Date) : string :=
  let yyyy := getFullYear now in
  let mm := padStart 2 "0" (String_of_nat (getMonth now + 1)) in
  let dd := padStart 2 "0" (String_of_nat (getDate now)) in
  let hh := padStart 2 "0" (String_of_nat (getHours now)) in
  let min := padStart 2 "0" (String_of_nat (getMinutes now)) in
  (String_of_Z yyyy ++ "/" ++ mm ++ "/" ++ dd ++ " " ++ hh ++ ":" ++ min)%string.

(** ** The control surface: requests and responses *)

Inductive route : Type := POST_domains | DELETE_domains | GET_domains | OtherRoute.

(** A request whose body [bodyParser.json()] has taken: the route, the
    [x-api-key] header and the two fields read from [req.body]. *)
Record http_request : Type := mkRequest {
  rt : route;
  x_api_key : option string;
  body_zone : option string;
  body_record : option string
}.

(** The [message] strings of the JSON replies. *)
Inductive reply_text : Type :=
| TxtUnauthorized
| TxtFieldsRequired
| TxtAlreadyExists
| TxtNoPublicIP
| TxtZoneNotFound (z : string)
| TxtAddedAndUpdated
| TxtAddError
| TxtAdded
| TxtNotFound
| TxtRemoved.

(** What is sent back: one of the JSON values of the handlers, or a page
    of express itself (no such route; an error passed on by a
    middleware). *)
Inductive json_body : Type :=
| JMessage (m : reply_text)
| JMessageDomains (m : reply_text) (ds : list Domain)
| JDomains (ds : list Domain)
| JNoRoute
| JErrorPage.

Record http_response : Type := mkResponse { status : nat; body : json_body }.

(** What the server receives.  [app.use(bodyParser.json())] is the first
    middleware (line 8 of the service with authentication, line 10 of
    [index.js]).  When it refuses the body (a text that is not JSON, a body
    that is too large, ...) it passes on an error, express answers with the
    status the error carries (400 for a text that is not JSON) and no other
    middleware runs; the request is then known by that status, its route
    and its [x-api-key] header.  Otherwise the body is taken and the next
    middleware runs. *)
Inductive incoming : Type :=
| BodyRefused (parser_status : nat) (r : route) (key : option string)
| BodyTaken (req : http_request).

(** [app.delete('/domains', ...)] *)
Definition delete_domains (z r : option string) (s : state)
    : http_response * state :=
  let bad := (mkResponse 400 (JMessage TxtFieldsRequired), s) in
  when_truthy z bad (fun z => when_truthy r bad (fun r =>
    let initialLength := length (domains s) in
    let ds := filter (fun d => negb (same_domain z r d)) (domains s) in
    if (length ds =? initialLength)%nat then
      (mkResponse 404 (JMessage TxtNotFound), {| domains := ds; env := env s |})
    else
      let w := snd ((saveDomains ds ;; log (MsgDomainRemoved z r)) (env s)) in
      (mkResponse 200 (JMessageDomains TxtRemoved ds),
       {| domains := ds; env := w |}))).

(** [app.get('/domains', ...)] *)
Definition get_domains (s : state) : http_response * state :=
  (mkResponse 200 (JDomains (domains s)), s).

(** A run of the [IO] action [m] by the process, [domains] untouched. *)
Definition run (m : IO unit) (s : state) : state :=
  {| domains := domains s; env := snd (m (env s)) |}.

(** ** [index.js] *)

Module IndexJs.

Definition getDNSRecordID (zoneID recordName : string) : IO (option string) :=
  r <- axios (GET_dns_records zoneID recordName) ;;
  match r with
  | Fulfilled d =>
      if success d then
        match result d with
        | Some (id :: _) => ret (Some id)
        | Some [] => errorLog (MsgRecordNotFound recordName zoneID) ;; ret None
        | None => errorLog (MsgGetRecordIDFailed recordName type_error) ;; ret None
        end
      else errorLog (MsgRecordNotFound recordName zoneID) ;; ret None
  | Rejected err => errorLog (MsgGetRecordIDFailed recordName err) ;; ret None
  end.

(** The body of the [for] loop of [updateDNS] (lines 153-159). *)
Definition updateDNS_body (currentIP : string) (d : Domain) : IO unit :=
  zoneID <- getZoneID (zone d) ;;
  when_truthy zoneID (ret tt) (fun zoneID =>
    recordID <- getDNSRecordID zoneID (record d) ;;
    when_truthy recordID (ret tt) (fun recordID =>
      updateDNSRecord zoneID recordID (record d) currentIP)).

(** [updateDNS], with the array bound to [domains] passed in. *)
Definition updateDNS (ds : list Domain) : IO unit :=
  currentIP <- getPublicIP ;;
  when_truthy currentIP (ret tt) (fun currentIP =>
    lastIP <- getLastIP ;;
    if strict_eq currentIP lastIP then log (MsgIPUnchanged currentIP)
    else
      log (MsgIPChanged lastIP currentIP) ;;
      for_of ds (updateDNS_body currentIP) ;;
      saveLastIP currentIP).

(** [app.post('/domains', ...)] *)
Definition post_domains (z r : option string) (s : state)
    : http_response * state :=
  let bad := (mkResponse 400 (JMessage TxtFieldsRequired), s) in
  when_truthy z bad (fun z => when_truthy r bad (fun r =>
    if existsb (same_domain z r) (domains s) then
      (mkResponse 400 (JMessage TxtAlreadyExists), s)
    else
      let ds := (domains s ++ [mkDomain z r])%list in
      let w := snd ((saveDomains ds ;; log (MsgDomainAdded z r)) (env s)) in
      (mkResponse 201 (JMessageDomains TxtAdded ds),
       {| domains := ds; env := w |}))).

(** The express application: no middleware besides the body parser. *)
Definition app (req : http_request) (s : state) : http_response * state :=
  match rt req with
  | POST_domains => post_domains (body_zone req) (body_record req) s
  | DELETE_domains => delete_domains (body_zone req) (body_record req) s
  | GET_domains => get_domains s
  | OtherRoute => (mkResponse 404 JNoRoute, s)
  end.

(** The server: the body parser, then the application. *)
Definition serve (i : incoming) (s : state) : http_response * state :=
  match i with
  | BodyRefused parser_status _ _ => (mkResponse parser_status JErrorPage, s)
  | BodyTaken req => app req s
  end.

(** The callback of [setInterval], also called once at start. *)
Definition tick (s : state) : state := run (updateDNS (domains s)) s.

End IndexJs.

(** ** The service with authentication and record creation *)

Module Part000.

Definition authenticate (API_KEY : option string) (req : http_request) : bool :=
  when_truthy (x_api_key req) false (fun apiKey => strict_eq apiKey API_KEY).

Definition getDNSRecordID (zoneID recordName : string) : IO (option string) :=
  r <- axios (GET_dns_records zoneID recordName) ;;
  match r with
  | Fulfilled d =>
      if success d then
        match result d with
        | Some (id :: _) => ret (Some id)
        | Some [] => ret None
        | None => errorLog (MsgGetRecordIDFailed recordName type_error) ;; ret None
        end
      else ret None
  | Rejected err => errorLog (MsgGetRecordIDFailed recordName err) ;; ret None
  end.

Definition createDNSRecord (zoneID recordName addr : string) : IO unit :=
  r <- axios (POST_dns_records zoneID recordName addr) ;;
  match r with
  | Fulfilled d =>
      if success d then log (MsgCreated recordName addr)
      else errorLog (MsgCreateRefused recordName)
  | Rejected err => errorLog (MsgCreateFailed recordName err)
  end.

(** The body of the [for] loop of [updateDNS] (lines 191-200). *)
Definition updateDNS_body (currentIP : string) (d : Domain) : IO unit :=
  zoneID <- getZoneID (zone d) ;;
  when_truthy zoneID (ret tt) (fun zoneID =>
    recordID <- getDNSRecordID zoneID (record d) ;;
    when_truthy recordID
      (createDNSRecord zoneID (record d) currentIP)
      (fun recordID => updateDNSRecord zoneID recordID (record d) currentIP)).

(** [updateDNS], with the array bound to [domains] passed in. *)
Definition updateDNS (ds : list Domain) : IO unit :=
  currentIP <- getPublicIP ;;
  when_truthy currentIP (ret tt) (fun currentIP =>
    lastIP <- getLastIP ;;
    if strict_eq currentIP lastIP then log (MsgIPUnchanged currentIP)
    else
      log (MsgIPChanged lastIP currentIP) ;;
      for_of ds (updateDNS_body currentIP) ;;
      saveLastIP currentIP).

(** The [try] ... [catch] of [app.post('/domains', ...)] (lines 221-250):
    the immediate update of the record just added; [ds] is the array after
    the [push], sent back in the 201 reply.  Every helper catches the errors
    of its own network call and [getLastIP] those of its read, so the one
    statement of the block that can throw is [saveLastIP], when
    [fs.writeFileSync] refuses the write (the file cannot be opened for
    writing: EACCES, EROFS, EISDIR); [thrown] is the message of that error,
    if it is thrown, and the file is then left as it was. *)
Definition post_domains_try (thrown : option string) (z r : string)
    (ds : list Domain) : IO http_response :=
  currentIP <- getPublicIP ;;
  when_truthy currentIP (ret (mkResponse 500 (JMessage TxtNoPublicIP)))
    (fun currentIP =>
      zoneID <- getZoneID z ;;
      when_truthy zoneID (ret (mkResponse 400 (JMessage (TxtZoneNotFound z))))
        (fun zoneID =>
          recordID <- getDNSRecordID zoneID r ;;
          when_truthy recordID
            (createDNSRecord zoneID r currentIP)
            (fun recordID => updateDNSRecord zoneID recordID r currentIP) ;;
          lastIP <- getLastIP ;;
          if negb (strict_eq currentIP lastIP) then
            match thrown with
            | Some err =>
                errorLog (MsgAddDomainError err) ;;
                ret (mkResponse 500 (JMessage TxtAddError))
            | None =>
                saveLastIP currentIP ;;
                ret (mkResponse 201 (JMessageDomains TxtAddedAndUpdated ds))
            end
          else ret (mkResponse 201 (JMessageDomains TxtAddedAndUpdated ds)))).

(** The immediate update when [fs.writeFileSync] returns. *)
Definition post_domains_update (z r : string) (ds : list Domain)
    : IO http_response :=
  post_domains_try None z r ds.

(** [app.post('/domains', ...)]; [thrown] is for the write of
    [last_ip.txt] as above, and the write of [domains.json], which comes
    before the [try], is taken to return. *)
Definition post_domains_on (thrown : option string) (z r : option string)
    (s : state) : http_response * state :=
  let bad := (mkResponse 400 (JMessage TxtFieldsRequired), s) in
  when_truthy z bad (fun z => when_truthy r bad (fun r =>
    if existsb (same_domain z r) (domains s) then
      (mkResponse 400 (JMessage TxtAlreadyExists), s)
    else
      let ds := (domains s ++ [mkDomain z r])%list in
      let (res, w) :=
        (saveDomains ds ;; log (MsgDomainAdded z r) ;;
         post_domains_try thrown z r ds) (env s) in
      (res, {| domains := ds; env := w |}))).

(** The handler when [fs.writeFileSync] returns. *)
Definition post_domains (z r : option string) (s : state)
    : http_response * state :=
  post_domains_on None z r s.

(** The express application: [app.use(authenticate)] runs before every
    route. *)
Definition app (API_KEY : option string) (req : http_request) (s : state)
    : http_response * state :=
  if authenticate API_KEY req then
    match rt req with
    | POST_domains => post_domains (body_zone req) (body_record req) s
    | DELETE_domains => delete_domains (body_zone req) (body_record req) s
    | GET_domains => get_domains s
    | OtherRoute => (mkResponse 404 JNoRoute, s)
    end
  else (mkResponse 401 (JMessage TxtUnauthorized), s).

(** The server: the body parser (line 8), then [authenticate] (line 42)
    and the routes. *)
Definition serve (API_KEY : option string) (i : incoming) (s : state)
    : http_response * state :=
  match i with
  | BodyRefused parser_status _ _ => (mkResponse parser_status JErrorPage, s)
  | BodyTaken req => app API_KEY req s
  end.

(** The callback of [setInterval], also called once at start. *)
Definition tick (s : state) : state := run (updateDNS (domains s)) s.

End Part000.

(** ** Handlers that run while a pass is suspended

    [updateDNS] is an [async] function: at every [await] the event loop may
    run other handlers before the pass resumes.  [domains] is then a shared
    binding to a shared array object: [domains.push] changes the object in
    place, [domains = domains.filter(...)] allocates a new array and rebinds
    the name.  The [for ... of] loop evaluates [domains] once, when it
    starts, and its iterator reads the length of that object at every step.

    A [config] holds the array objects by address, the address bound to
    [domains], the world, and for each coming [await] of the pass the
    handler blocks that run while it is pending. *)

Module Interleaving.

(** The synchronous part of a handler, as far as [domains] is concerned:
    [POST /domains] up to its first [await] (the whole handler in
    [index.js]) and [DELETE /domains]. *)
Inductive block : Type :=
| AddBlock (z r : option string)
| RemoveBlock (z r : option string).

Record config : Type := mkConfig {
  arrays : list (list Domain);
  domains_ref : nat;
  wld : world;
  pending : list (list block)
}.

Definition array_at (a : nat) (c : config) : list Domain :=
  nth a (arrays c) [].

(** What a handler that starts now sees. *)
Definition view (c : config) : state :=
  {| domains := array_at (domains_ref c) c; env := wld c |}.

Fixpoint store (a : nat) (v : list Domain) (hp : list (list Domain))
    : list (list Domain) :=
  match hp, a with
  | [], _ => []
  | _ :: hp', 0 => v :: hp'
  | x :: hp', S a' => x :: store a' v hp'
  end.

(** A step of the pass that does not suspend it. *)
Definition lift {A : Type} (m : IO A) : ST config A := fun c =>
  let (x, w) := m (wld c) in
  (x, {| arrays := arrays c; domains_ref := domains_ref c; wld := w;
         pending := pending c |}).

(** Lines 210-219 of [app.post('/domains', ...)]: [domains.push] writes into
    the array object currently bound to [domains]. *)
Definition post_domains_sync (z r : option string) (c : config) : config :=
  when_truthy z c (fun z => when_truthy r c (fun r =>
    if existsb (same_domain z r) (array_at (domains_ref c) c) then c
    else
      let ds := (array_at (domains_ref c) c ++ [mkDomain z r])%list in
      {| arrays := store (domains_ref c) ds (arrays c);
         domains_ref := domains_ref c;
         wld := snd ((saveDomains ds ;; log (MsgDomainAdded z r)) (wld c));
         pending := pending c |})).

(** [app.delete('/domains', ...)]: [filter] returns a new array, to which
    [domains] is rebound before the length test. *)
Definition delete_domains (z r : option string) (c : config) : config :=
  when_truthy z c (fun z => when_truthy r c (fun r =>
    let initialLength := length (array_at (domains_ref c) c) in
    let ds := filter (fun d => negb (same_domain z r d))
                     (array_at (domains_ref c) c) in
    let w :=
      if (length ds =? initialLength)%nat then wld c
      else snd ((saveDomains ds ;; log (MsgDomainRemoved z r)) (wld c)) in
    {| arrays := (arrays c ++ [ds])%list;
       domains_ref := length (arrays c);
       wld := w;
       pending := pending c |})).

Definition run_block (c : config) (b : block) : config :=
  match b with
  | AddBlock z r => post_domains_sync z r c
  | RemoveBlock z r => delete_domains z r c
  end.

(** [await m]: the call is made, and the blocks scheduled for this
    suspension run before the pass resumes. *)
Definition await {A : Type} (m : IO A) : ST config A := fun c =>
  let (x, c1) := lift m c in
  (x, fold_left run_block (hd [] (pending c1))
        {| arrays := arrays c1; domains_ref := domains_ref c1;
           wld := wld c1; pending := tl (pending c1) |}).

(** The loop of [updateDNS] over the array object at address [a]: the
    iterator holds [a] and the index [i]; it is done when [i] reaches the
    current length of the object. *)
Fixpoint for_of_live (fuel : nat) (a i : nat) (body : Domain -> ST config unit)
    (c : config) : option config :=
  match fuel with
  | 0 => None
  | S fuel' =>
      match nth_error (array_at a c) i with
      | None => Some c
      | Some d => for_of_live fuel' a (S i) body (snd (body d c))
      end
  end.

(** [updateDNS] of either file, given its loop body. *)
Definition updateDNS_with (body : string -> Domain -> ST config unit)
    (fuel : nat) (c : config) : option config :=
  let (currentIP, c1) := await getPublicIP c in
  when_truthy currentIP (Some c1) (fun currentIP =>
    let (lastIP, c2) := lift getLastIP c1 in
    if strict_eq currentIP lastIP then
      Some (snd (lift (log (MsgIPUnchanged currentIP)) c2))
    else
      let c3 := snd (lift (log (MsgIPChanged lastIP currentIP)) c2) in
      match for_of_live fuel (domains_ref c3) 0 (body currentIP) c3 with
      | Some c4 => Some (snd (lift (saveLastIP currentIP) c4))
      | None => None
      end).

(** Loop body of [index.js]. *)
Definition index_js_body (currentIP : string) (d : Domain) : ST config unit :=
  zoneID <- await (getZoneID (zone d)) ;;
  when_truthy zoneID (ret tt) (fun zoneID =>
    recordID <- await (IndexJs.getDNSRecordID zoneID (record d)) ;;
    when_truthy recordID (ret tt) (fun recordID =>
      await (updateDNSRecord zoneID recordID (record d) currentIP))).

(** Loop body of the service with record creation. *)
Definition part_000_body (currentIP : string) (d : Domain) : ST config unit :=
  zoneID <- await (getZoneID (zone d)) ;;
  when_truthy zoneID (ret tt) (fun zoneID =>
    recordID <- await (Part000.getDNSRecordID zoneID (record d)) ;;
    when_truthy recordID
      (await (Part000.createDNSRecord zoneID (record d) currentIP))
      (fun recordID =>
        await (updateDNSRecord zoneID recordID (record d) currentIP))).

Definition index_js_updateDNS : nat -> config -> option config :=
  updateDNS_with index_js_body.

Definition part_000_updateDNS : nat -> config -> option config :=
  updateDNS_with part_000_body.

End Interleaving.

(** ** Observations on traces *)

(** The events added to the trace between two worlds. *)
Definition new_events (before after : world) : list event :=
  skipn (length (trace before)) (trace after).

(** The events of running [m] in [w]. *)
Definition emitted {A : Type} (m : IO A) (w : world) : list event :=
  new_events w (snd (m w)).

Definition is_provider_call (e : event) : bool :=
  match e with
  | Http GET_ipify _ => false
  | Http _ _ => true
  | _ => false
  end.

(** The calls made to the DNS provider, in order. *)
Definition provider_calls (tr : list event) : list event :=
  filter is_provider_call tr.

Definition is_last_ip_write (e : event) : bool :=
  match e with
  | WriteLastIP _ => true
  | _ => false
  end.

(** The zones whose identifier was asked for, in order: one per domain
    attempted. *)
Fixpoint zones_requested (tr : list event) : list string :=
  match tr with
  | Http (GET_zones z) _ :: tr' => z :: zones_requested tr'
  | _ :: tr' => zones_requested tr'
  | [] => []
  end.

(** What the helpers print: error lines and the two success lines. *)
Definition is_report (e : event) : bool :=
  match e with
  | ErrorLog _ | Log (MsgUpdated _ _) | Log (MsgCreated _ _) => true
  | _ => false
  end.

(** The events of the attempt for one domain: provider calls and reports. *)
Definition is_attempt_event (e : event) : bool :=
  is_provider_call e || is_report e.

Definition is_write (e : event) : bool :=
  match e with
  | WriteLastIP _ | WriteDomains _ => true
  | _ => false
  end.

(** [w] with [evs] appended to its trace. *)
Definition add_events (w : world) (evs : list event) : world :=
  {| last_ip_txt := last_ip_txt w; domains_json := domains_json w;
     network := network w; trace := trace w ++ evs;
     last_ip_denied := last_ip_denied w;
     domains_denied := domains_denied w |}.

(** The identifier a lookup answers: [data.result[0].id] when
    [data.success && data.result.length]. *)
Definition first_id (rs : axios_result) : option string :=
  match rs with
  | Fulfilled d =>
      if success d then
        match result d with
        | Some (id :: _) => Some id
        | _ => None
        end
      else None
  | Rejected _ => None
  end.

(** The identifier the caller goes on with: a truthy [first_id]. *)
Definition found (rs : axios_result) : option string :=
  when_truthy (first_id rs) None Some.

(** [LastKnownIP]: what [getLastIP] returns. *)
Definition last_known_ip (w : world) : option string := fst (getLastIP w).

(** How the attempt for one domain ended. *)
Inductive outcome : Type := ZoneUnresolved | RecordSkipped | Updated | Created.

(** The provider calls of one attempt that follows the create-or-update
    policy for the domain [d] and the address [addr], by the answers the
    provider gave. *)
Inductive upsert_attempt (addr : string) (d : Domain)
    : outcome -> list event -> Prop :=
| upsert_no_zone rs :
    found rs = None ->
    upsert_attempt addr d ZoneUnresolved [Http (GET_zones (zone d)) rs]
| upsert_update rs1 zid rs2 rid rs3 :
    found rs1 = Some zid -> found rs2 = Some rid ->
    upsert_attempt addr d Updated
      [Http (GET_zones (zone d)) rs1;
       Http (GET_dns_records zid (record d)) rs2;
       Http (PUT_dns_records zid rid (record d) addr) rs3]
| upsert_create rs1 zid rs2 rs3 :
    found rs1 = Some zid -> found rs2 = None ->
    upsert_attempt addr d Created
      [Http (GET_zones (zone d)) rs1;
       Http (GET_dns_records zid (record d)) rs2;
       Http (POST_dns_records zid (record d) addr) rs3].

(** The provider calls of one attempt that only updates: a domain whose
    record is not found is left alone. *)
Inductive update_attempt (addr : string) (d : Domain)
    : outcome -> list event -> Prop :=
| update_no_zone rs :
    found rs = None ->
    update_attempt addr d ZoneUnresolved [Http (GET_zones (zone d)) rs]
| update_update rs1 zid rs2 rid rs3 :
    found rs1 = Some zid -> found rs2 = Some rid ->
    update_attempt addr d Updated
      [Http (GET_zones (zone d)) rs1;
       Http (GET_dns_records zid (record d)) rs2;
       Http (PUT_dns_records zid rid (record d) addr) rs3]
| update_no_record rs1 zid rs2 :
    found rs1 = Some zid -> found rs2 = None ->
    update_attempt addr d RecordSkipped
      [Http (GET_zones (zone d)) rs1;
       Http (GET_dns_records zid (record d)) rs2].

(** A pass whose provider calls are one attempt per domain of [ds], in
    order, each of the shape [shape]. *)
Definition attempts_each
    (shape : Domain -> outcome -> list event -> Prop)
    (ds : list Domain) (calls : list event) : Prop :=
  exists chunks,
    calls = concat chunks /\
    Forall2 (fun d chunk => exists o, shape d o chunk) ds chunks.

(** ** Runs of the passes *)

(** What an attempt for one domain must satisfy, whatever the policy
    [shape]: it returns, changes nothing but the trace, asks once for the
    zone of [d], and its provider calls have the shape. *)
Definition attempt_spec (shape : Domain -> outcome -> list event -> Prop)
    (body : Domain -> IO unit) : Prop :=
  forall d w, exists o evs,
    body d w = (tt, add_events w evs) /\
    shape d o (provider_calls evs) /\
    zones_requested evs = [zone d] /\
    forallb is_attempt_event evs = true.

(** [w] after [fs.writeFileSync(IP_FILE, addr)]. *)
Definition set_last_ip (addr : string) (w : world) : world :=
  {| last_ip_txt := Content addr; domains_json := domains_json w;
     network := network w; trace := trace w;
     last_ip_denied := after_write (last_ip_txt w) (last_ip_denied w);
     domains_denied := domains_denied w |}.

(** The three ways a pass over [ds] started in [w] can end, with the world
    it leaves. *)
Inductive pass_run (shape : string -> Domain -> outcome -> list event -> Prop)
    (ds : list Domain) (w : world) : world -> Prop :=
| pass_aborted logs :
    truthy (fst (getPublicIP w)) = false ->
    forallb is_report logs = true ->
    pass_run shape ds w
      (add_events w (Http GET_ipify (network w (trace w) GET_ipify) :: logs))
| pass_skipped addr logs :
    fst (getPublicIP w) = Some addr -> addr <> "" ->
    last_known_ip w = Some addr ->
    forallb is_report logs = true ->
    pass_run shape ds w
      (add_events w
         (Http GET_ipify (network w (trace w) GET_ipify)
            :: logs ++ [Log (MsgIPUnchanged addr)]))
| pass_completed addr logs evs :
    fst (getPublicIP w) = Some addr -> addr <> "" ->
    last_known_ip w <> Some addr ->
    forallb is_report logs = true ->
    attempts_each (shape addr) ds (provider_calls evs) ->
    zones_requested evs = map zone ds ->
    forallb is_attempt_event evs = true ->
    pass_run shape ds w
      (add_events (set_last_ip addr w)
         (Http GET_ipify (network w (trace w) GET_ipify)
            :: logs ++ Log (MsgIPChanged (last_known_ip w) addr)
            :: evs ++ [WriteLastIP addr])).

(** [LastKnownIP] is written at most once among [evs], and a write comes
    last, after the zone of every domain of [ds] has been asked for. *)
Definition written_once_at_end (ds : list Domain) (evs : list event) : Prop :=
  length (filter is_last_ip_write evs) <= 1 /\
  forall pre a post,
    evs = pre ++ WriteLastIP a :: post ->
    post = [] /\ zones_requested pre = map zone ds.

(** The ways the immediate update of [POST /domains] can end, with the
    reply and the world it leaves. *)
Inductive add_run (z r : string) (ds : list Domain) (w : world)
    : http_response -> world -> Prop :=
| add_no_address logs :
    truthy (fst (getPublicIP w)) = false ->
    forallb is_report logs = true ->
    add_run z r ds w (mkResponse 500 (JMessage TxtNoPublicIP))
      (add_events w (Http GET_ipify (network w (trace w) GET_ipify) :: logs))
| add_no_zone addr logs evs :
    fst (getPublicIP w) = Some addr -> addr <> "" ->
    forallb is_report logs = true ->
    upsert_attempt addr (mkDomain z r) ZoneUnresolved (provider_calls evs) ->
    forallb is_attempt_event evs = true ->
    add_run z r ds w (mkResponse 400 (JMessage (TxtZoneNotFound z)))
      (add_events w
         (Http GET_ipify (network w (trace w) GET_ipify) :: logs ++ evs))
| add_done_unchanged addr logs evs o logs' :
    fst (getPublicIP w) = Some addr -> addr <> "" ->
    forallb is_report logs = true ->
    upsert_attempt addr (mkDomain z r) o (provider_calls evs) ->
    o <> ZoneUnresolved ->
    forallb is_attempt_event evs = true ->
    forallb is_report logs' = true ->
    last_known_ip w = Some addr ->
    add_run z r ds w (mkResponse 201 (JMessageDomains TxtAddedAndUpdated ds))
      (add_events w
         (Http GET_ipify (network w (trace w) GET_ipify)
            :: logs ++ evs ++ logs'))
| add_done_written addr logs evs o logs' :
    fst (getPublicIP w) = Some addr -> addr <> "" ->
    forallb is_report logs = true ->
    upsert_attempt addr (mkDomain z r) o (provider_calls evs) ->
    o <> ZoneUnresolved ->
    forallb is_attempt_event evs = true ->
    forallb is_report logs' = true ->
    last_known_ip w <> Some addr ->
    add_run z r ds w (mkResponse 201 (JMessageDomains TxtAddedAndUpdated ds))
      (add_events (set_last_ip addr w)
         (Http GET_ipify (network w (trace w) GET_ipify)
            :: logs ++ evs ++ logs' ++ [WriteLastIP addr])).

(** [w] after [saveDomains] wrote [ds]. *)
Definition set_domains_json (ds : list Domain) (w : world) : world :=
  {| last_ip_txt := last_ip_txt w; domains_json := Content ds;
     network := network w; trace := trace w;
     last_ip_denied := last_ip_denied w;
     domains_denied := after_write (domains_json w) (domains_denied w) |}.

(** The world in which the immediate update of an accepted add starts:
    [domains.json] holds the new array, and the write and the log line are
    in the trace. *)
Definition after_add (z r : string) (ds : list Domain) (w : world) : world :=
  add_events (set_domains_json ds w) [WriteDomains ds; Log (MsgDomainAdded z r)].

Definition is_http (e : event) : bool :=
  match e with
  | Http _ _ => true
  | _ => false
  end.

(** How far the immediate update got, as the reply tells it. *)
Definition reply_tells (z r : string) (ds : list Domain)
    (res : http_response) (calls : list event) : Prop :=
  (res = mkResponse 500 (JMessage TxtNoPublicIP) /\ calls = []) \/
  (res = mkResponse 400 (JMessage (TxtZoneNotFound z)) /\
   exists addr, upsert_attempt addr (mkDomain z r) ZoneUnresolved calls) \/
  (res = mkResponse 201 (JMessageDomains TxtAddedAndUpdated ds) /\
   exists addr o,
     o <> ZoneUnresolved /\ upsert_attempt addr (mkDomain z r) o calls).

(** ** States of the process *)

(** The states a process started in [w0] goes through: initialisation,
    then timer ticks and requests in any order. *)
Inductive reachable (API_KEY : option string) (w0 : world) : state -> Prop :=
| reach_start : reachable API_KEY w0 (load_domains w0)
| reach_tick s :
    reachable API_KEY w0 s -> reachable API_KEY w0 (Part000.tick s)
| reach_request s req :
    reachable API_KEY w0 s ->
    reachable API_KEY w0 (snd (Part000.app API_KEY req s)).

(** [domains.json], when it can be read, lists no pair twice. *)
Definition file_nodup (f : file (list Domain)) : Prop :=
  match f with
  | Content ds => NoDup ds
  | _ => True
  end.

(** No pair is listed twice, in [domains] or in [domains.json]. *)
Definition no_duplicates (s : state) : Prop :=
  NoDup (domains s) /\ file_nodup (domains_json (env s)).

(** ** Runs with handlers in between *)

(** [last_ip.txt] with its permission. *)
Definition ip_file (w : world) : file string * option string :=
  (last_ip_txt w, last_ip_denied w).

(** The address [a] is allocated and [domains] is bound to an allocated
    array. *)
Definition allocated (a : nat) (c : Interleaving.config) : Prop :=
  a < length (Interleaving.arrays c) /\
  Interleaving.domains_ref c < length (Interleaving.arrays c).

Definition is_add_of (d : Domain) (b : Interleaving.block) : Prop :=
  b = Interleaving.AddBlock (Some (zone d)) (Some (record d)).

(** What happens between two points [c] and [c'] of a pass, seen from the
    array object at address [a]: the blocks [used] ran; the object only
    grew, by [extra], each element pushed by an add among [used]; the array
    bound to [domains] at [c'] is not longer than the one at [c] by more
    than the number of blocks run; [last_ip.txt] and the network are the
    same; the trace grew, and the zones asked for in between are [zs]. *)
Definition progress (a : nat) (c c' : Interleaving.config)
    (zs : list string) : Prop :=
  allocated a c' /\
  (exists extra used,
     Interleaving.array_at a c' = Interleaving.array_at a c ++ extra /\
     Interleaving.pending c = used ++ Interleaving.pending c' /\
     length extra <= length (concat used) /\
     Forall (fun d => Exists (is_add_of d) (concat used)) extra /\
     length (Interleaving.array_at (Interleaving.domains_ref c') c')
       <= length (Interleaving.array_at (Interleaving.domains_ref c) c)
          + length (concat used)) /\
  ip_file (Interleaving.wld c') = ip_file (Interleaving.wld c) /\
  network (Interleaving.wld c') = network (Interleaving.wld c) /\
  exists evs,
    trace (Interleaving.wld c') = trace (Interleaving.wld c) ++ evs /\
    zones_requested evs = zs.

(** The effect of handler blocks [bs] run in a row, seen from the array
    object at address [a]. *)
Definition heap_step (a : nat) (c c' : Interleaving.config)
    (bs : list Interleaving.block) : Prop :=
  allocated a c' /\
  Interleaving.pending c' = Interleaving.pending c /\
  (exists extra,
     Interleaving.array_at a c' = Interleaving.array_at a c ++ extra /\
     length extra <= length bs /\
     Forall (fun d => Exists (is_add_of d) bs) extra) /\
  length (Interleaving.array_at (Interleaving.domains_ref c') c')
    <= length (Interleaving.array_at (Interleaving.domains_ref c) c)
       + length bs /\
  ip_file (Interleaving.wld c') = ip_file (Interleaving.wld c) /\
  network (Interleaving.wld c') = network (Interleaving.wld c) /\
  exists evs,
    trace (Interleaving.wld c') = trace (Interleaving.wld c) ++ evs /\
    zones_requested evs = [].

(** What the loop body must do in the interleaved model: one zone lookup,
    for the zone of its domain, and [progress]. *)
Definition live_attempt_spec
    (body : Domain -> ST Interleaving.config unit) : Prop :=
  forall a d c, allocated a c -> progress a c (snd (body d c)) [zone d].

Definition is_remove (b : Interleaving.block) : Prop :=
  match b with
  | Interleaving.RemoveBlock _ _ => True
  | Interleaving.AddBlock _ _ => False
  end.

(** The zones a finished pass started in [c] asked for. *)
Definition attempted (c : Interleaving.config)
    (r : option Interleaving.config) : option (list string) :=
  option_map
    (fun c' =>
       zones_requested (new_events (Interleaving.wld c) (Interleaving.wld c')))
    r.

(** What C9, as amended, says of a pass [pass] run with [fuel] from [c]:
    it ends, and it attempts the domains that the array bound to [domains]
    held when the loop started, then those that adds pushed into that
    array during the loop, and no other; none is added when the handlers
    that run meanwhile are all removals. *)
Definition follows_live_array
    (pass : nat -> Interleaving.config -> option Interleaving.config)
    (fuel : nat) (c : Interleaving.config) : Prop :=
  let start := snd (Interleaving.await getPublicIP c) in
  let snapshot := domains (Interleaving.view start) in
  exists c' extra,
    pass fuel c = Some c' /\
    attempted c (pass fuel c) = Some (map zone (snapshot ++ extra)) /\
    Interleaving.array_at (Interleaving.domains_ref start) c'
      = snapshot ++ extra /\
    Forall (fun d => Exists (is_add_of d)
                       (concat (Interleaving.pending start))) extra /\
    (Forall (Forall is_remove) (Interleaving.pending start) -> extra = []).

(** ** Worlds used as concrete inputs *)

Definition ok_ip (addr : string) : axios_result :=
  Fulfilled (mkData (Some addr) false None).

Definition ok_ids (ids : list string) : axios_result :=
  Fulfilled (mkData None true (Some ids)).

Definition ok_write : axios_result := Fulfilled (mkData None true None).

(** A provider that holds the zone [example.com] (identifier [z1]) with the
    one record [home.example.com] (identifier [r1]), a resolver that
    answers [addr], and [put] the answer to every update call. *)
Definition demo_network (addr : string) (put : axios_result)
    : list event -> request -> axios_result :=
  fun _ rq =>
    match rq with
    | GET_ipify => ok_ip addr
    | GET_zones z => if z =? "example.com" then ok_ids ["z1"] else ok_ids []
    | GET_dns_records _ name =>
        if name =? "home.example.com" then ok_ids ["r1"] else ok_ids []
    | POST_dns_records _ _ _ => ok_write
    | PUT_dns_records _ _ _ _ => put
    end.

Definition demo_world (last : file string) (addr : string) : world :=
  {| last_ip_txt := last; domains_json := Missing;
     network := demo_network addr ok_write; trace := [];
     last_ip_denied := None; domains_denied := None |}.

(** A world whose resolver is down. *)
Definition offline_world : world :=
  {| last_ip_txt := Content "198.51.100.7"; domains_json := Missing;
     network := fun _ _ => Rejected "getaddrinfo ENOTFOUND"; trace := [];
     last_ip_denied := None; domains_denied := None |}.

(** A world like [demo_world] in which both files exist and the process
    may write them but not read them. *)
Definition write_only_world : world :=
  {| last_ip_txt := Content "203.0.113.5"; domains_json := Content [];
     network := demo_network "203.0.113.5" ok_write; trace := [];
     last_ip_denied := Some "EACCES: permission denied, open 'last_ip.txt'";
     domains_denied := Some "EACCES: permission denied, open 'domains.json'" |}.

(** The address 203.0.113.5 as a text editor may have saved it: after a
    byte order mark (U+FEFF) and before a line feed. *)
Definition with_bom_and_newline : string :=
  String "239" (String "187" (String "191" "203.0.113.5
")).

Definition home : Domain := mkDomain "example.com" "home.example.com".
Definition fresh : Domain := mkDomain "example.com" "new.example.com".
Definition stray : Domain := mkDomain "nowhere.test" "a.nowhere.test".

(** A world like [demo_world] whose provider rejects every update call. *)
Definition refusing_world (last : file string) (addr : string) : world :=
  {| last_ip_txt := last; domains_json := Missing;
     network := demo_network addr (Rejected "Request failed with status code 500");
     trace := []; last_ip_denied := None; domains_denied := None |}.

(** A world like [demo_world] in which the record lookup for
    [home.example.com] is rejected. *)
Definition flaky_world (last : file string) (addr : string) : world :=
  {| last_ip_txt := last; domains_json := Missing;
     network := fun tr rq =>
       match rq with
       | GET_dns_records _ name =>
           if name =? "home.example.com"
           then Rejected "timeout of 1000ms exceeded"
           else demo_network addr ok_write tr rq
       | _ => demo_network addr ok_write tr rq
       end;
     trace := []; last_ip_denied := None; domains_denied := None |}.

(** A process managing [home.example.com] on its first run, with the
    handler blocks [sched] arriving during the pass. *)
Definition racing_config (sched : list (list Interleaving.block))
    : Interleaving.config :=
  {| Interleaving.arrays := [[home]];
     Interleaving.domains_ref := 0;
     Interleaving.wld := demo_world Missing "203.0.113.5";
     Interleaving.pending := sched |}.

(** ** Vocabulary of the further properties *)

(** A provider call that concerns a domain of [ds] and, when it creates or
    updates a record, carries the address [addr]. *)
Definition call_about (addr : string) (ds : list Domain) (e : event) : Prop :=
  match e with
  | Http (GET_zones z) _ => exists d, In d ds /\ zone d = z
  | Http (GET_dns_records _ name) _ => exists d, In d ds /\ record d = name
  | Http (POST_dns_records _ name content) _ =>
      content = addr /\ exists d, In d ds /\ record d = name
  | Http (PUT_dns_records _ _ name content) _ =>
      content = addr /\ exists d, In d ds /\ record d = name
  | _ => True
  end.

Definition is_create (e : event) : bool :=
  match e with
  | Http (POST_dns_records _ _ _) _ => true
  | _ => false
  end.

(** What the getters of a [Date] return. *)
Definition date_in_range (now : Date) : Prop :=
  getMonth now <= 11 /\ getDate now <= 31 /\
  getHours now <= 23 /\ getMinutes now <= 59.

(** [domains.json] holds the array [domains]; or it cannot be read and
    [domains] is empty, as after a start on such a file. *)
Definition persisted (s : state) : Prop :=
  domains_json (env s) = Content (domains s) \/
  (domains s = [] /\ exists err, domains_json (env s) = Unreadable err).

(** What the process writes into [last_ip.txt] it can read back: the file
    does not exist yet, or the process may read it. *)
Definition reads_back (w : world) : Prop :=
  last_ip_txt w = Missing \/ last_ip_denied w = None.

(** [last_ip.txt] exists and the process may write it but not read it. *)
Definition write_only (w : world) : Prop :=
  last_ip_txt w <> Missing /\ last_ip_denied w <> None.

(** The permission of [domains.json] is kept from [w] to [w'], unless the
    file was created in between. *)
Definition keeps_permission (w w' : world) : Prop :=
  (domains_denied w = None -> domains_denied w' = None) /\
  (domains_json w <> Missing ->
   domains_json w' <> Missing /\ domains_denied w' = domains_denied w).

(** The files after a run agree with the writes in its trace: the only
    write is one of [last_ip.txt], with the address resolved in [w]. *)
Definition writes_only_the_address (w w' : world) : Prop :=
  domains_json w' = domains_json w /\
  (forall e, In e (new_events w w') -> is_write e = true ->
     exists addr,
       e = WriteLastIP addr /\ fst (getPublicIP w) = Some addr /\
       last_ip_txt w' = Content addr) /\
  (filter is_write (new_events w w') = [] -> last_ip_txt w' = last_ip_txt w).

(** In the interleaved model: [domains] is bound to an allocated array
    that lists no pair twice. *)
Definition live_no_duplicates (c : Interleaving.config) : Prop :=
  Interleaving.domains_ref c < length (Interleaving.arrays c) /\
  NoDup (domains (Interleaving.view c)).

(** ** Basic facts *)

Lemma add_events_nil (w : world) : add_events w [] = w.
Proof. destruct w; unfold add_events; simpl; now rewrite app_nil_r. Qed.

Lemma add_events_app (w : world) (a b : list event) :
  add_events (add_events w a) b = add_events w (a ++ b).
Proof. unfold add_events; simpl; now rewrite app_assoc. Qed.

Lemma new_events_add (w : world) (evs : list event) :
  new_events w (add_events w evs) = evs.
Proof.
  unfold new_events, add_events; simpl.
  rewrite skipn_app, skipn_all, Nat.sub_diag; reflexivity.
Qed.

Lemma provider_calls_app (a b : list event) :
  provider_calls (a ++ b) = provider_calls a ++ provider_calls b.
Proof. apply filter_app. Qed.

Lemma provider_calls_reports (l : list event) :
  forallb is_report l = true -> provider_calls l = [].
Proof.
  induction l as [|e l IH]; simpl; [reflexivity|].
  intros H; apply andb_prop in H as [He Hl].
  destruct e as [| | |[]|]; try discriminate; simpl; auto.
Qed.

Lemma zones_requested_app (a b : list event) :
  zones_requested (a ++ b) = zones_requested a ++ zones_requested b.
Proof.
  induction a as [|e a IH]; simpl; [reflexivity|].
  destruct e as [[] ?| | | |]; simpl; now rewrite ?IH.
Qed.

Lemma zones_requested_reports (l : list event) :
  forallb is_report l = true -> zones_requested l = [].
Proof.
  induction l as [|e l IH]; simpl; [reflexivity|].
  intros H; apply andb_prop in H as [He Hl].
  destruct e as [| | |[]|]; try discriminate; simpl; auto.
Qed.

Lemma writes_reports (l : list event) :
  forallb is_report l = true -> filter is_write l = [].
Proof.
  induction l as [|e l IH]; simpl; [reflexivity|].
  intros H; apply andb_prop in H as [He Hl].
  destruct e as [| | |[]|]; try discriminate; simpl; auto.
Qed.

Lemma when_truthy_found {A : Type} (rs : axios_result) (no : A)
    (yes : string -> A) :
  when_truthy (first_id rs) no yes =
  match found rs with Some id => yes id | None => no end.
Proof.
  unfold found, when_truthy.
  destruct (first_id rs) as [s|]; [|reflexivity].
  destruct (s =? ""); reflexivity.
Qed.

Lemma when_truthy_some {A : Type} (s : string) (no : A) (yes : string -> A) :
  s <> "" -> when_truthy (Some s) no yes = yes s.
Proof.
  intros H; unfold when_truthy.
  destruct (String.eqb_spec s ""); [contradiction|reflexivity].
Qed.

Lemma when_truthy_falsy {A : Type} (v : option string) (no : A)
    (yes : string -> A) :
  truthy v = false -> when_truthy v no yes = no.
Proof.
  unfold truthy, when_truthy.
  destruct v as [s|]; [|reflexivity].
  destruct (s =? ""); [reflexivity|discriminate].
Qed.

Lemma strict_eq_true (a : string) (b : option string) :
  strict_eq a b = true <-> b = Some a.
Proof.
  unfold strict_eq; destruct b as [s|].
  - rewrite String.eqb_eq; split; [intros ->; reflexivity|congruence].
  - split; discriminate.
Qed.

(** [trim] on white space beyond ASCII: U+FEFF and U+00A0 go, at both
    ends; U+200B, which is no white space, stays. *)
Example trim_unicode_white_space :
  trim with_bom_and_newline = "203.0.113.5" /\
  trim (String "194" (String "160" ("a b" ++ String "194" (String "160" ""))))
    = "a b" /\
  trim (String "226" (String "128" (String "139" "a")))
    = String "226" (String "128" (String "139" "a")).
Proof. repeat split. Qed.

(** ** What each helper does to the world *)

Ltac list_norm :=
  repeat (rewrite <- app_assoc || rewrite <- app_comm_cons); reflexivity.

Ltac io_unfold :=
  unfold bind, ret, log, errorLog, axios, emit, add_events; simpl.

Lemma getPublicIP_spec (w : world) :
  let rs := network w (trace w) GET_ipify in
  exists logs,
    getPublicIP w =
      (match rs with Fulfilled d => ip d | Rejected _ => None end,
       add_events w (Http GET_ipify rs :: logs)) /\
    forallb is_report logs = true.
Proof.
  intros rs; unfold getPublicIP; io_unfold; fold rs.
  destruct rs as [err|d]; simpl.
  - exists [ErrorLog (MsgGetPublicIPFailed err)]; split; [|reflexivity].
    now rewrite <- app_assoc.
  - exists []; split; reflexivity.
Qed.

Lemma getZoneID_spec (z : string) (w : world) :
  let rs := network w (trace w) (GET_zones z) in
  exists logs,
    getZoneID z w = (first_id rs, add_events w (Http (GET_zones z) rs :: logs)) /\
    forallb is_report logs = true.
Proof.
  intros rs; unfold getZoneID; io_unfold; fold rs.
  destruct rs as [err|d]; simpl.
  - eexists [_]; split; [now rewrite <- app_assoc|reflexivity].
  - destruct (success d); [destruct (result d) as [[|id ids]|]|]; simpl.
    + eexists [_]; split; [now rewrite <- app_assoc|reflexivity].
    + exists []; split; reflexivity.
    + eexists [_]; split; [now rewrite <- app_assoc|reflexivity].
    + eexists [_]; split; [now rewrite <- app_assoc|reflexivity].
Qed.

Lemma index_getDNSRecordID_spec (zid name : string) (w : world) :
  let rs := network w (trace w) (GET_dns_records zid name) in
  exists logs,
    IndexJs.getDNSRecordID zid name w =
      (first_id rs, add_events w (Http (GET_dns_records zid name) rs :: logs)) /\
    forallb is_report logs = true.
Proof.
  intros rs; unfold IndexJs.getDNSRecordID; io_unfold; fold rs.
  destruct rs as [err|d]; simpl.
  - eexists [_]; split; [now rewrite <- app_assoc|reflexivity].
  - destruct (success d); [destruct (result d) as [[|id ids]|]|]; simpl.
    + eexists [_]; split; [now rewrite <- app_assoc|reflexivity].
    + exists []; split; reflexivity.
    + eexists [_]; split; [now rewrite <- app_assoc|reflexivity].
    + eexists [_]; split; [now rewrite <- app_assoc|reflexivity].
Qed.

Lemma getDNSRecordID_spec (zid name : string) (w : world) :
  let rs := network w (trace w) (GET_dns_records zid name) in
  exists logs,
    Part000.getDNSRecordID zid name w =
      (first_id rs, add_events w (Http (GET_dns_records zid name) rs :: logs)) /\
    forallb is_report logs = true.
Proof.
  intros rs; unfold Part000.getDNSRecordID; io_unfold; fold rs.
  destruct rs as [err|d]; simpl.
  - eexists [_]; split; [now rewrite <- app_assoc|reflexivity].
  - destruct (success d); [destruct (result d) as [[|id ids]|]|]; simpl.
    + exists []; split; reflexivity.
    + exists []; split; reflexivity.
    + eexists [_]; split; [now rewrite <- app_assoc|reflexivity].
    + exists []; split; reflexivity.
Qed.

Lemma updateDNSRecord_spec (zid rid name addr : string) (w : world) :
  let rs := network w (trace w) (PUT_dns_records zid rid name addr) in
  exists logs,
    updateDNSRecord zid rid name addr w =
      (tt, add_events w (Http (PUT_dns_records zid rid name addr) rs :: logs)) /\
    forallb is_report logs = true.
Proof.
  intros rs; unfold updateDNSRecord; io_unfold; fold rs.
  destruct rs as [err|d]; simpl.
  - eexists [_]; split; [now rewrite <- app_assoc|reflexivity].
  - destruct (success d); simpl;
      eexists [_]; (split; [now rewrite <- app_assoc|reflexivity]).
Qed.

Lemma createDNSRecord_spec (zid name addr : string) (w : world) :
  let rs := network w (trace w) (POST_dns_records zid name addr) in
  exists logs,
    Part000.createDNSRecord zid name addr w =
      (tt, add_events w (Http (POST_dns_records zid name addr) rs :: logs)) /\
    forallb is_report logs = true.
Proof.
  intros rs; unfold Part000.createDNSRecord; io_unfold; fold rs.
  destruct rs as [err|d]; simpl.
  - eexists [_]; split; [now rewrite <- app_assoc|reflexivity].
  - destruct (success d); simpl;
      eexists [_]; (split; [now rewrite <- app_assoc|reflexivity]).
Qed.

Lemma getLastIP_spec (w : world) :
  exists logs,
    getLastIP w = (last_known_ip w, add_events w logs) /\
    forallb is_report logs = true.
Proof.
  unfold last_known_ip, getLastIP.
  destruct (read (last_ip_txt w) (last_ip_denied w)) as [|err|c]; io_unfold.
  - exists []; split; [|reflexivity].
    f_equal; symmetry; apply add_events_nil.
  - eexists [_]; split; reflexivity.
  - exists []; split; [|reflexivity].
    f_equal; symmetry; apply add_events_nil.
Qed.

Lemma last_known_ip_add (w : world) (evs : list event) :
  last_known_ip (add_events w evs) = last_known_ip w.
Proof.
  unfold last_known_ip, getLastIP; simpl.
  destruct (read (last_ip_txt w) (last_ip_denied w)); reflexivity.
Qed.

(** [LastKnownIP], read off the file: the content of [last_ip.txt] with
    the white space at both ends removed, when the file is there and the
    process may read it. *)
Lemma last_known_ip_file (w : world) (addr : string) :
  last_known_ip w = Some addr <->
  exists c,
    last_ip_txt w = Content c /\ last_ip_denied w = None /\ trim c = addr.
Proof.
  unfold last_known_ip, getLastIP, read.
  destruct (last_ip_txt w) as [|err|c]; destruct (last_ip_denied w) as [e|];
    simpl; split; try discriminate;
    try (intros (c' & E & D & _); discriminate).
  - intros [= <-]; exists c; auto.
  - intros (c' & [= <-] & _ & <-); reflexivity.
Qed.

Lemma last_known_ip_none (w : world) :
  last_ip_txt w = Missing \/ (exists err, last_ip_txt w = Unreadable err)
  \/ (exists err, last_ip_denied w = Some err) ->
  last_known_ip w = None.
Proof.
  unfold last_known_ip, getLastIP, read.
  intros [->|[(err & ->)|(err & ->)]]; try reflexivity.
  - destruct (last_ip_denied w); reflexivity.
  - destruct (last_ip_txt w); reflexivity.
Qed.

Lemma reports_attempt_events (l : list event) :
  forallb is_report l = true -> forallb is_attempt_event l = true.
Proof.
  induction l as [|e l IH]; simpl; [reflexivity|].
  intros H; apply andb_prop in H as [He Hl].
  unfold is_attempt_event at 1; rewrite He, orb_true_r; simpl; auto.
Qed.

Lemma attempt_events_no_write (l : list event) :
  forallb is_attempt_event l = true -> filter is_write l = [].
Proof.
  induction l as [|e l IH]; simpl; [reflexivity|].
  intros H; apply andb_prop in H as [He Hl].
  destruct e as [[] ?| | |[]|]; try discriminate; simpl; auto.
Qed.


Ltac norm_events :=
  repeat (rewrite ?provider_calls_app, ?zones_requested_app, ?forallb_app;
          simpl);
  repeat match goal with
  | H : forallb is_report ?l = true |- _ =>
      rewrite ?(provider_calls_reports l H), ?(zones_requested_reports l H),
              ?(reports_attempt_events l H); clear H
  end;
  simpl.

Lemma part_000_body_spec (addr : string) :
  attempt_spec (upsert_attempt addr) (Part000.updateDNS_body addr).
Proof.
  intros d w; unfold Part000.updateDNS_body, bind.
  destruct (getZoneID_spec (zone d) w) as (l1 & E1 & L1); rewrite E1.
  rewrite when_truthy_found.
  destruct (found _) as [zid|] eqn:F1.
  - match goal with |- context [Part000.getDNSRecordID zid (record d) ?w1] =>
      destruct (getDNSRecordID_spec zid (record d) w1) as (l2 & E2 & L2)
    end.
    rewrite E2, when_truthy_found.
    destruct (found (network _ _ (GET_dns_records _ _))) as [rid|] eqn:F2.
    + match goal with |- context [updateDNSRecord zid rid (record d) addr ?w2] =>
        destruct (updateDNSRecord_spec zid rid (record d) addr w2)
          as (l3 & E3 & L3)
      end.
      rewrite E3, !add_events_app.
      eexists Updated, _; split; [reflexivity|].
      norm_events; repeat split; eauto using upsert_attempt.
    + match goal with |- context [Part000.createDNSRecord zid (record d) addr ?w2] =>
        destruct (createDNSRecord_spec zid (record d) addr w2)
          as (l3 & E3 & L3)
      end.
      rewrite E3, !add_events_app.
      eexists Created, _; split; [reflexivity|].
      norm_events; repeat split; eauto using upsert_attempt.
  - eexists ZoneUnresolved, _; split; [reflexivity|].
    norm_events; repeat split; eauto using upsert_attempt.
Qed.

Lemma index_js_body_spec (addr : string) :
  attempt_spec (update_attempt addr) (IndexJs.updateDNS_body addr).
Proof.
  intros d w; unfold IndexJs.updateDNS_body, bind.
  destruct (getZoneID_spec (zone d) w) as (l1 & E1 & L1); rewrite E1.
  rewrite when_truthy_found.
  destruct (found _) as [zid|] eqn:F1.
  - match goal with |- context [IndexJs.getDNSRecordID zid (record d) ?w1] =>
      destruct (index_getDNSRecordID_spec zid (record d) w1) as (l2 & E2 & L2)
    end.
    rewrite E2, when_truthy_found.
    destruct (found (network _ _ (GET_dns_records _ _))) as [rid|] eqn:F2.
    + match goal with |- context [updateDNSRecord zid rid (record d) addr ?w2] =>
        destruct (updateDNSRecord_spec zid rid (record d) addr w2)
          as (l3 & E3 & L3)
      end.
      rewrite E3, !add_events_app.
      eexists Updated, _; split; [reflexivity|].
      norm_events; repeat split; eauto using update_attempt.
    + unfold ret; rewrite !add_events_app.
      eexists RecordSkipped, _; split; [reflexivity|].
      norm_events; repeat split; eauto using update_attempt.
  - eexists ZoneUnresolved, _; split; [reflexivity|].
    norm_events; repeat split; eauto using update_attempt.
Qed.

(** The loop runs the attempt of every domain, in order, to its end. *)
Lemma for_of_spec (shape : Domain -> outcome -> list event -> Prop)
    (body : Domain -> IO unit) :
  attempt_spec shape body ->
  forall ds w, exists evs,
    for_of ds body w = (tt, add_events w evs) /\
    attempts_each shape ds (provider_calls evs) /\
    zones_requested evs = map zone ds /\
    forallb is_attempt_event evs = true.
Proof.
  intros Hbody ds; induction ds as [|d ds IH]; intros w; simpl.
  - exists []; unfold ret; rewrite add_events_nil; repeat split.
    exists []; split; [reflexivity|constructor].
  - unfold bind.
    destruct (Hbody d w) as (o & e1 & E1 & S1 & Z1 & A1); rewrite E1.
    destruct (IH (add_events w e1)) as (e2 & E2 & (chunks & C2 & F2) & Z2 & A2).
    rewrite E2, add_events_app.
    exists (e1 ++ e2); split; [reflexivity|].
    rewrite provider_calls_app, zones_requested_app, forallb_app, Z1, Z2, A1, A2.
    repeat split.
    exists (provider_calls e1 :: chunks); split.
    + simpl; now rewrite C2.
    + constructor; eauto.
Qed.

Lemma new_events_trace (w w' : world) (evs : list event) :
  trace w' = trace w ++ evs -> new_events w w' = evs.
Proof.
  unfold new_events; intros ->.
  rewrite skipn_app, skipn_all, Nat.sub_diag; reflexivity.
Qed.

(** ** The timer-triggered pass

    [updateDNS] has the same text in both files but for the loop body, so
    its runs are described once, for any body that meets [attempt_spec]. *)

Section Pass.

Variable shape : string -> Domain -> outcome -> list event -> Prop.
Variable body : string -> Domain -> IO unit.
Hypothesis body_ok : forall addr, attempt_spec (shape addr) (body addr).

Let pass (ds : list Domain) : IO unit :=
  currentIP <- getPublicIP ;;
  when_truthy currentIP (ret tt) (fun currentIP =>
    lastIP <- getLastIP ;;
    if strict_eq currentIP lastIP then log (MsgIPUnchanged currentIP)
    else
      log (MsgIPChanged lastIP currentIP) ;;
      for_of ds (body currentIP) ;;
      saveLastIP currentIP).

Lemma pass_cases (ds : list Domain) (w : world) :
  fst (pass ds w) = tt /\ pass_run shape ds w (snd (pass ds w)).
Proof.
  unfold pass, bind.
  destruct (getPublicIP_spec w) as (l0 & E0 & L0).
  pose proof (f_equal fst E0) as R0; simpl in R0.
  rewrite E0.
  set (rs := network w (trace w) GET_ipify) in *.
  set (v := match rs with Fulfilled d => ip d | Rejected _ => None end) in *.
  destruct (truthy v) eqn:T.
  - (* an address was resolved *)
    assert (exists addr, v = Some addr /\ addr <> "") as (addr & Ev & Ne).
    { unfold truthy, when_truthy in T. destruct v as [s|]; [|discriminate].
      exists s; split; [reflexivity|].
      destruct (String.eqb_spec s ""); [discriminate|assumption]. }
    rewrite Ev, (when_truthy_some addr) by assumption.
    match goal with |- context [getLastIP ?w1] =>
      destruct (getLastIP_spec w1) as (l1 & E1 & L1)
    end.
    rewrite E1; rewrite last_known_ip_add; rewrite !add_events_app.
    destruct (strict_eq addr (last_known_ip w)) eqn:Q.
    + apply strict_eq_true in Q.
      unfold log, emit; simpl; split; [reflexivity|].
      refine (eq_rect _ (pass_run shape ds w)
                (pass_skipped shape ds w addr (l0 ++ l1) _ Ne Q _) _ _).
      * congruence.
      * now rewrite forallb_app, L0, L1.
      * unfold add_events; simpl; f_equal; list_norm.
    + assert (last_known_ip w <> Some addr) as Q'.
      { intros H; apply strict_eq_true in H; congruence. }
      unfold log, emit; simpl.
      match goal with |- context [for_of ds (body addr) ?w2] =>
        destruct (for_of_spec _ _ (body_ok addr) ds w2)
          as (evs & E2 & S2 & Z2 & A2)
      end.
      rewrite E2; unfold saveLastIP, emit; simpl; split; [reflexivity|].
      refine (eq_rect _ (pass_run shape ds w)
                (pass_completed shape ds w addr (l0 ++ l1) evs _ Ne Q' _ S2 Z2 A2)
                _ _).
      * congruence.
      * now rewrite forallb_app, L0, L1.
      * unfold add_events, set_last_ip; simpl; f_equal; list_norm.
  - rewrite when_truthy_falsy by assumption.
    unfold ret; simpl; split; [reflexivity|].
    apply pass_aborted; [now rewrite R0|assumption].
Qed.

End Pass.

Lemma part_000_pass (ds : list Domain) (w : world) :
  pass_run upsert_attempt ds w (snd (Part000.updateDNS ds w)).
Proof. exact (proj2 (pass_cases _ _ part_000_body_spec ds w)). Qed.

Lemma index_js_pass (ds : list Domain) (w : world) :
  pass_run update_attempt ds w (snd (IndexJs.updateDNS ds w)).
Proof. exact (proj2 (pass_cases _ _ index_js_body_spec ds w)). Qed.

(** ** The claims on the timer-triggered pass *)

Lemma truthy_some (s : string) : s <> "" -> truthy (Some s) = true.
Proof. intros H; unfold truthy; now rewrite when_truthy_some. Qed.

Lemma provider_calls_zones (l : list event) :
  provider_calls l = [] -> zones_requested l = [].
Proof.
  induction l as [|e l IH]; simpl; [reflexivity|].
  destruct e as [[] ?| | | |]; simpl; try discriminate; auto.
Qed.

Lemma attempt_events_no_last_ip_write (l : list event) :
  forallb is_attempt_event l = true -> filter is_last_ip_write l = [].
Proof.
  induction l as [|e l IH]; simpl; [reflexivity|].
  intros H; apply andb_prop in H as [He Hl].
  destruct e as [[] ?| | |[]|]; try discriminate; simpl; auto.
Qed.

Lemma reports_no_last_ip_write (l : list event) :
  forallb is_report l = true -> filter is_last_ip_write l = [].
Proof.
  intros H; apply attempt_events_no_last_ip_write.
  now apply reports_attempt_events.
Qed.


Lemma new_events_set (w : world) (addr : string) (evs : list event) :
  new_events w (add_events (set_last_ip addr w) evs) = evs.
Proof. now apply new_events_trace. Qed.

Lemma pass_run_attempts
    (shape : string -> Domain -> outcome -> list event -> Prop)
    (ds : list Domain) (w w' : world) (addr : string) :
  pass_run shape ds w w' ->
  fst (getPublicIP w) = Some addr -> addr <> "" ->
  last_known_ip w <> Some addr ->
  exists logs evs,
    w' = add_events (set_last_ip addr w)
           (Http GET_ipify (network w (trace w) GET_ipify)
              :: logs ++ Log (MsgIPChanged (last_known_ip w) addr)
              :: evs ++ [WriteLastIP addr]) /\
    forallb is_report logs = true /\
    attempts_each (shape addr) ds (provider_calls evs) /\
    zones_requested evs = map zone ds /\
    forallb is_attempt_event evs = true.
Proof.
  intros P H1 H2 H3; destruct P as [logs T L|a logs G N Q L|a logs evs G N Q L S Z A].
  - rewrite H1, truthy_some in T by assumption; discriminate.
  - congruence.
  - assert (a = addr) by congruence; subst a.
    exists logs, evs; repeat split; assumption.
Qed.

Lemma pass_run_calls
    (shape : string -> Domain -> outcome -> list event -> Prop)
    (ds : list Domain) (w w' : world) (addr : string) :
  pass_run shape ds w w' ->
  fst (getPublicIP w) = Some addr -> addr <> "" ->
  last_known_ip w <> Some addr ->
  attempts_each (shape addr) ds (provider_calls (new_events w w')) /\
  zones_requested (new_events w w') = map zone ds /\
  exists pre, new_events w w' = pre ++ [WriteLastIP addr].
Proof.
  intros P H1 H2 H3.
  destruct (pass_run_attempts _ _ _ _ _ P H1 H2 H3)
    as (logs & evs & -> & L & S & Z & A).
  rewrite new_events_set.
  repeat split.
  - norm_events. now rewrite app_nil_r.
  - norm_events. now rewrite app_nil_r.
  - exists (Http GET_ipify (network w (trace w) GET_ipify)
              :: logs ++ Log (MsgIPChanged (last_known_ip w) addr) :: evs).
    list_norm.
Qed.

Lemma pass_run_unchanged
    (shape : string -> Domain -> outcome -> list event -> Prop)
    (ds : list Domain) (w w' : world) (addr : string) :
  pass_run shape ds w w' ->
  fst (getPublicIP w) = Some addr -> addr <> "" ->
  last_known_ip w = Some addr ->
  exists logs,
    w' = add_events w
           (Http GET_ipify (network w (trace w) GET_ipify)
              :: logs ++ [Log (MsgIPUnchanged addr)]) /\
    forallb is_report logs = true.
Proof.
  intros P H1 H2 H3; destruct P as [logs T L|a logs G N Q L|a logs evs G N Q L S Z A].
  - rewrite H1, truthy_some in T by assumption; discriminate.
  - assert (a = addr) by congruence; subst a.
    exists logs; split; [reflexivity|assumption].
  - congruence.
Qed.

Lemma pass_run_no_address
    (shape : string -> Domain -> outcome -> list event -> Prop)
    (ds : list Domain) (w w' : world) :
  pass_run shape ds w w' ->
  truthy (fst (getPublicIP w)) = false ->
  exists logs,
    w' = add_events w (Http GET_ipify (network w (trace w) GET_ipify) :: logs) /\
    forallb is_report logs = true.
Proof.
  intros P H; destruct P as [logs T L|a logs G N Q L|a logs evs G N Q L S Z A].
  - exists logs; split; [reflexivity|assumption].
  - rewrite G, truthy_some in H by assumption; discriminate.
  - rewrite G, truthy_some in H by assumption; discriminate.
Qed.

Lemma last_known_ip_dec (w : world) (addr : string) :
  {last_known_ip w = Some addr} + {last_known_ip w <> Some addr}.
Proof.
  destruct (strict_eq addr (last_known_ip w)) eqn:Q.
  - left; now apply strict_eq_true.
  - right; intros H; apply strict_eq_true in H; congruence.
Qed.

(** C1, as amended.  Whenever a pass goes through the domains (an address
    was resolved and differs from [LastKnownIP]), the provider calls of the
    pass of the service with record creation are one attempt per domain, in
    order, each following the create-or-update policy: when the zone
    identifier resolves, an update of the record found, or the creation of
    a record with that name, with the resolved address.  The pass of
    [index.js] follows the update-only policy: a domain whose record
    identifier is not found gets no further call. *)
Theorem C1_pass_upserts_or_only_updates
    (ds : list Domain) (w : world) (addr : string) :
  fst (getPublicIP w) = Some addr -> addr <> "" ->
  last_known_ip w <> Some addr ->
  attempts_each (upsert_attempt addr) ds
    (provider_calls (emitted (Part000.updateDNS ds) w)) /\
  attempts_each (update_attempt addr) ds
    (provider_calls (emitted (IndexJs.updateDNS ds) w)).
Proof.
  intros H1 H2 H3; split.
  - exact (proj1 (pass_run_calls _ _ _ _ _ (part_000_pass ds w) H1 H2 H3)).
  - exact (proj1 (pass_run_calls _ _ _ _ _ (index_js_pass ds w) H1 H2 H3)).
Qed.

Lemma C1_pass_upserts_or_only_updates_witness :
  attempts_each (upsert_attempt "203.0.113.5") [home; fresh]
    (provider_calls
       (emitted (Part000.updateDNS [home; fresh])
          (demo_world Missing "203.0.113.5"))) /\
  attempts_each (update_attempt "203.0.113.5") [home; fresh]
    (provider_calls
       (emitted (IndexJs.updateDNS [home; fresh])
          (demo_world Missing "203.0.113.5"))).
Proof.
  apply (C1_pass_upserts_or_only_updates [home; fresh]
           (demo_world Missing "203.0.113.5") "203.0.113.5").
  - reflexivity.
  - discriminate.
  - discriminate.
Defined.

(** C1 as stated fails on [index.js]: on a first run, with the one managed
    domain [new.example.com] whose zone resolves and whose record does not
    exist yet, the pass asks for the zone and for the record and stops
    there, so its calls are not a create-or-update attempt. *)
Lemma C1_index_js_leaves_absent_record :
  let w := demo_world Missing "203.0.113.5" in
  let calls := provider_calls (emitted (IndexJs.updateDNS [fresh]) w) in
  fst (getPublicIP w) = Some "203.0.113.5" /\
  last_known_ip w = None /\
  calls = [Http (GET_zones "example.com") (ok_ids ["z1"]);
           Http (GET_dns_records "z1" "new.example.com") (ok_ids [])] /\
  ~ attempts_each (upsert_attempt "203.0.113.5") [fresh] calls.
Proof.
  cbv zeta; split; [reflexivity|]; split; [reflexivity|].
  assert (provider_calls
            (emitted (IndexJs.updateDNS [fresh])
               (demo_world Missing "203.0.113.5")) =
          [Http (GET_zones "example.com") (ok_ids ["z1"]);
           Http (GET_dns_records "z1" "new.example.com") (ok_ids [])]) as E
    by (vm_compute; reflexivity).
  split; [exact E|].
  rewrite E; intros (chunks & C & F).
  inversion F as [|d c ds cs (o & U) F']; subst.
  inversion F'; subst; simpl in C; rewrite app_nil_r in C; subst c.
  inversion U.
Qed.






(** The first-run scenario: one managed domain, no [last_ip.txt]; the pass
    makes one zone lookup, one record lookup and one update, then records
    the address. *)
Example first_run_scenario :
  let w := demo_world Missing "203.0.113.5" in
  let w' := snd (Part000.updateDNS [home] w) in
  provider_calls (new_events w w') =
    [Http (GET_zones "example.com") (ok_ids ["z1"]);
     Http (GET_dns_records "z1" "home.example.com") (ok_ids ["r1"]);
     Http (PUT_dns_records "z1" "r1" "home.example.com" "203.0.113.5") ok_write] /\
  last_ip_txt w' = Content "203.0.113.5".
Proof. split; reflexivity. Qed.

(** The idempotence scenario: the pass that follows a completed pass, with
    the resolver still answering the same address, makes no call. *)
Example second_pass_is_silent :
  let w1 := snd (Part000.updateDNS [home] (demo_world Missing "203.0.113.5")) in
  last_known_ip w1 = Some "203.0.113.5" /\
  provider_calls (emitted (Part000.updateDNS [home]) w1) = [].
Proof. split; reflexivity. Qed.

Lemma last_write_split (l pre post : list event) (x y : event) :
  filter is_last_ip_write l = [] -> is_last_ip_write y = true ->
  l ++ [x] = pre ++ y :: post ->
  pre = l /\ post = [] /\ y = x.
Proof.
  revert pre; induction l as [|e l IH]; intros pre F Y E.
  - destruct pre as [|p pre]; simpl in E.
    + injection E as -> <-; auto.
    + injection E as _ E; destruct pre; discriminate.
  - simpl in F. destruct (is_last_ip_write e) eqn:W; [discriminate|].
    destruct pre as [|p pre]; simpl in E; injection E as E1 E2.
    + subst e; congruence.
    + subst p. destruct (IH pre F Y E2) as (-> & -> & ->); auto.
Qed.

Lemma no_write_no_split (l pre post : list event) (a : string) :
  filter is_last_ip_write l = [] -> l <> pre ++ WriteLastIP a :: post.
Proof.
  intros F ->; rewrite filter_app in F; simpl in F.
  destruct (filter is_last_ip_write pre); discriminate.
Qed.

Lemma written_once_no_write (ds : list Domain) (l : list event) :
  filter is_last_ip_write l = [] -> written_once_at_end ds l.
Proof.
  intros F; split; [rewrite F; simpl; lia|].
  intros pre a post E; now destruct (no_write_no_split _ _ _ _ F E).
Qed.

Lemma written_once_last (ds : list Domain) (l : list event) (a : string) :
  filter is_last_ip_write l = [] -> zones_requested l = map zone ds ->
  written_once_at_end ds (l ++ [WriteLastIP a]).
Proof.
  intros F Z; split.
  - rewrite filter_app, F; simpl; lia.
  - intros pre b post E.
    destruct (last_write_split l pre post (WriteLastIP a) (WriteLastIP b)
                F eq_refl E) as (-> & -> & _); auto.
Qed.

Lemma pass_run_written_once
    (shape : string -> Domain -> outcome -> list event -> Prop)
    (ds : list Domain) (w w' : world) :
  pass_run shape ds w w' -> written_once_at_end ds (new_events w w').
Proof.
  intros [logs T L|a logs G N Q L|a logs evs G N Q L S Z A].
  - rewrite new_events_add; apply written_once_no_write; simpl.
    now apply reports_no_last_ip_write.
  - rewrite new_events_add; apply written_once_no_write; simpl.
    rewrite filter_app, (reports_no_last_ip_write logs L); reflexivity.
  - rewrite new_events_set.
    replace (_ :: _)
      with ((Http GET_ipify (network w (trace w) GET_ipify)
               :: logs ++ Log (MsgIPChanged (last_known_ip w) a) :: evs)
              ++ [WriteLastIP a]) by list_norm.
    apply written_once_last.
    + simpl; rewrite filter_app; simpl.
      now rewrite (reports_no_last_ip_write logs L),
                  (attempt_events_no_last_ip_write evs A).
    + norm_events; assumption.
Qed.

(** ** The add-triggered update *)

Lemma add_run_eq (z r : string) (ds : list Domain) (w : world)
    (res res' : http_response) (w1 w2 : world) :
  add_run z r ds w res w1 -> res = res' -> w1 = w2 -> add_run z r ds w res' w2.
Proof. intros H -> ->; exact H. Qed.

Lemma bind_eq {S A B : Type} (m : ST S A) (k : A -> ST S B) (w w' : S) (a : A) :
  m w = (a, w') -> bind m k w = k a w'.
Proof. unfold bind; intros ->; reflexivity. Qed.

(** The part of an attempt that follows a resolved zone identifier: the
    record lookup, then the update or the creation, before whatever comes
    next ([k]). *)
Lemma upsert_tail_spec (z zid r addr : string) (w : world) :
  exists o evs,
    forallb is_attempt_event evs = true /\
    zones_requested evs = [] /\
    o <> ZoneUnresolved /\
    (forall rs1, found rs1 = Some zid ->
       upsert_attempt addr (mkDomain z r) o
         (Http (GET_zones z) rs1 :: provider_calls evs)) /\
    forall (B : Type) (k : unit -> IO B),
      bind (Part000.getDNSRecordID zid r)
        (fun recordID =>
           bind (when_truthy recordID
                   (Part000.createDNSRecord zid r addr)
                   (fun recordID => updateDNSRecord zid recordID r addr)) k) w
      = k tt (add_events w evs).
Proof.
  destruct (getDNSRecordID_spec zid r w) as (l2 & E2 & L2).
  set (rs2 := network w (trace w) (GET_dns_records zid r)) in *.
  set (w2 := add_events w (Http (GET_dns_records zid r) rs2 :: l2)) in *.
  destruct (found rs2) as [rid|] eqn:F2.
  - destruct (updateDNSRecord_spec zid rid r addr w2) as (l3 & E3 & L3).
    set (rs3 := network w2 (trace w2) (PUT_dns_records zid rid r addr)) in *.
    exists Updated,
      (Http (GET_dns_records zid r) rs2 :: l2
         ++ Http (PUT_dns_records zid rid r addr) rs3 :: l3).
    split; [norm_events; reflexivity|].
    split; [norm_events; reflexivity|].
    split; [discriminate|].
    split.
    + intros rs1 F1; norm_events.
      now apply (upsert_update addr (mkDomain z r)).
    + intros B k. rewrite (bind_eq _ _ _ _ _ E2); cbv beta.
      rewrite when_truthy_found, F2.
      rewrite (bind_eq _ _ _ _ _ E3); unfold w2; rewrite add_events_app.
      reflexivity.
  - destruct (createDNSRecord_spec zid r addr w2) as (l3 & E3 & L3).
    set (rs3 := network w2 (trace w2) (POST_dns_records zid r addr)) in *.
    exists Created,
      (Http (GET_dns_records zid r) rs2 :: l2
         ++ Http (POST_dns_records zid r addr) rs3 :: l3).
    split; [norm_events; reflexivity|].
    split; [norm_events; reflexivity|].
    split; [discriminate|].
    split.
    + intros rs1 F1; norm_events.
      now apply (upsert_create addr (mkDomain z r)).
    + intros B k. rewrite (bind_eq _ _ _ _ _ E2); cbv beta.
      rewrite when_truthy_found, F2.
      rewrite (bind_eq _ _ _ _ _ E3); unfold w2; rewrite add_events_app.
      reflexivity.
Qed.

Lemma truthy_cases (v : option string) :
  {addr | v = Some addr /\ addr <> ""} + {truthy v = false}.
Proof.
  destruct v as [s|]; [|right; reflexivity].
  destruct (String.eqb_spec s "") as [->|N].
  - right; reflexivity.
  - left; exists s; split; [reflexivity|assumption].
Qed.

Lemma strict_eq_false (a : string) (b : option string) :
  b <> Some a -> strict_eq a b = false.
Proof.
  intros H; destruct (strict_eq a b) eqn:Q; [|reflexivity].
  apply strict_eq_true in Q; contradiction.
Qed.

Lemma post_domains_update_cases (z r : string) (ds : list Domain) (w : world) :
  add_run z r ds w (fst (Part000.post_domains_update z r ds w))
                   (snd (Part000.post_domains_update z r ds w)).
Proof.
  unfold Part000.post_domains_update, Part000.post_domains_try.
  destruct (getPublicIP_spec w) as (l0 & E0 & L0).
  pose proof (f_equal fst E0) as R0; simpl in R0.
  set (rs := network w (trace w) GET_ipify) in *.
  set (v := match rs with Fulfilled d => ip d | Rejected _ => None end) in *.
  set (w1 := add_events w (Http GET_ipify rs :: l0)) in *.
  rewrite (bind_eq _ _ _ _ _ E0); cbv beta.
  destruct (truthy_cases v) as [(addr & Ev & Ne)|T].
  - assert (fst (getPublicIP w) = Some addr) as G by congruence.
    rewrite Ev, (when_truthy_some addr) by assumption.
    destruct (getZoneID_spec z w1) as (l1 & E1 & L1).
    set (rs1 := network w1 (trace w1) (GET_zones z)) in *.
    set (w2 := add_events w1 (Http (GET_zones z) rs1 :: l1)) in *.
    rewrite (bind_eq _ _ _ _ _ E1); cbv beta.
    rewrite when_truthy_found.
    destruct (found rs1) as [zid|] eqn:F1.
    + destruct (upsert_tail_spec z zid r addr w2)
        as (o & evs & A & Z & O & U & K).
      rewrite K.
      destruct (getLastIP_spec (add_events w2 evs)) as (l4 & E4 & L4).
      rewrite (bind_eq _ _ _ _ _ E4); cbv beta.
      unfold w2, w1 in *; rewrite !last_known_ip_add, !add_events_app.
      destruct (last_known_ip_dec w addr) as [Q|Q].
      * rewrite (proj2 (strict_eq_true addr _) Q); simpl.
        refine (add_run_eq _ _ _ _ _ _ _ _
                  (add_done_unchanged z r ds w addr l0
                     (Http (GET_zones z) rs1 :: l1 ++ evs) o l4
                     G Ne L0 _ O _ L4 Q) eq_refl _).
        -- norm_events; now apply U.
        -- norm_events; assumption.
        -- unfold ret, add_events; simpl; f_equal; list_norm.
      * rewrite (strict_eq_false _ _ Q); simpl.
        refine (add_run_eq _ _ _ _ _ _ _ _
                  (add_done_written z r ds w addr l0
                     (Http (GET_zones z) rs1 :: l1 ++ evs) o l4
                     G Ne L0 _ O _ L4 Q) eq_refl _).
        -- norm_events; now apply U.
        -- norm_events; assumption.
        -- unfold saveLastIP, emit, ret, add_events, set_last_ip; simpl;
             f_equal; list_norm.
    + unfold ret, w2, w1; simpl; rewrite add_events_app.
      refine (add_run_eq _ _ _ _ _ _ _ _
                (add_no_zone z r ds w addr l0 (Http (GET_zones z) rs1 :: l1)
                   G Ne L0 _ _) eq_refl _).
      * norm_events; now apply (upsert_no_zone addr (mkDomain z r)).
      * norm_events; reflexivity.
      * unfold add_events; simpl; f_equal; list_norm.
  - rewrite when_truthy_falsy by assumption.
    unfold ret; simpl.
    apply add_no_address; [now rewrite R0|assumption].
Qed.

Lemma zones_requested_provider_calls (l : list event) :
  zones_requested (provider_calls l) = zones_requested l.
Proof.
  induction l as [|e l IH]; simpl; [reflexivity|].
  destruct e as [[] ?| | | |]; simpl; now rewrite ?IH.
Qed.

Lemma upsert_attempt_zones (addr : string) (d : Domain) (o : outcome)
    (calls : list event) :
  upsert_attempt addr d o calls -> zones_requested calls = [zone d].
Proof. intros []; reflexivity. Qed.

Lemma add_run_written_once (z r : string) (ds : list Domain) (w w' : world)
    (res : http_response) :
  add_run z r ds w res w' ->
  written_once_at_end [mkDomain z r] (new_events w w').
Proof.
  intros [logs T L|addr logs evs G N L U A|addr logs evs o logs' G N L U O A L' Q
         |addr logs evs o logs' G N L U O A L' Q].
  - rewrite new_events_add; apply written_once_no_write; simpl.
    now apply reports_no_last_ip_write.
  - rewrite new_events_add; apply written_once_no_write; simpl.
    now rewrite filter_app, (reports_no_last_ip_write logs L),
                (attempt_events_no_last_ip_write evs A).
  - rewrite new_events_add; apply written_once_no_write; simpl.
    now rewrite !filter_app, (reports_no_last_ip_write logs L),
                (attempt_events_no_last_ip_write evs A),
                (reports_no_last_ip_write logs' L').
  - rewrite new_events_set.
    replace (_ :: _)
      with ((Http GET_ipify (network w (trace w) GET_ipify)
               :: logs ++ evs ++ logs') ++ [WriteLastIP addr]) by list_norm.
    apply written_once_last.
    + simpl.
      now rewrite !filter_app, (reports_no_last_ip_write logs L),
                  (attempt_events_no_last_ip_write evs A),
                  (reports_no_last_ip_write logs' L').
    + apply upsert_attempt_zones in U.
      rewrite zones_requested_provider_calls in U.
      norm_events; rewrite U; reflexivity.
Qed.

(** C3.  Among the events of a pass, [LastKnownIP] is written at most
    once, and a write is the last event of the pass: nothing follows it,
    and before it the zone of every domain of the array has been asked for,
    whatever the provider answered.  This holds for [updateDNS] in both
    files, and for the immediate update of [POST /domains], whose array is
    the one domain just added. *)
Theorem C3_last_ip_written_once_after_the_loop
    (ds : list Domain) (w : world) (z r : string) :
  written_once_at_end ds (emitted (Part000.updateDNS ds) w) /\
  written_once_at_end ds (emitted (IndexJs.updateDNS ds) w) /\
  written_once_at_end [mkDomain z r]
    (emitted (Part000.post_domains_update z r ds) w).
Proof.
  unfold emitted; split; [|split].
  - apply (pass_run_written_once _ _ _ _ (part_000_pass ds w)).
  - apply (pass_run_written_once _ _ _ _ (index_js_pass ds w)).
  - apply (add_run_written_once _ _ _ _ _ _ (post_domains_update_cases z r ds w)).
Qed.

(** C4.  When the resolution of the public address fails (the request is
    rejected, or the answer carries no usable [ip]), the timer-triggered
    pass ends at once: [domains], [last_ip.txt] and [domains.json] are as
    before, no file is written, and no call is made to the DNS provider;
    the only events are the request to the resolver and error lines.  The
    immediate update of [POST /domains] ends in the same way, with the
    reply 500. *)
Theorem C4_failed_resolution_changes_nothing
    (s : state) (z r : string) (ds : list Domain) :
  truthy (fst (getPublicIP (env s))) = false ->
  let s' := Part000.tick s in
  let evs := new_events (env s) (env s') in
  let res := fst (Part000.post_domains_update z r ds (env s)) in
  let w' := snd (Part000.post_domains_update z r ds (env s)) in
  (domains s' = domains s /\
   last_ip_txt (env s') = last_ip_txt (env s) /\
   domains_json (env s') = domains_json (env s) /\
   provider_calls evs = [] /\
   zones_requested evs = [] /\
   filter is_write evs = [] /\
   exists logs,
     evs = Http GET_ipify (network (env s) (trace (env s)) GET_ipify) :: logs /\
     forallb is_report logs = true) /\
  (res = mkResponse 500 (JMessage TxtNoPublicIP) /\
   last_ip_txt w' = last_ip_txt (env s) /\
   domains_json w' = domains_json (env s) /\
   provider_calls (new_events (env s) w') = [] /\
   filter is_write (new_events (env s) w') = []).
Proof.
  intros T; cbv zeta; split.
  - unfold Part000.tick, run; simpl.
    destruct (pass_run_no_address _ _ _ _ (part_000_pass (domains s) (env s)) T)
      as (logs & -> & L).
    rewrite new_events_add; simpl.
    rewrite (writes_reports logs L).
    repeat split; try (norm_events; reflexivity).
    exists logs; split; [reflexivity|assumption].
  - destruct (post_domains_update_cases z r ds (env s))
      as [logs _ L|a logs evs G N|a logs evs o logs' G N|a logs evs o logs' G N];
      try (rewrite G, truthy_some in T by assumption; discriminate).
    rewrite new_events_add; simpl.
    rewrite (writes_reports logs L).
    repeat split; norm_events; reflexivity.
Qed.

Lemma C4_failed_resolution_changes_nothing_witness :
  let s := {| domains := [home; stray]; env := offline_world |} in
  let s' := Part000.tick s in
  domains s' = domains s /\
  last_ip_txt (env s') = last_ip_txt (env s) /\
  domains_json (env s') = domains_json (env s) /\
  provider_calls (new_events (env s) (env s')) = [].
Proof.
  cbv zeta.
  pose proof (C4_failed_resolution_changes_nothing
                {| domains := [home; stray]; env := offline_world |}
                "example.com" "new.example.com" [home; stray; fresh] eq_refl)
    as H.
  cbv zeta in H; tauto.
Defined.

(** C5.  The claim fails when the failing call is the record lookup.
    Three domains are managed: the zone of the first is unknown to the
    provider, the record lookup for the second is rejected, the third is in
    order.  The first is skipped after its zone lookup, and the third is
    attempted in the same pass, as the claim says.  But the second is not
    skipped: its failed lookup is logged as a failure, and the pass goes on
    to send a creation request for it, as if the record were absent (it
    exists, under the identifier [r1]).  On the same failure the pass of
    [index.js] skips the domain. *)
Theorem C5_failed_record_lookup_is_followed_by_a_creation :
  let w := flaky_world (Content "198.51.100.7") "203.0.113.5" in
  let timeout := Rejected "timeout of 1000ms exceeded" in
  let evs := emitted (Part000.updateDNS [stray; home; fresh]) w in
  provider_calls evs =
    [Http (GET_zones "nowhere.test") (ok_ids []);
     Http (GET_zones "example.com") (ok_ids ["z1"]);
     Http (GET_dns_records "z1" "home.example.com") timeout;
     Http (POST_dns_records "z1" "home.example.com" "203.0.113.5") ok_write;
     Http (GET_zones "example.com") (ok_ids ["z1"]);
     Http (GET_dns_records "z1" "new.example.com") (ok_ids []);
     Http (POST_dns_records "z1" "new.example.com" "203.0.113.5") ok_write] /\
  In (ErrorLog (MsgGetRecordIDFailed "home.example.com"
                  "timeout of 1000ms exceeded")) evs /\
  In (Log (MsgCreated "home.example.com" "203.0.113.5")) evs /\
  provider_calls (emitted (IndexJs.updateDNS [stray; home; fresh]) w) =
    [Http (GET_zones "nowhere.test") (ok_ids []);
     Http (GET_zones "example.com") (ok_ids ["z1"]);
     Http (GET_dns_records "z1" "home.example.com") timeout;
     Http (GET_zones "example.com") (ok_ids ["z1"]);
     Http (GET_dns_records "z1" "new.example.com") (ok_ids [])].
Proof.
  cbv zeta; split; [vm_compute; reflexivity|].
  split; [|split; [|vm_compute; reflexivity]];
    vm_compute; repeat (first [left; reflexivity | right]).
Qed.

Example isolation_scenario :
  provider_calls
    (emitted (Part000.updateDNS [stray; home])
       (demo_world (Content "198.51.100.7") "203.0.113.5")) =
  [Http (GET_zones "nowhere.test") (ok_ids []);
   Http (GET_zones "example.com") (ok_ids ["z1"]);
   Http (GET_dns_records "z1" "home.example.com") (ok_ids ["r1"]);
   Http (PUT_dns_records "z1" "r1" "home.example.com" "203.0.113.5") ok_write].
Proof. reflexivity. Qed.

Lemma no_last_ip_write_in (l : list event) (a : string) :
  filter is_last_ip_write l = [] -> ~ In (WriteLastIP a) l.
Proof.
  intros F I; apply in_split in I as (pre & post & ->).
  now apply (no_write_no_split _ pre post a F).
Qed.

(** The immediate update, in terms of what [getLastIP] returns. *)
Lemma add_update_cases
    (z r : string) (ds : list Domain) (w : world) (addr : string) :
  fst (getPublicIP w) = Some addr -> addr <> "" ->
  let res := fst (Part000.post_domains_update z r ds w) in
  let evs := emitted (Part000.post_domains_update z r ds) w in
  (exists o,
     upsert_attempt addr (mkDomain z r) o (provider_calls evs) /\
     (status res = 201 <-> o <> ZoneUnresolved)) /\
  (forall a,
     In (WriteLastIP a) evs <->
     a = addr /\ status res = 201 /\ last_known_ip w <> Some addr).
Proof.
  intros H1 H2; cbv zeta; unfold emitted.
  destruct (post_domains_update_cases z r ds w)
    as [logs T L|a0 logs evs G N L U A|a0 logs evs o logs' G N L U O A L' Q
       |a0 logs evs o logs' G N L U O A L' Q].
  - rewrite H1, truthy_some in T by assumption; discriminate.
  - assert (a0 = addr) by congruence; subst a0.
    rewrite new_events_add; split.
    + exists ZoneUnresolved; split.
      * norm_events; assumption.
      * simpl; split; [discriminate|congruence].
    + intros a; split.
      * intros I; exfalso; revert I; apply no_last_ip_write_in; simpl.
        now rewrite filter_app, (reports_no_last_ip_write logs L),
                    (attempt_events_no_last_ip_write evs A).
      * simpl; intros (_ & X & _); discriminate.
  - assert (a0 = addr) by congruence; subst a0.
    rewrite new_events_add; split.
    + exists o; split.
      * norm_events; now rewrite app_nil_r.
      * simpl; tauto.
    + intros a; split.
      * intros I; exfalso; revert I; apply no_last_ip_write_in; simpl.
        now rewrite !filter_app, (reports_no_last_ip_write logs L),
                    (attempt_events_no_last_ip_write evs A),
                    (reports_no_last_ip_write logs' L').
      * intros (_ & _ & X); contradiction.
  - assert (a0 = addr) by congruence; subst a0.
    rewrite new_events_set; split.
    + exists o; split.
      * norm_events; now rewrite app_nil_r.
      * simpl; tauto.
    + intros a; split.
      * intros I.
        replace (_ :: _)
          with ((Http GET_ipify (network w (trace w) GET_ipify)
                   :: logs ++ evs ++ logs') ++ [WriteLastIP addr])
          in I by list_norm.
        apply in_app_or in I as [I|[I|[]]].
        -- exfalso; revert I; apply no_last_ip_write_in; simpl.
           now rewrite !filter_app, (reports_no_last_ip_write logs L),
                       (attempt_events_no_last_ip_write evs A),
                       (reports_no_last_ip_write logs' L').
        -- injection I as <-; repeat split; assumption.
      * intros (-> & _ & _).
        right; apply in_or_app; right; apply in_or_app; right;
          apply in_or_app; right; now left.
Qed.

Lemma add_run_last_ip (z r : string) (ds : list Domain) (w w' : world)
    (res : http_response) (addr : string) :
  add_run z r ds w res w' ->
  fst (getPublicIP w) = Some addr ->
  (status res = 201 /\ last_known_ip w <> Some addr /\
   last_ip_txt w' = Content addr) \/
  ((status res <> 201 \/ last_known_ip w = Some addr) /\
   last_ip_txt w' = last_ip_txt w).
Proof.
  intros [logs T L|a logs evs G N L U A|a logs evs o logs' G N L U O A L' Q
         |a logs evs o logs' G N L U O A L' Q] H1.
  - right; split; [left; discriminate|reflexivity].
  - right; split; [left; discriminate|reflexivity].
  - right; split; [right; congruence|reflexivity].
  - left; assert (a = addr) by congruence; subst a.
    split; [reflexivity|split; [assumption|reflexivity]].
Qed.

(** C6.  In the immediate update of [POST /domains], once an address is
    resolved, the provider calls are one create-or-update attempt for the
    domain just added, whatever [last_ip.txt] holds: no comparison with it
    comes before.  The reply is 201 exactly when the zone identifier
    resolved, that is when the update or creation call was made.
    [last_ip.txt] is written only with the resolved address, and exactly
    when the reply is 201 and the address differs from [LastKnownIP], the
    content of the file without the white space at its ends, in a file the
    process may read; the file then holds the address, and in every other
    case it is as it was. *)
Theorem C6_add_upserts_whatever_last_ip
    (z r : string) (ds : list Domain) (w : world) (addr : string) :
  fst (getPublicIP w) = Some addr -> addr <> "" ->
  let res := fst (Part000.post_domains_update z r ds w) in
  let w' := snd (Part000.post_domains_update z r ds w) in
  let evs := emitted (Part000.post_domains_update z r ds) w in
  let unchanged :=
    exists c,
      last_ip_txt w = Content c /\ last_ip_denied w = None /\ trim c = addr in
  (exists o,
     upsert_attempt addr (mkDomain z r) o (provider_calls evs) /\
     (status res = 201 <-> o <> ZoneUnresolved)) /\
  (forall a,
     In (WriteLastIP a) evs <->
     a = addr /\ status res = 201 /\ ~ unchanged) /\
  (status res = 201 -> ~ unchanged -> last_ip_txt w' = Content addr) /\
  (status res <> 201 \/ unchanged -> last_ip_txt w' = last_ip_txt w).
Proof.
  intros H1 H2; cbv zeta.
  destruct (add_update_cases z r ds w addr H1 H2) as (A & B).
  cbv zeta in A, B.
  pose proof (last_known_ip_file w addr) as F.
  pose proof (add_run_last_ip _ _ _ _ _ _ addr
                (post_domains_update_cases z r ds w) H1) as K.
  split; [exact A|].
  split; [intros a; rewrite (B a), F; reflexivity|].
  split.
  - intros S U; destruct K as [(_ & _ & E)|([N|Q] & _)];
      [exact E|contradiction|].
    destruct U; now apply F.
  - intros [N|U]; destruct K as [(S & Q & _)|(_ & E)];
      [contradiction|exact E| |exact E].
    destruct Q; now apply F.
Qed.

(** An add while [last_ip.txt] holds the current address: the new record
    is created all the same, and nothing is written.  The same add when the
    file holds another address: the address is recorded. *)
Lemma C6_add_upserts_whatever_last_ip_witness :
  let add := Part000.post_domains_update "example.com" "new.example.com"
               [fresh] in
  let w := demo_world (Content "203.0.113.5") "203.0.113.5" in
  let w2 := demo_world (Content "198.51.100.7") "203.0.113.5" in
  (exists o,
     upsert_attempt "203.0.113.5" fresh o (provider_calls (emitted add w)) /\
     (status (fst (add w)) = 201 <-> o <> ZoneUnresolved)) /\
  last_ip_txt (snd (add w)) = last_ip_txt w /\
  last_ip_txt (snd (add w2)) = Content "203.0.113.5".
Proof.
  cbv zeta; split; [|split].
  - destruct (C6_add_upserts_whatever_last_ip "example.com" "new.example.com"
                [fresh] (demo_world (Content "203.0.113.5") "203.0.113.5")
                "203.0.113.5") as (H & _); [reflexivity|discriminate|].
    exact H.
  - destruct (C6_add_upserts_whatever_last_ip "example.com" "new.example.com"
                [fresh] (demo_world (Content "203.0.113.5") "203.0.113.5")
                "203.0.113.5") as (_ & _ & _ & H); [reflexivity|discriminate|].
    apply H; right; eexists; repeat split; reflexivity.
  - destruct (C6_add_upserts_whatever_last_ip "example.com" "new.example.com"
                [fresh] (demo_world (Content "198.51.100.7") "203.0.113.5")
                "203.0.113.5") as (_ & _ & H & _); [reflexivity|discriminate|].
    apply H; [reflexivity|].
    intros (c & [= <-] & _ & E); vm_compute in E; discriminate E.
Defined.

Example add_with_unchanged_address :
  let w := demo_world (Content "203.0.113.5") "203.0.113.5" in
  provider_calls
    (emitted (Part000.post_domains_update "example.com" "new.example.com"
                [fresh]) w) =
  [Http (GET_zones "example.com") (ok_ids ["z1"]);
   Http (GET_dns_records "z1" "new.example.com") (ok_ids []);
   Http (POST_dns_records "z1" "new.example.com" "203.0.113.5") ok_write] /\
  filter is_write
    (emitted (Part000.post_domains_update "example.com" "new.example.com"
                [fresh]) w) = [].
Proof. split; reflexivity. Qed.

(** ** The claims on [POST /domains] *)

Lemma post_domains_accepted (z r : string) (s : state) :
  z <> "" -> r <> "" -> existsb (same_domain z r) (domains s) = false ->
  let ds := domains s ++ [mkDomain z r] in
  let w1 := after_add z r ds (env s) in
  Part000.post_domains (Some z) (Some r) s =
    (fst (Part000.post_domains_update z r ds w1),
     {| domains := ds; env := snd (Part000.post_domains_update z r ds w1) |}).
Proof.
  intros Hz Hr Hd; cbv zeta; unfold Part000.post_domains, Part000.post_domains_on.
  rewrite !when_truthy_some by assumption; rewrite Hd.
  unfold bind, saveDomains, log, emit, after_add, add_events, set_domains_json;
    simpl.
  rewrite <- app_assoc; simpl.
  unfold Part000.post_domains_update.
  destruct (Part000.post_domains_try _ _ _ _ _); reflexivity.
Qed.

Lemma index_post_domains_accepted (z r : string) (s : state) :
  z <> "" -> r <> "" -> existsb (same_domain z r) (domains s) = false ->
  let ds := domains s ++ [mkDomain z r] in
  IndexJs.post_domains (Some z) (Some r) s =
    (mkResponse 201 (JMessageDomains TxtAdded ds),
     {| domains := ds; env := after_add z r ds (env s) |}).
Proof.
  intros Hz Hr Hd; cbv zeta; unfold IndexJs.post_domains.
  rewrite !when_truthy_some by assumption; rewrite Hd.
  unfold bind, saveDomains, log, emit, after_add, add_events, set_domains_json;
    simpl.
  now rewrite <- app_assoc.
Qed.

Lemma add_run_frame (z r : string) (ds : list Domain) (w w' : world)
    (res : http_response) :
  add_run z r ds w res w' ->
  domains_json w' = domains_json w /\
  exists rest,
    trace w' = trace w ++ Http GET_ipify (network w (trace w) GET_ipify) :: rest /\
    filter is_write rest = filter is_last_ip_write rest.
Proof.
  intros [logs T L|addr logs evs G N L U A|addr logs evs o logs' G N L U O A L' Q
         |addr logs evs o logs' G N L U O A L' Q];
    (split; [reflexivity|]); (eexists; split; [reflexivity|]);
    rewrite ?filter_app, ?(writes_reports logs L),
      ?(reports_no_last_ip_write logs L), ?(attempt_events_no_write evs A),
      ?(attempt_events_no_last_ip_write evs A), ?(writes_reports logs' L'),
      ?(reports_no_last_ip_write logs' L'); reflexivity.
Qed.

Lemma add_run_reply (z r : string) (ds : list Domain) (w w' : world)
    (res : http_response) :
  add_run z r ds w res w' ->
  reply_tells z r ds res (provider_calls (new_events w w')).
Proof.
  intros [logs T L|addr logs evs G N L U A|addr logs evs o logs' G N L U O A L' Q
         |addr logs evs o logs' G N L U O A L' Q].
  - left; rewrite new_events_add; split; [reflexivity|].
    norm_events; reflexivity.
  - right; left; rewrite new_events_add; split; [reflexivity|].
    exists addr; norm_events; assumption.
  - right; right; rewrite new_events_add; split; [reflexivity|].
    exists addr, o; split; [assumption|].
    norm_events; now rewrite app_nil_r.
  - right; right; rewrite new_events_set; split; [reflexivity|].
    exists addr, o; split; [assumption|].
    norm_events; now rewrite app_nil_r.
Qed.

Lemma same_domain_eq (z r : string) (d : Domain) :
  same_domain z r d = true <-> d = mkDomain z r.
Proof.
  unfold same_domain; destruct d as [z' r']; simpl.
  rewrite andb_true_iff, !String.eqb_eq.
  split; [intros [-> ->]; reflexivity|intros E; injection E; auto].
Qed.

Lemma existsb_same_domain (z r : string) (ds : list Domain) :
  existsb (same_domain z r) ds = true <-> In (mkDomain z r) ds.
Proof.
  rewrite existsb_exists; split.
  - intros (d & I & E); apply same_domain_eq in E; now subst.
  - intros I; exists (mkDomain z r); split; [assumption|].
    now apply same_domain_eq.
Qed.

Lemma not_in_existsb (z r : string) (ds : list Domain) :
  ~ In (mkDomain z r) ds -> existsb (same_domain z r) ds = false.
Proof.
  intros N; destruct (existsb (same_domain z r) ds) eqn:E; [|reflexivity].
  apply existsb_same_domain in E; contradiction.
Qed.

(** C7.  The claim fails on the outcome of the update call itself.
    Adding [home.example.com], whose record exists, while the provider
    rejects the update: the pair is added and persisted, the rejected call
    and the error line are in the trace and no success line is, and the
    reply is 201 "added and DNS record updated", the very reply of an add
    whose update succeeded.  The other failures of the same handler are
    reported: 500 when no address is resolved, 400 when the zone is not
    found, and 500 "error while adding" from its [catch] when the write of
    [last_ip.txt] throws. *)
Theorem C7_rejected_update_replies_like_success :
  let add := Part000.post_domains (Some "example.com") (Some "home.example.com") in
  let s_ok := {| domains := []; env := demo_world Missing "203.0.113.5" |} in
  let s_bad := {| domains := []; env := refusing_world Missing "203.0.113.5" |} in
  let s_off := {| domains := []; env := offline_world |} in
  let refused := Rejected "Request failed with status code 500" in
  (domains (snd (add s_bad)) = [home] /\
   domains_json (env (snd (add s_bad))) = Content [home]) /\
  (In (Http (PUT_dns_records "z1" "r1" "home.example.com" "203.0.113.5")
         refused) (trace (env (snd (add s_bad)))) /\
   In (ErrorLog (MsgUpdateFailed "home.example.com"
                   "Request failed with status code 500"))
      (trace (env (snd (add s_bad)))) /\
   ~ In (Log (MsgUpdated "home.example.com" "203.0.113.5"))
        (trace (env (snd (add s_bad))))) /\
  (fst (add s_bad)
     = mkResponse 201 (JMessageDomains TxtAddedAndUpdated [home]) /\
   fst (add s_bad) = fst (add s_ok) /\
   In (Log (MsgUpdated "home.example.com" "203.0.113.5"))
      (trace (env (snd (add s_ok))))) /\
  (fst (add s_off) = mkResponse 500 (JMessage TxtNoPublicIP) /\
   fst (Part000.post_domains (Some "nowhere.test") (Some "a.nowhere.test") s_ok)
     = mkResponse 400 (JMessage (TxtZoneNotFound "nowhere.test")) /\
   fst (Part000.post_domains_on
          (Some "EROFS: read-only file system, open 'last_ip.txt'")
          (Some "example.com") (Some "home.example.com") s_ok)
     = mkResponse 500 (JMessage TxtAddError)).
Proof.
  cbv zeta.
  split; [split; vm_compute; reflexivity|].
  split; [split; [|split]|].
  - vm_compute; repeat (first [left; reflexivity | right]).
  - vm_compute; repeat (first [left; reflexivity | right]).
  - vm_compute; intros H.
    repeat (destruct H as [H|H]; [discriminate H|]); exact H.
  - split; [split; [|split]|split; [|split]];
      try (vm_compute; reflexivity).
    vm_compute; repeat (first [left; reflexivity | right]).
Qed.

(** ** The managed set and the API key *)

Lemma post_domains_preserves (z r : option string) (s : state) :
  no_duplicates s -> no_duplicates (snd (Part000.post_domains z r s)).
Proof.
  intros N; unfold Part000.post_domains, Part000.post_domains_on, when_truthy.
  destruct z as [z|]; [|exact N].
  destruct (String.eqb_spec z "") as [|Hz]; [exact N|].
  destruct r as [r|]; [|exact N].
  destruct (String.eqb_spec r "") as [|Hr]; [exact N|].
  destruct (existsb (same_domain z r) (domains s)) eqn:E; [exact N|].
  assert (NoDup (domains s ++ [mkDomain z r])) as N'.
  { apply NoDup_app; repeat split; [apply N|repeat constructor; auto|].
    intros d Hd [<-|[]]. apply existsb_same_domain in Hd; congruence. }
  pose proof (post_domains_accepted z r s Hz Hr E) as A; cbv zeta in A.
  unfold Part000.post_domains, Part000.post_domains_on in A.
  rewrite !when_truthy_some, E in A by assumption.
  rewrite A; split; [exact N'|]; simpl.
  destruct (add_run_frame _ _ _ _ _ _
              (post_domains_update_cases z r (domains s ++ [mkDomain z r])
                 (after_add z r (domains s ++ [mkDomain z r]) (env s))))
    as (-> & _).
  exact N'.
Qed.

Lemma delete_domains_preserves (z r : option string) (s : state) :
  no_duplicates s -> no_duplicates (snd (delete_domains z r s)).
Proof.
  intros N; unfold delete_domains, when_truthy.
  destruct z as [z|]; [|exact N].
  destruct (z =? ""); [exact N|].
  destruct r as [r|]; [|exact N].
  destruct (r =? ""); [exact N|].
  assert (NoDup (filter (fun d => negb (same_domain z r d)) (domains s))) as N'
    by (apply NoDup_filter, N).
  destruct (_ =? _)%nat; (split; [exact N'|]); simpl; [apply N|exact N'].
Qed.

Lemma pass_run_domains_json
    (shape : string -> Domain -> outcome -> list event -> Prop)
    (ds : list Domain) (w w' : world) :
  pass_run shape ds w w' -> domains_json w' = domains_json w.
Proof. intros []; reflexivity. Qed.

Lemma app_preserves (API_KEY : option string) (req : http_request)
    (s : state) :
  no_duplicates s -> no_duplicates (snd (Part000.app API_KEY req s)).
Proof.
  intros N; unfold Part000.app.
  destruct (Part000.authenticate API_KEY req); [|exact N].
  destruct (rt req); try exact N.
  - now apply post_domains_preserves.
  - now apply delete_domains_preserves.
Qed.

Lemma reachable_no_duplicates (API_KEY : option string) (w0 : world)
    (s : state) :
  file_nodup (domains_json w0) -> reachable API_KEY w0 s -> no_duplicates s.
Proof.
  intros F R; induction R as [|s R IH|s req R IH].
  - unfold load_domains, no_duplicates, read.
    destruct (domains_json w0) eqn:E; destruct (domains_denied w0);
      simpl; rewrite ?E; repeat split; auto; constructor.
  - unfold Part000.tick, run, no_duplicates; simpl.
    rewrite (pass_run_domains_json _ _ _ _ (part_000_pass (domains s) (env s))).
    exact IH.
  - now apply app_preserves.
Qed.

(** C8.  An add of a pair that is already in [domains] (both fields given)
    is answered 400 "already exists" and leaves the whole state as it was:
    same array, nothing written, nothing logged.  And if [domains.json]
    lists no pair twice when the process starts (as on a first run, when it
    does not exist), then in every state the process goes through no pair
    is twice in [domains], nor in [domains.json]. *)
Theorem C8_duplicate_add_rejected :
  (forall z r s,
     z <> "" -> r <> "" -> In (mkDomain z r) (domains s) ->
     Part000.post_domains (Some z) (Some r) s =
       (mkResponse 400 (JMessage TxtAlreadyExists), s)) /\
  (forall API_KEY w0 s,
     file_nodup (domains_json w0) -> reachable API_KEY w0 s ->
     NoDup (domains s) /\ file_nodup (domains_json (env s))).
Proof.
  split.
  - intros z r s Hz Hr I; unfold Part000.post_domains, Part000.post_domains_on.
    rewrite !when_truthy_some by assumption.
    now rewrite (proj2 (existsb_same_domain z r (domains s)) I).
  - exact reachable_no_duplicates.
Qed.

Lemma C8_duplicate_add_rejected_witness :
  let s := {| domains := [home]; env := demo_world Missing "203.0.113.5" |} in
  Part000.post_domains (Some "example.com") (Some "home.example.com") s =
    (mkResponse 400 (JMessage TxtAlreadyExists), s) /\
  NoDup (domains (snd (Part000.app (Some "secret")
                         (mkRequest POST_domains (Some "secret")
                            (Some "example.com") (Some "home.example.com"))
                         (load_domains (demo_world Missing "203.0.113.5"))))).
Proof.
  cbv zeta; split.
  - apply (proj1 C8_duplicate_add_rejected).
    + discriminate.
    + discriminate.
    + now left.
  - apply (proj2 C8_duplicate_add_rejected (Some "secret")
             (demo_world Missing "203.0.113.5")).
    + exact I.
    + apply reach_request, reach_start.
Defined.

Lemma authenticate_spec (API_KEY : option string) (req : http_request) :
  Part000.authenticate API_KEY req = true <->
  exists k, k <> "" /\ x_api_key req = Some k /\ API_KEY = Some k.
Proof.
  unfold Part000.authenticate, when_truthy.
  destruct (x_api_key req) as [k|].
  - destruct (String.eqb_spec k "") as [->|N].
    + split; [discriminate|]. intros (k & N & E & _).
      injection E as <-; contradiction.
    + rewrite strict_eq_true; split.
      * intros ->; exists k; auto.
      * intros (k' & _ & E & ->); congruence.
  - split; [discriminate|]. intros (k & _ & E & _); discriminate.
Qed.

(** C10, as amended.  A request whose body the JSON parser has taken, on
    any route, [GET /domains] included, is answered 401 with the state
    untouched unless its [x-api-key] header is a non-empty string equal to
    [API_KEY]; in particular every such request is when [API_KEY] is not
    configured.  A request whose body the parser refuses is answered with
    the status of the parser's error, whatever its key, and the state is
    untouched as well.  So a request is answered by a route only if it
    carries the key. *)
Theorem C10_requests_need_the_api_key
    (API_KEY : option string) (i : incoming) (s : state) :
  (forall req,
     Part000.authenticate API_KEY req = true <->
     exists k, k <> "" /\ x_api_key req = Some k /\ API_KEY = Some k) /\
  (forall req,
     i = BodyTaken req ->
     x_api_key req <> API_KEY \/ x_api_key req = None \/ API_KEY = None ->
     Part000.serve API_KEY i s =
       (mkResponse 401 (JMessage TxtUnauthorized), s)) /\
  (forall st r k,
     i = BodyRefused st r k ->
     Part000.serve API_KEY i s = (mkResponse st JErrorPage, s)) /\
  (Part000.serve API_KEY i s = (mkResponse 401 (JMessage TxtUnauthorized), s)
   \/ (exists st, Part000.serve API_KEY i s = (mkResponse st JErrorPage, s))
   \/ (exists req k,
         i = BodyTaken req /\ k <> "" /\
         x_api_key req = Some k /\ API_KEY = Some k)).
Proof.
  split; [intros req; apply authenticate_spec|].
  assert (forall req, Part000.authenticate API_KEY req = false ->
            Part000.app API_KEY req s =
              (mkResponse 401 (JMessage TxtUnauthorized), s)) as R.
  { intros req F; unfold Part000.app; now rewrite F. }
  split; [|split].
  - intros req -> H; simpl; apply R, not_true_is_false; intros E.
    apply authenticate_spec in E as (k & _ & E1 & E2).
    destruct H as [H|[H|H]]; congruence.
  - intros st r k ->; reflexivity.
  - destruct i as [st r k|req]; simpl.
    + right; left; exists st; reflexivity.
    + destruct (Part000.authenticate API_KEY req) eqn:E.
      * apply authenticate_spec in E as (k & N & E1 & E2).
        right; right; exists req, k; auto.
      * left; now apply R.
Qed.

Lemma C10_requests_need_the_api_key_witness :
  let s := {| domains := [home]; env := demo_world Missing "203.0.113.5" |} in
  Part000.serve None
    (BodyTaken (mkRequest GET_domains (Some "guess") None None)) s =
    (mkResponse 401 (JMessage TxtUnauthorized), s) /\
  Part000.serve (Some "secret")
    (BodyTaken (mkRequest GET_domains None None None)) s =
    (mkResponse 401 (JMessage TxtUnauthorized), s).
Proof.
  cbv zeta; split.
  - refine (proj1 (proj2 (C10_requests_need_the_api_key None
              (BodyTaken (mkRequest GET_domains (Some "guess") None None)) _))
              _ eq_refl _).
    right; right; reflexivity.
  - refine (proj1 (proj2 (C10_requests_need_the_api_key (Some "secret")
              (BodyTaken (mkRequest GET_domains None None None)) _))
              _ eq_refl _).
    right; left; reflexivity.
Defined.

(** C10 as stated fails for a request whose body the parser refuses.  A
    [POST /domains] without [x-api-key], with a body that is not JSON: the
    parser runs before [authenticate], and the reply is its 400, not 401.
    The same request with a body that is JSON is answered 401. *)
Lemma C10_refused_body_is_answered_before_the_key :
  let s := {| domains := [home]; env := demo_world Missing "203.0.113.5" |} in
  let refused := BodyRefused 400 POST_domains None in
  let taken := BodyTaken (mkRequest POST_domains None (Some "example.com")
                            (Some "new.example.com")) in
  Part000.serve (Some "secret") refused s = (mkResponse 400 JErrorPage, s) /\
  fst (Part000.serve (Some "secret") refused s)
    <> mkResponse 401 (JMessage TxtUnauthorized) /\
  Part000.serve (Some "secret") taken s
    = (mkResponse 401 (JMessage TxtUnauthorized), s).
Proof.
  cbv zeta; split; [reflexivity|split; [discriminate|reflexivity]].
Qed.

(** ** A pass with handlers running at its suspensions *)

Lemma store_length (a : nat) (v : list Domain) (hp : list (list Domain)) :
  length (Interleaving.store a v hp) = length hp.
Proof.
  revert a; induction hp as [|x hp IH]; intros [|a]; simpl; auto.
Qed.

Lemma nth_store_same (a : nat) (v : list Domain) (hp : list (list Domain)) :
  a < length hp -> nth a (Interleaving.store a v hp) [] = v.
Proof.
  revert a; induction hp as [|x hp IH]; intros [|a]; simpl; intros H;
    try lia; auto.
  apply IH; lia.
Qed.

Lemma nth_store_other (a b : nat) (v : list Domain) (hp : list (list Domain)) :
  a <> b -> nth a (Interleaving.store b v hp) [] = nth a hp [].
Proof.
  revert a b; induction hp as [|x hp IH]; intros [|a] [|b]; simpl; intros H;
    try reflexivity; try congruence.
  apply IH; congruence.
Qed.

Lemma progress_refl (a : nat) (c : Interleaving.config) :
  allocated a c -> progress a c c [].
Proof.
  intros A; split; [exact A|]; split; [|split; [reflexivity|split; [reflexivity|]]].
  - exists [], []; simpl; rewrite app_nil_r; repeat split; auto; lia.
  - exists []; now rewrite app_nil_r.
Qed.

Lemma progress_trans (a : nat) (c1 c2 c3 : Interleaving.config)
    (z1 z2 : list string) :
  progress a c1 c2 z1 -> progress a c2 c3 z2 -> progress a c1 c3 (z1 ++ z2).
Proof.
  intros (_ & (e1 & u1 & A1 & P1 & L1 & F1 & B1) & I1 & N1 & (v1 & T1 & Z1))
         (A & (e2 & u2 & A2 & P2 & L2 & F2 & B2) & I2 & N2 & (v2 & T2 & Z2)).
  split; [exact A|]; split; [|split; [congruence|split; [congruence|]]].
  - exists (e1 ++ e2), (u1 ++ u2).
    rewrite concat_app, !length_app.
    split; [rewrite A2, A1; now rewrite app_assoc|].
    split; [rewrite P1, P2; now rewrite app_assoc|].
    split; [lia|]. split; [|lia].
    apply Forall_app; split.
    + eapply Forall_impl; [|exact F1].
      intros d E; apply Exists_app; now left.
    + eapply Forall_impl; [|exact F2].
      intros d E; apply Exists_app; now right.
  - exists (v1 ++ v2); rewrite T2, T1, zones_requested_app, Z1, Z2.
    split; [now rewrite app_assoc|reflexivity].
Qed.

Lemma heap_step_refl (a : nat) (c : Interleaving.config)
    (bs : list Interleaving.block) :
  allocated a c -> heap_step a c c bs.
Proof.
  intros A; repeat split; try apply A; try lia.
  - exists []; rewrite app_nil_r; repeat split; simpl; auto; lia.
  - exists []; now rewrite app_nil_r.
Qed.

Lemma heap_step_trans (a : nat) (c1 c2 c3 : Interleaving.config)
    (b1 b2 : list Interleaving.block) :
  heap_step a c1 c2 b1 -> heap_step a c2 c3 b2 ->
  heap_step a c1 c3 (b1 ++ b2).
Proof.
  intros (_ & P1 & (e1 & A1 & L1 & F1) & B1 & I1 & N1 & (v1 & T1 & Z1))
         (A & P2 & (e2 & A2 & L2 & F2) & B2 & I2 & N2 & (v2 & T2 & Z2)).
  unfold heap_step; rewrite length_app.
  split; [exact A|]; split; [congruence|]; split; [|split; [lia|]].
  - exists (e1 ++ e2); rewrite length_app.
    split; [rewrite A2, A1; now rewrite app_assoc|]; split; [lia|].
    apply Forall_app; split.
    + eapply Forall_impl; [|exact F1].
      intros d E; apply Exists_app; now left.
    + eapply Forall_impl; [|exact F2].
      intros d E; apply Exists_app; now right.
  - split; [congruence|]; split; [congruence|].
    exists (v1 ++ v2); rewrite T2, T1, zones_requested_app, Z1, Z2.
    split; [now rewrite app_assoc|reflexivity].
Qed.

Lemma post_domains_sync_step (a : nat) (z r : option string)
    (c : Interleaving.config) :
  allocated a c ->
  heap_step a c (Interleaving.post_domains_sync z r c)
    [Interleaving.AddBlock z r].
Proof.
  intros A; pose proof A as (Ha & Hr).
  unfold Interleaving.post_domains_sync, when_truthy.
  destruct z as [z|]; [|now apply heap_step_refl].
  destruct (z =? ""); [now apply heap_step_refl|].
  destruct r as [r|]; [|now apply heap_step_refl].
  destruct (r =? ""); [now apply heap_step_refl|].
  destruct (existsb _ _); [now apply heap_step_refl|].
  unfold heap_step, allocated, Interleaving.array_at; simpl.
  rewrite store_length, (nth_store_same _ _ _ Hr), length_app; simpl.
  repeat split; try assumption; try lia.
  - destruct (Nat.eq_dec a (Interleaving.domains_ref c)) as [->|N].
    + rewrite (nth_store_same _ _ _ Hr).
      exists [mkDomain z r]; repeat split; simpl; [lia|].
      repeat constructor.
    + rewrite (nth_store_other _ _ _ _ N).
      exists []; rewrite app_nil_r; repeat split; simpl; [lia|constructor].
  - exists [WriteDomains
              (nth (Interleaving.domains_ref c) (Interleaving.arrays c) []
                 ++ [mkDomain z r]);
            Log (MsgDomainAdded z r)].
    split; [list_norm|reflexivity].
Qed.

Lemma delete_domains_step (a : nat) (z r : option string)
    (c : Interleaving.config) :
  allocated a c ->
  heap_step a c (Interleaving.delete_domains z r c)
    [Interleaving.RemoveBlock z r].
Proof.
  intros A; pose proof A as (Ha & Hr).
  unfold Interleaving.delete_domains, when_truthy.
  destruct z as [z|]; [|now apply heap_step_refl].
  destruct (z =? ""); [now apply heap_step_refl|].
  destruct r as [r|]; [|now apply heap_step_refl].
  destruct (r =? ""); [now apply heap_step_refl|].
  unfold heap_step, allocated, Interleaving.array_at; simpl.
  rewrite length_app, (app_nth1 _ _ _ Ha), nth_middle; simpl.
  repeat split; try lia.
  - exists []; rewrite app_nil_r; repeat split; simpl; [lia|constructor].
  - pose proof (filter_length_le (fun d => negb (same_domain z r d))
                  (nth (Interleaving.domains_ref c) (Interleaving.arrays c) []));
      lia.
  - destruct (_ =? _)%nat; reflexivity.
  - destruct (_ =? _)%nat; reflexivity.
  - destruct (_ =? _)%nat.
    + exists []; now rewrite app_nil_r.
    + exists [WriteDomains
                (filter (fun d => negb (same_domain z r d))
                   (nth (Interleaving.domains_ref c) (Interleaving.arrays c) []));
              Log (MsgDomainRemoved z r)].
      split; [list_norm|reflexivity].
Qed.

(** The blocks are the handlers of the sequential model, seen on the
    shared heap. *)
Lemma delete_domains_view (z r : option string) (c : Interleaving.config) :
  Interleaving.domains_ref c < length (Interleaving.arrays c) ->
  Interleaving.view (Interleaving.delete_domains z r c) =
  snd (delete_domains z r (Interleaving.view c)).
Proof.
  intros Hr; unfold Interleaving.delete_domains, delete_domains, when_truthy.
  destruct z as [z|]; [|reflexivity].
  destruct (z =? ""); [reflexivity|].
  destruct r as [r|]; [|reflexivity].
  destruct (r =? ""); [reflexivity|].
  unfold Interleaving.view, Interleaving.array_at; simpl.
  rewrite nth_middle.
  destruct (_ =? _)%nat; reflexivity.
Qed.

Lemma post_domains_sync_view (z r : option string) (c : Interleaving.config) :
  Interleaving.domains_ref c < length (Interleaving.arrays c) ->
  Interleaving.view (Interleaving.post_domains_sync z r c) =
  snd (IndexJs.post_domains z r (Interleaving.view c)).
Proof.
  intros Hr; unfold Interleaving.post_domains_sync, IndexJs.post_domains,
    when_truthy.
  destruct z as [z|]; [|reflexivity].
  destruct (z =? ""); [reflexivity|].
  destruct r as [r|]; [|reflexivity].
  destruct (r =? ""); [reflexivity|].
  unfold Interleaving.view at 2 3; simpl.
  destruct (existsb _ _); [reflexivity|].
  unfold Interleaving.view, Interleaving.array_at; simpl.
  now rewrite (nth_store_same _ _ _ Hr).
Qed.

Lemma run_blocks_step (a : nat) (bs : list Interleaving.block)
    (c : Interleaving.config) :
  allocated a c ->
  heap_step a c (fold_left Interleaving.run_block bs c) bs.
Proof.
  revert c; induction bs as [|b bs IH]; intros c A; simpl.
  - now apply heap_step_refl.
  - assert (heap_step a c (Interleaving.run_block c b) [b]) as S.
    { destruct b as [z r|z r]; simpl;
        [now apply post_domains_sync_step|now apply delete_domains_step]. }
    apply (heap_step_trans a c _ _ [b] bs S).
    apply IH, S.
Qed.

Lemma lift_progress {A : Type} (a : nat) (c : Interleaving.config)
    (m : IO A) (x : A) (evs : list event) :
  allocated a c ->
  m (Interleaving.wld c) = (x, add_events (Interleaving.wld c) evs) ->
  fst (Interleaving.lift m c) = x /\
  progress a c (snd (Interleaving.lift m c)) (zones_requested evs).
Proof.
  intros Al E; unfold Interleaving.lift; rewrite E; simpl.
  split; [reflexivity|].
  split; [exact Al|]; split; [|split; [reflexivity|split; [reflexivity|]]].
  - exists [], []; unfold Interleaving.array_at; simpl; rewrite app_nil_r.
    repeat split; auto; lia.
  - exists evs; split; reflexivity.
Qed.

Lemma await_progress {A : Type} (a : nat) (c : Interleaving.config)
    (m : IO A) (x : A) (evs : list event) :
  allocated a c ->
  m (Interleaving.wld c) = (x, add_events (Interleaving.wld c) evs) ->
  fst (Interleaving.await m c) = x /\
  progress a c (snd (Interleaving.await m c)) (zones_requested evs).
Proof.
  intros Al E; unfold Interleaving.await, Interleaving.lift; rewrite E; simpl.
  split; [reflexivity|].
  set (c2 := Interleaving.mkConfig _ _ _ _).
  assert (allocated a c2) as Al2 by exact Al.
  destruct (run_blocks_step a (hd [] (Interleaving.pending c)) c2 Al2)
    as (Al' & P & (extra & Ar & Le & Fa) & Cu & Ip & Nw & (v & Tr & Zs)).
  split; [exact Al'|]; split; [|split; [exact Ip|split; [exact Nw|]]].
  - exists extra.
    exists (match Interleaving.pending c with [] => [] | bs :: _ => [bs] end).
    rewrite P; unfold c2 at 1; simpl.
    destruct (Interleaving.pending c) as [|bs rest]; simpl in *;
      rewrite ?app_nil_r; repeat split; auto.
  - exists (evs ++ v); rewrite Tr, zones_requested_app, Zs, app_nil_r.
    split; [simpl; now rewrite app_assoc|reflexivity].
Qed.

Lemma zones_cons_reports (rq : request) (rs : axios_result) (l : list event) :
  forallb is_report l = true ->
  zones_requested (Http rq rs :: l) =
  match rq with GET_zones z => [z] | _ => [] end.
Proof.
  intros L; destruct rq; simpl; now rewrite (zones_requested_reports l L).
Qed.

Lemma part_000_body_live (addr : string) :
  live_attempt_spec (Interleaving.part_000_body addr).
Proof.
  intros a d c Al; unfold Interleaving.part_000_body.
  destruct (getZoneID_spec (zone d) (Interleaving.wld c)) as (l1 & E1 & L1).
  destruct (await_progress a c _ _ _ Al E1) as (R1 & P1).
  rewrite (zones_cons_reports _ _ _ L1) in P1.
  rewrite (bind_eq _ _ _ _ _ (surjective_pairing _)), R1; cbv beta.
  set (c1 := snd (Interleaving.await (getZoneID (zone d)) c)) in *.
  assert (allocated a c1) as Al1 by apply P1.
  rewrite when_truthy_found.
  destruct (found _) as [zid|].
  - destruct (getDNSRecordID_spec zid (record d) (Interleaving.wld c1))
      as (l2 & E2 & L2).
    destruct (await_progress a c1 _ _ _ Al1 E2) as (R2 & P2).
    rewrite (zones_cons_reports _ _ _ L2) in P2.
    rewrite (bind_eq _ _ _ _ _ (surjective_pairing _)), R2; cbv beta.
    set (c2 := snd (Interleaving.await _ c1)) in *.
    assert (allocated a c2) as Al2 by apply P2.
    pose proof (progress_trans _ _ _ _ _ _ P1 P2) as P12; simpl in P12.
    rewrite when_truthy_found.
    destruct (found _) as [rid|].
    + destruct (updateDNSRecord_spec zid rid (record d) addr
                  (Interleaving.wld c2)) as (l3 & E3 & L3).
      destruct (await_progress a c2 _ _ _ Al2 E3) as (R3 & P3).
      rewrite (zones_cons_reports _ _ _ L3) in P3.
      exact (progress_trans _ _ _ _ _ _ P12 P3).
    + destruct (createDNSRecord_spec zid (record d) addr
                  (Interleaving.wld c2)) as (l3 & E3 & L3).
      destruct (await_progress a c2 _ _ _ Al2 E3) as (R3 & P3).
      rewrite (zones_cons_reports _ _ _ L3) in P3.
      exact (progress_trans _ _ _ _ _ _ P12 P3).
  - exact P1.
Qed.

Lemma index_js_body_live (addr : string) :
  live_attempt_spec (Interleaving.index_js_body addr).
Proof.
  intros a d c Al; unfold Interleaving.index_js_body.
  destruct (getZoneID_spec (zone d) (Interleaving.wld c)) as (l1 & E1 & L1).
  destruct (await_progress a c _ _ _ Al E1) as (R1 & P1).
  rewrite (zones_cons_reports _ _ _ L1) in P1.
  rewrite (bind_eq _ _ _ _ _ (surjective_pairing _)), R1; cbv beta.
  set (c1 := snd (Interleaving.await (getZoneID (zone d)) c)) in *.
  assert (allocated a c1) as Al1 by apply P1.
  rewrite when_truthy_found.
  destruct (found _) as [zid|].
  - destruct (index_getDNSRecordID_spec zid (record d) (Interleaving.wld c1))
      as (l2 & E2 & L2).
    destruct (await_progress a c1 _ _ _ Al1 E2) as (R2 & P2).
    rewrite (zones_cons_reports _ _ _ L2) in P2.
    rewrite (bind_eq _ _ _ _ _ (surjective_pairing _)), R2; cbv beta.
    set (c2 := snd (Interleaving.await _ c1)) in *.
    assert (allocated a c2) as Al2 by apply P2.
    pose proof (progress_trans _ _ _ _ _ _ P1 P2) as P12; simpl in P12.
    rewrite when_truthy_found.
    destruct (found _) as [rid|].
    + destruct (updateDNSRecord_spec zid rid (record d) addr
                  (Interleaving.wld c2)) as (l3 & E3 & L3).
      destruct (await_progress a c2 _ _ _ Al2 E3) as (R3 & P3).
      rewrite (zones_cons_reports _ _ _ L3) in P3.
      exact (progress_trans _ _ _ _ _ _ P12 P3).
    + exact P12.
  - exact P1.
Qed.

Lemma skipn_nth_error {A : Type} (l : list A) (i : nat) (x : A) :
  nth_error l i = Some x -> skipn i l = x :: skipn (S i) l.
Proof.
  revert i; induction l as [|y l IH]; intros [|i]; simpl; try discriminate.
  - now intros [= ->].
  - intros H; now rewrite (IH i H).
Qed.

(** The loop ends, and the zones it asks for are those of the array object
    it iterates, as that object is when the loop ends. *)
Lemma for_of_live_runs (body : Domain -> ST Interleaving.config unit) :
  live_attempt_spec body ->
  forall fuel a i c,
    allocated a c ->
    length (Interleaving.array_at a c) - i
      + length (concat (Interleaving.pending c)) < fuel ->
    exists c',
      Interleaving.for_of_live fuel a i body c = Some c' /\
      progress a c c' (map zone (skipn i (Interleaving.array_at a c'))).
Proof.
  intros Hb fuel; induction fuel as [|fuel IH]; intros a i c Al M; [lia|].
  simpl. destruct (nth_error (Interleaving.array_at a c) i) as [d|] eqn:N.
  - assert (i < length (Interleaving.array_at a c)) as Li
      by (apply nth_error_Some; congruence).
    pose proof (Hb a d c Al) as P1.
    set (c1 := snd (body d c)) in *.
    pose proof P1 as (Al1 & (e1 & u1 & A1 & U1 & L1 & _) & _).
    destruct (IH a (S i) c1 Al1) as (c' & E & P2).
    { rewrite A1, length_app. rewrite U1, concat_app, length_app in M. lia. }
    exists c'; split; [exact E|].
    pose proof (progress_trans _ _ _ _ _ _ P1 P2) as P.
    destruct P2 as (_ & (e2 & u2 & A2 & _) & _).
    assert (nth_error (Interleaving.array_at a c') i = Some d) as N'.
    { rewrite A2, A1, <- app_assoc, nth_error_app1; assumption. }
    now rewrite (skipn_nth_error _ _ _ N').
  - exists c; split; [reflexivity|].
    apply nth_error_None in N. rewrite skipn_all2 by assumption.
    now apply progress_refl.
Qed.

Lemma lift_heap {A : Type} (m : IO A) (c : Interleaving.config) :
  Interleaving.arrays (snd (Interleaving.lift m c)) = Interleaving.arrays c /\
  Interleaving.domains_ref (snd (Interleaving.lift m c))
    = Interleaving.domains_ref c /\
  Interleaving.pending (snd (Interleaving.lift m c)) = Interleaving.pending c /\
  Interleaving.wld (snd (Interleaving.lift m c)) = snd (m (Interleaving.wld c)) /\
  fst (Interleaving.lift m c) = fst (m (Interleaving.wld c)).
Proof.
  unfold Interleaving.lift; destruct (m (Interleaving.wld c)); simpl; auto.
Qed.

Lemma last_known_ip_ext (w1 w2 : world) :
  ip_file w1 = ip_file w2 -> last_known_ip w1 = last_known_ip w2.
Proof.
  unfold last_known_ip, getLastIP, ip_file; intros [= -> ->].
  destruct (read (last_ip_txt w2) (last_ip_denied w2)); reflexivity.
Qed.

Lemma exists_add_weaken (d : Domain) (used rest : list (list Interleaving.block)) :
  Exists (is_add_of d) (concat used) ->
  Exists (is_add_of d) (concat (used ++ rest)).
Proof. intros E; rewrite concat_app; apply Exists_app; now left. Qed.

(** A pass that goes through the domains, under any schedule: it ends, and
    the domains it attempts are those of the array object bound to
    [domains] when the loop starts, as that object is when the loop ends:
    its content at the start of the loop ([snapshot]), followed by what
    adds pushed into it meanwhile ([extra]). *)
Lemma live_pass_spec (body : string -> Domain -> ST Interleaving.config unit) :
  (forall addr, live_attempt_spec (body addr)) ->
  forall fuel c addr,
    Interleaving.domains_ref c < length (Interleaving.arrays c) ->
    length (Interleaving.array_at (Interleaving.domains_ref c) c)
      + length (concat (Interleaving.pending c)) < fuel ->
    fst (getPublicIP (Interleaving.wld c)) = Some addr -> addr <> "" ->
    last_known_ip (Interleaving.wld c) <> Some addr ->
    let start := snd (Interleaving.await getPublicIP c) in
    let snapshot := domains (Interleaving.view start) in
    exists c' extra,
      Interleaving.updateDNS_with body fuel c = Some c' /\
      zones_requested (new_events (Interleaving.wld c) (Interleaving.wld c'))
        = map zone (snapshot ++ extra) /\
      Interleaving.array_at (Interleaving.domains_ref start) c'
        = snapshot ++ extra /\
      Forall (fun d => Exists (is_add_of d)
                         (concat (Interleaving.pending start))) extra.
Proof.
  intros Hb fuel c addr Hr M H1 H2 H3; cbv zeta.
  unfold Interleaving.updateDNS_with, Interleaving.view; cbn [domains].
  assert (allocated (Interleaving.domains_ref c) c) as Al by (split; assumption).
  destruct (getPublicIP_spec (Interleaving.wld c)) as (l0 & E0 & L0).
  destruct (await_progress _ c _ _ _ Al E0) as (R0 & P0).
  rewrite (zones_cons_reports _ _ _ L0) in P0.
  assert (fst (Interleaving.await getPublicIP c) = Some addr) as V
    by (rewrite R0; rewrite E0 in H1; exact H1).
  clear R0 E0.
  destruct (Interleaving.await getPublicIP c) as [v c1].
  cbn [fst snd] in *; subst v.
  rewrite when_truthy_some by assumption.
  destruct P0 as ((_ & Hr1) & (e0 & u0 & _ & U0 & _ & _ & B0) & I0 & N0
                  & (v0 & T0 & Z0)).
  set (a := Interleaving.domains_ref c1) in *.
  assert (allocated a c1) as Al1 by (split; assumption).
  (* the read of last_ip.txt *)
  destruct (getLastIP_spec (Interleaving.wld c1)) as (l1 & E1 & L1).
  destruct (lift_progress a c1 _ _ _ Al1 E1) as (R1 & P1).
  rewrite (zones_requested_reports _ L1) in P1.
  destruct (lift_heap getLastIP c1) as (_ & D1 & _).
  destruct (Interleaving.lift getLastIP c1) as [lastIP c2].
  cbn [fst snd] in *; subst lastIP.
  rewrite (last_known_ip_ext _ _ I0), (strict_eq_false _ _ H3).
  (* the log line *)
  assert (log (MsgIPChanged (last_known_ip (Interleaving.wld c)) addr)
            (Interleaving.wld c2)
          = (tt, add_events (Interleaving.wld c2)
                   [Log (MsgIPChanged (last_known_ip (Interleaving.wld c)) addr)]))
    as E2 by reflexivity.
  assert (allocated a c2) as Al2 by apply P1.
  destruct (lift_progress a c2 _ _ _ Al2 E2) as (_ & P2).
  cbn [zones_requested] in P2.
  destruct (lift_heap (log (MsgIPChanged (last_known_ip (Interleaving.wld c)) addr))
              c2) as (_ & D2 & _).
  cbv zeta.
  set (c3 := snd (Interleaving.lift _ c2)) in *.
  rewrite D2, D1; fold a.
  pose proof (progress_trans _ _ _ _ _ _ P1 P2) as P12; cbn [app] in P12.
  (* the loop *)
  destruct (for_of_live_runs (body addr) (Hb addr) fuel a 0 c3) as (c4 & E4 & P4).
  { apply P12. }
  { destruct P12 as (_ & (e & u & A12 & U12 & L12 & _) & _).
    rewrite A12, length_app.
    rewrite U0, concat_app, length_app in M.
    rewrite U12, concat_app, length_app in M. lia. }
  rewrite E4.
  pose proof (progress_trans _ _ _ _ _ _ P12 P4) as P; cbn [app] in P.
  destruct P as (_ & (extra & used & A4 & U4 & _ & F4 & _) & _ & _ & (v4 & T4 & Z4)).
  (* the write of last_ip.txt *)
  destruct (lift_heap (saveLastIP addr) c4) as (Ar5 & _ & _ & W5 & _).
  set (c5 := snd (Interleaving.lift (saveLastIP addr) c4)) in *.
  exists c5, extra; split; [reflexivity|].
  assert (Interleaving.array_at a c5 = Interleaving.array_at a c1 ++ extra) as A5.
  { unfold Interleaving.array_at in *; now rewrite Ar5. }
  repeat split.
  - rewrite (new_events_trace _ _ (v0 ++ v4 ++ [WriteLastIP addr])).
    + rewrite !zones_requested_app, Z0, Z4; simpl.
      now rewrite A4, app_nil_r.
    + rewrite W5; unfold saveLastIP, emit; simpl.
      rewrite T4, T0; list_norm.
  - exact A5.
  - eapply Forall_impl; [|exact F4].
    intros d Ex; rewrite U4; now apply exists_add_weaken.
Qed.

(** *** With no handler in between, the pass is the sequential one *)

Lemma await_quiet {A : Type} (m : IO A) (c : Interleaving.config) :
  Interleaving.pending c = [] -> Interleaving.await m c = Interleaving.lift m c.
Proof.
  intros Q; unfold Interleaving.await, Interleaving.lift.
  destruct (m (Interleaving.wld c)); simpl; now rewrite Q.
Qed.

Lemma lift_bind {A B : Type} (m : IO A) (k : A -> IO B)
    (c : Interleaving.config) :
  Interleaving.lift (bind m k) c =
  bind (Interleaving.lift m) (fun x => Interleaving.lift (k x)) c.
Proof.
  unfold Interleaving.lift, bind.
  destruct (m (Interleaving.wld c)); reflexivity.
Qed.

Lemma lift_ret {A : Type} (x : A) (c : Interleaving.config) :
  Interleaving.lift (ret x) c = ret x c.
Proof. destruct c; reflexivity. Qed.

Lemma bind_ext {S A B : Type} (m m' : ST S A) (k k' : A -> ST S B) (s : S) :
  m s = m' s ->
  (forall x s1, m' s = (x, s1) -> k x s1 = k' x s1) ->
  bind m k s = bind m' k' s.
Proof.
  unfold bind; intros -> H; destruct (m' s) as [x s1] eqn:E; now apply H.
Qed.

Lemma lift_pending {A : Type} (m : IO A) (c c1 : Interleaving.config) (x : A) :
  Interleaving.lift m c = (x, c1) ->
  Interleaving.pending c1 = Interleaving.pending c /\
  Interleaving.arrays c1 = Interleaving.arrays c /\
  Interleaving.domains_ref c1 = Interleaving.domains_ref c.
Proof.
  unfold Interleaving.lift; destruct (m (Interleaving.wld c)).
  intros [= _ <-]; auto.
Qed.

Lemma part_000_body_quiet (addr : string) (d : Domain) (c : Interleaving.config) :
  Interleaving.pending c = [] ->
  Interleaving.part_000_body addr d c =
  Interleaving.lift (Part000.updateDNS_body addr d) c.
Proof.
  intros Q; unfold Interleaving.part_000_body, Part000.updateDNS_body.
  rewrite lift_bind; apply bind_ext; [now apply await_quiet|].
  intros zoneID c1 E1; apply lift_pending in E1 as (Q1 & _); rewrite Q in Q1.
  unfold when_truthy; destruct zoneID as [zid|]; [|now rewrite lift_ret].
  destruct (zid =? ""); [now rewrite lift_ret|].
  rewrite lift_bind; apply bind_ext; [now apply await_quiet|].
  intros recordID c2 E2; apply lift_pending in E2 as (Q2 & _); rewrite Q1 in Q2.
  destruct recordID as [rid|]; [|now apply await_quiet].
  destruct (rid =? ""); now apply await_quiet.
Qed.

Lemma index_js_body_quiet (addr : string) (d : Domain) (c : Interleaving.config) :
  Interleaving.pending c = [] ->
  Interleaving.index_js_body addr d c =
  Interleaving.lift (IndexJs.updateDNS_body addr d) c.
Proof.
  intros Q; unfold Interleaving.index_js_body, IndexJs.updateDNS_body.
  rewrite lift_bind; apply bind_ext; [now apply await_quiet|].
  intros zoneID c1 E1; apply lift_pending in E1 as (Q1 & _); rewrite Q in Q1.
  unfold when_truthy; destruct zoneID as [zid|]; [|now rewrite lift_ret].
  destruct (zid =? ""); [now rewrite lift_ret|].
  rewrite lift_bind; apply bind_ext; [now apply await_quiet|].
  intros recordID c2 E2; apply lift_pending in E2 as (Q2 & _); rewrite Q1 in Q2.
  destruct recordID as [rid|]; [|now rewrite lift_ret].
  destruct (rid =? ""); [now rewrite lift_ret|now apply await_quiet].
Qed.

Lemma for_of_live_quiet (live : Domain -> ST Interleaving.config unit)
    (body : Domain -> IO unit) :
  (forall d c, Interleaving.pending c = [] ->
               live d c = Interleaving.lift (body d) c) ->
  forall fuel a i c,
    Interleaving.pending c = [] ->
    length (Interleaving.array_at a c) - i < fuel ->
    Interleaving.for_of_live fuel a i live c =
    Some (snd (Interleaving.lift
                 (for_of (skipn i (Interleaving.array_at a c)) body) c)).
Proof.
  intros Hq fuel; induction fuel as [|fuel IH]; intros a i c Q M; [lia|].
  simpl. destruct (nth_error (Interleaving.array_at a c) i) as [d|] eqn:N.
  - assert (i < length (Interleaving.array_at a c)) as Li
      by (apply nth_error_Some; congruence).
    rewrite (skipn_nth_error _ _ _ N); simpl for_of.
    rewrite lift_bind, (Hq d c Q).
    destruct (Interleaving.lift (body d) c) as [[] c1] eqn:E1.
    rewrite (bind_eq _ _ _ _ _ E1); cbn [snd].
    apply lift_pending in E1 as (Q1 & Ar1 & _); rewrite Q in Q1.
    assert (Interleaving.array_at a c1 = Interleaving.array_at a c) as A1
      by (unfold Interleaving.array_at; now rewrite Ar1).
    rewrite <- A1. apply IH; [assumption|rewrite A1; lia].
  - apply nth_error_None in N. rewrite skipn_all2 by assumption.
    cbn [for_of]; now rewrite lift_ret.
Qed.

(** With an empty schedule and enough fuel, the interleaved pass is the
    sequential pass over the array bound to [domains]. *)
Lemma updateDNS_quiet (live : string -> Domain -> ST Interleaving.config unit)
    (body : string -> Domain -> IO unit) (pass : list Domain -> IO unit) :
  (forall addr d c, Interleaving.pending c = [] ->
                    live addr d c = Interleaving.lift (body addr d) c) ->
  (forall ds, pass ds =
     (currentIP <- getPublicIP ;;
      when_truthy currentIP (ret tt) (fun currentIP =>
        lastIP <- getLastIP ;;
        if strict_eq currentIP lastIP then log (MsgIPUnchanged currentIP)
        else
          log (MsgIPChanged lastIP currentIP) ;;
          for_of ds (body currentIP) ;;
          saveLastIP currentIP))) ->
  forall fuel c,
    Interleaving.pending c = [] ->
    length (domains (Interleaving.view c)) < fuel ->
    Interleaving.updateDNS_with live fuel c =
    Some (snd (Interleaving.lift (pass (domains (Interleaving.view c))) c)).
Proof.
  intros Hq Hp fuel c Q M; rewrite Hp; clear Hp.
  unfold Interleaving.updateDNS_with, Interleaving.view in *; cbn [domains] in *.
  rewrite lift_bind, await_quiet by assumption.
  destruct (Interleaving.lift getPublicIP c) as [currentIP c1] eqn:E1.
  rewrite (bind_eq _ _ _ _ _ E1).
  apply lift_pending in E1 as (Q1 & Ar1 & D1); rewrite Q in Q1.
  unfold when_truthy; destruct currentIP as [addr|]; [|now rewrite lift_ret].
  destruct (addr =? ""); [now rewrite lift_ret|].
  rewrite lift_bind.
  destruct (Interleaving.lift getLastIP c1) as [lastIP c2] eqn:E2.
  rewrite (bind_eq _ _ _ _ _ E2).
  apply lift_pending in E2 as (Q2 & Ar2 & D2); rewrite Q1 in Q2.
  destruct (strict_eq addr lastIP); [reflexivity|].
  cbv zeta. rewrite lift_bind.
  destruct (Interleaving.lift (log (MsgIPChanged lastIP addr)) c2)
    as [[] c3] eqn:E3.
  rewrite (bind_eq _ _ _ _ _ E3); cbn [snd].
  apply lift_pending in E3 as (Q3 & Ar3 & D3); rewrite Q2 in Q3.
  assert (Interleaving.array_at (Interleaving.domains_ref c3) c3 =
          Interleaving.array_at (Interleaving.domains_ref c) c) as A3.
  { unfold Interleaving.array_at; congruence. }
  rewrite (for_of_live_quiet _ _ (Hq addr) fuel _ 0 c3 Q3)
    by (rewrite A3; lia).
  rewrite skipn_O, A3, lift_bind.
  destruct (Interleaving.lift (for_of _ _) c3) as [[] c4] eqn:E4.
  now rewrite (bind_eq _ _ _ _ _ E4).
Qed.

Lemma part_000_updateDNS_quiet (fuel : nat) (c : Interleaving.config) :
  Interleaving.pending c = [] ->
  length (domains (Interleaving.view c)) < fuel ->
  Interleaving.part_000_updateDNS fuel c =
  Some (snd (Interleaving.lift
               (Part000.updateDNS (domains (Interleaving.view c))) c)).
Proof.
  apply (updateDNS_quiet Interleaving.part_000_body Part000.updateDNS_body).
  - exact part_000_body_quiet.
  - reflexivity.
Qed.

Lemma index_js_updateDNS_quiet (fuel : nat) (c : Interleaving.config) :
  Interleaving.pending c = [] ->
  length (domains (Interleaving.view c)) < fuel ->
  Interleaving.index_js_updateDNS fuel c =
  Some (snd (Interleaving.lift
               (IndexJs.updateDNS (domains (Interleaving.view c))) c)).
Proof.
  apply (updateDNS_quiet Interleaving.index_js_body IndexJs.updateDNS_body).
  - exact index_js_body_quiet.
  - reflexivity.
Qed.

(** ** The claim on the snapshot *)

Lemma only_removes_no_extra (sched : list (list Interleaving.block))
    (extra : list Domain) :
  Forall (fun d => Exists (is_add_of d) (concat sched)) extra ->
  Forall (Forall is_remove) sched -> extra = [].
Proof.
  intros F R; destruct extra as [|d extra]; [reflexivity|].
  apply Forall_inv in F. apply Exists_exists in F as (b & I & E).
  apply in_concat in I as (bs & Ib & Ibs).
  rewrite Forall_forall in R. specialize (R bs Ib).
  rewrite Forall_forall in R. specialize (R b Ibs).
  unfold is_add_of in E; subst b; contradiction.
Qed.

Lemma live_pass_follows (body : string -> Domain -> ST Interleaving.config unit) :
  (forall addr, live_attempt_spec (body addr)) ->
  forall fuel c addr,
    Interleaving.domains_ref c < length (Interleaving.arrays c) ->
    length (domains (Interleaving.view c))
      + length (concat (Interleaving.pending c)) < fuel ->
    fst (getPublicIP (Interleaving.wld c)) = Some addr -> addr <> "" ->
    last_known_ip (Interleaving.wld c) <> Some addr ->
    follows_live_array (Interleaving.updateDNS_with body) fuel c.
Proof.
  intros Hb fuel c addr Hr M H1 H2 H3.
  destruct (live_pass_spec body Hb fuel c addr Hr M H1 H2 H3)
    as (c' & extra & E & Z & A & F).
  exists c', extra; unfold attempted; rewrite E; simpl.
  repeat split; try assumption.
  - now rewrite Z.
  - now apply only_removes_no_extra.
Qed.

(** C9, as amended.  A pass that goes through the domains iterates the
    array object bound to [domains] when its loop starts, not a copy.
    Whatever handlers run at its suspensions, it ends; it attempts every
    domain that array held when the loop started, in order: a removal
    rebinds [domains] to a new array and takes nothing away from the pass;
    and it attempts besides, after them, exactly the domains that adds
    pushed into that array while the loop was running. *)
Theorem C9_pass_iterates_the_live_array
    (fuel : nat) (c : Interleaving.config) (addr : string) :
  Interleaving.domains_ref c < length (Interleaving.arrays c) ->
  length (domains (Interleaving.view c))
    + length (concat (Interleaving.pending c)) < fuel ->
  fst (getPublicIP (Interleaving.wld c)) = Some addr -> addr <> "" ->
  last_known_ip (Interleaving.wld c) <> Some addr ->
  follows_live_array Interleaving.part_000_updateDNS fuel c /\
  follows_live_array Interleaving.index_js_updateDNS fuel c.
Proof.
  intros Hr M H1 H2 H3; split.
  - exact (live_pass_follows _ part_000_body_live fuel c addr Hr M H1 H2 H3).
  - exact (live_pass_follows _ index_js_body_live fuel c addr Hr M H1 H2 H3).
Qed.

(** A removal of the only domain, arriving while its zone lookup is
    pending: the pass attempts it all the same. *)
Lemma C9_pass_iterates_the_live_array_witness :
  let c := racing_config
             [[]; [Interleaving.RemoveBlock (Some "example.com")
                     (Some "home.example.com")]] in
  follows_live_array Interleaving.part_000_updateDNS 3 c /\
  follows_live_array Interleaving.index_js_updateDNS 3 c.
Proof.
  apply (C9_pass_iterates_the_live_array 3 _ "203.0.113.5").
  - simpl; lia.
  - simpl; lia.
  - reflexivity.
  - discriminate.
  - discriminate.
Defined.

(** C9 as stated fails for an add.  The process manages
    [home.example.com]; while the zone lookup for it is pending, a
    [POST /domains] for [a.nowhere.test] is handled.  The array held
    [home.example.com] alone when the pass and its loop started, and the
    same pass without the request asks for one zone; with the request it
    goes on to ask for the zone of the domain just added. *)
Lemma C9_concurrent_add_joins_the_pass :
  let add := Interleaving.AddBlock (Some "nowhere.test") (Some "a.nowhere.test") in
  let quiet := racing_config [] in
  let racing := racing_config [[]; [add]] in
  domains (Interleaving.view racing) = [home] /\
  domains (Interleaving.view (snd (Interleaving.await getPublicIP racing)))
    = [home] /\
  attempted quiet (Interleaving.part_000_updateDNS 4 quiet)
    = Some ["example.com"] /\
  attempted racing (Interleaving.part_000_updateDNS 4 racing)
    = Some ["example.com"; "nowhere.test"] /\
  attempted quiet (Interleaving.index_js_updateDNS 4 quiet)
    = Some ["example.com"] /\
  attempted racing (Interleaving.index_js_updateDNS 4 racing)
    = Some ["example.com"; "nowhere.test"].
Proof. cbv zeta; repeat split; vm_compute; reflexivity. Qed.


(** * Further properties of the code *)

(** ** [DELETE /domains] and the validation of the body *)

Lemma filter_absent (z r : string) (ds : list Domain) :
  ~ In (mkDomain z r) ds ->
  filter (fun d => negb (same_domain z r d)) ds = ds.
Proof.
  induction ds as [|d ds IH]; simpl; [reflexivity|].
  intros N. destruct (same_domain z r d) eqn:E; simpl.
  - apply same_domain_eq in E; subst d. destruct N; now left.
  - f_equal; apply IH; intros I; apply N; now right.
Qed.

Lemma filter_present_shorter (z r : string) (ds : list Domain) :
  In (mkDomain z r) ds ->
  length (filter (fun d => negb (same_domain z r d)) ds) < length ds.
Proof.
  induction ds as [|d ds IH]; simpl; [contradiction|].
  intros I.
  pose proof (filter_length_le (fun d => negb (same_domain z r d)) ds) as L.
  destruct (same_domain z r d) eqn:E; simpl; [lia|].
  destruct I as [->|I].
  - rewrite (proj2 (same_domain_eq z r (mkDomain z r)) eq_refl) in E.
    discriminate.
  - specialize (IH I); lia.
Qed.

Lemma filter_removes (z r : string) (ds : list Domain) (d : Domain) :
  In d (filter (fun d => negb (same_domain z r d)) ds) <->
  In d ds /\ d <> mkDomain z r.
Proof.
  rewrite filter_In, negb_true_iff; split; intros [I N]; split; auto.
  - intros ->.
    rewrite (proj2 (same_domain_eq z r (mkDomain z r)) eq_refl) in N.
    discriminate.
  - destruct (same_domain z r d) eqn:E; [|reflexivity].
    apply same_domain_eq in E; contradiction.
Qed.

Lemma delete_domains_absent (z r : string) (s : state) :
  z <> "" -> r <> "" -> ~ In (mkDomain z r) (domains s) ->
  delete_domains (Some z) (Some r) s = (mkResponse 404 (JMessage TxtNotFound), s).
Proof.
  intros Hz Hr N; unfold delete_domains.
  rewrite !when_truthy_some by assumption.
  rewrite (filter_absent z r _ N), Nat.eqb_refl.
  destruct s; reflexivity.
Qed.

Lemma delete_domains_present (z r : string) (s : state) :
  z <> "" -> r <> "" -> In (mkDomain z r) (domains s) ->
  let ds := filter (fun d => negb (same_domain z r d)) (domains s) in
  delete_domains (Some z) (Some r) s =
    (mkResponse 200 (JMessageDomains TxtRemoved ds),
     {| domains := ds;
        env := add_events (set_domains_json ds (env s))
                 [WriteDomains ds; Log (MsgDomainRemoved z r)] |}).
Proof.
  intros Hz Hr I; cbv zeta; unfold delete_domains.
  rewrite !when_truthy_some by assumption.
  pose proof (filter_present_shorter z r _ I) as L.
  destruct (Nat.eqb_spec
              (length (filter (fun d => negb (same_domain z r d)) (domains s)))
              (length (domains s))) as [E|_]; [lia|].
  unfold bind, saveDomains, log, emit, add_events, set_domains_json; simpl.
  now rewrite <- app_assoc.
Qed.

(** ** [POST /domains] when the write of [last_ip.txt] returns *)

(** X17.  When [fs.writeFileSync] returns, an accepted add (both fields
    given, the pair not yet managed) appends the pair to [domains] and
    writes [domains.json] before anything else; in the service with the
    immediate update this comes before the first network call, and
    [domains.json] is not written again.  Whatever the reply, the pair is
    in [domains] and in [domains.json].  The reply depends on how far the
    immediate update got, not on what the provider answered to the update
    or creation call: 500 when no address was resolved (no provider call),
    400 when the zone identifier did not resolve, 201 as soon as the update
    or creation call was made.  [index.js] appends, persists and replies
    201, with no network call at all. *)
Theorem X17_add_persists_then_reports
    (z r : string) (s : state) :
  z <> "" -> r <> "" -> ~ In (mkDomain z r) (domains s) ->
  let ds := domains s ++ [mkDomain z r] in
  let res := fst (Part000.post_domains (Some z) (Some r) s) in
  let s' := snd (Part000.post_domains (Some z) (Some r) s) in
  let evs := new_events (env s) (env s') in
  domains s' = ds /\
  domains_json (env s') = Content ds /\
  (exists rs rest,
     evs = WriteDomains ds :: Log (MsgDomainAdded z r)
             :: Http GET_ipify rs :: rest /\
     filter is_write rest = filter is_last_ip_write rest) /\
  reply_tells z r ds res (provider_calls evs) /\
  IndexJs.post_domains (Some z) (Some r) s =
    (mkResponse 201 (JMessageDomains TxtAdded ds),
     {| domains := ds; env := after_add z r ds (env s) |}) /\
  new_events (env s) (after_add z r ds (env s)) =
    [WriteDomains ds; Log (MsgDomainAdded z r)].
Proof.
  intros Hz Hr Hn; cbv zeta.
  pose proof (not_in_existsb _ _ _ Hn) as Hd.
  rewrite (post_domains_accepted z r s Hz Hr Hd); simpl.
  set (ds := domains s ++ [mkDomain z r]).
  set (w1 := after_add z r ds (env s)).
  pose proof (post_domains_update_cases z r ds w1) as P.
  destruct (add_run_frame _ _ _ _ _ _ P) as (J & rest & Tr & W).
  pose proof (add_run_reply _ _ _ _ _ _ P) as R.
  set (w' := snd (Part000.post_domains_update z r ds w1)) in *.
  assert (new_events (env s) w' =
          WriteDomains ds :: Log (MsgDomainAdded z r)
            :: new_events w1 w') as E.
  { rewrite (new_events_trace w1 w' _ Tr).
    apply new_events_trace; rewrite Tr; unfold w1, after_add; simpl.
    list_norm. }
  repeat split.
  - rewrite J; reflexivity.
  - exists (network w1 (trace w1) GET_ipify), rest; split; [|assumption].
    rewrite E, (new_events_trace w1 w' _ Tr); reflexivity.
  - rewrite E; exact R.
  - now apply index_post_domains_accepted.
  - now apply new_events_trace.
Qed.

Lemma X17_add_persists_then_reports_witness :
  let s := {| domains := [home]; env := offline_world |} in
  let s' := snd (Part000.post_domains (Some "example.com")
                   (Some "new.example.com") s) in
  domains s' = [home; fresh] /\
  domains_json (env s') = Content [home; fresh].
Proof.
  cbv zeta.
  pose proof (X17_add_persists_then_reports "example.com" "new.example.com"
                {| domains := [home]; env := offline_world |}) as H.
  cbv zeta in H.
  assert ("example.com" <> "") as Hz by discriminate.
  assert ("new.example.com" <> "") as Hr by discriminate.
  assert (~ In fresh [home]) as Hn.
  { simpl; intros [E|[]]; discriminate E. }
  destruct (H Hz Hr Hn) as (D & J & _).
  split; [exact D|exact J].
Defined.

(** ** [POST /domains] when the write of [last_ip.txt] throws *)






(** ** [DELETE /domains] of a pair that is not managed *)

(** X1.  A removal of a pair that is not managed (both fields given) is
    answered 404; nothing is written, nothing is logged, and [domains] lists
    the same pairs as before.  It is no longer the same array object,
    though: the handler binds [domains] to the copy made by [filter] before
    it tests the length.  On the heap, [domains] then names a new array with
    the same elements, the array it named is left as it was, and what a
    later add pushes goes into the copy: it does not reach the array a
    suspended pass is going through. *)
Theorem X1_remove_of_unmanaged_pair_is_404 (z r : string) :
  z <> "" -> r <> "" ->
  (forall s,
     ~ In (mkDomain z r) (domains s) ->
     delete_domains (Some z) (Some r) s =
       (mkResponse 404 (JMessage TxtNotFound), s)) /\
  (forall c,
     Interleaving.domains_ref c < length (Interleaving.arrays c) ->
     ~ In (mkDomain z r) (domains (Interleaving.view c)) ->
     let old := Interleaving.domains_ref c in
     let c' := Interleaving.run_block c
                 (Interleaving.RemoveBlock (Some z) (Some r)) in
     Interleaving.view c' = Interleaving.view c /\
     Interleaving.domains_ref c' = length (Interleaving.arrays c) /\
     Interleaving.domains_ref c' <> old /\
     Interleaving.array_at old c' = Interleaving.array_at old c /\
     forall z' r',
       Interleaving.array_at old
         (Interleaving.run_block c' (Interleaving.AddBlock z' r'))
       = Interleaving.array_at old c).
Proof.
  intros Hz Hr; split; [intros s; now apply delete_domains_absent|].
  intros c A N; cbv zeta.
  assert (Interleaving.run_block c (Interleaving.RemoveBlock (Some z) (Some r))
          = {| Interleaving.arrays :=
                 Interleaving.arrays c ++ [domains (Interleaving.view c)];
               Interleaving.domains_ref := length (Interleaving.arrays c);
               Interleaving.wld := Interleaving.wld c;
               Interleaving.pending := Interleaving.pending c |}) as E.
  { cbn [Interleaving.run_block]; unfold Interleaving.delete_domains.
    rewrite !when_truthy_some by assumption; cbv zeta.
    change (Interleaving.array_at (Interleaving.domains_ref c) c)
      with (domains (Interleaving.view c)).
    now rewrite (filter_absent z r _ N), Nat.eqb_refl. }
  rewrite E; clear E.
  assert (forall hp : list (list Domain),
            nth (Interleaving.domains_ref c) (Interleaving.arrays c ++ hp) []
            = nth (Interleaving.domains_ref c) (Interleaving.arrays c) [])
    as Old by (intros hp; now apply app_nth1).
  split; [|split; [reflexivity|split; [simpl; lia|split]]].
  - unfold Interleaving.view, Interleaving.array_at; simpl.
    now rewrite nth_middle.
  - unfold Interleaving.array_at; simpl; apply Old.
  - intros z' r'; cbn [Interleaving.run_block].
    unfold Interleaving.post_domains_sync, when_truthy.
    destruct z' as [z'|]; [|unfold Interleaving.array_at; simpl; apply Old].
    destruct (z' =? ""); [unfold Interleaving.array_at; simpl; apply Old|].
    destruct r' as [r'|]; [|unfold Interleaving.array_at; simpl; apply Old].
    destruct (r' =? ""); [unfold Interleaving.array_at; simpl; apply Old|].
    destruct (existsb _ _);
      [unfold Interleaving.array_at; simpl; apply Old|].
    unfold Interleaving.array_at; simpl.
    rewrite nth_store_other by lia. apply Old.
Qed.

(** [new.example.com] is not managed.  Its removal is answered 404 and
    moves [domains] to a new array; an add that comes after it, while a pass
    is suspended, does not join that pass, which an add alone does. *)
Lemma X1_remove_of_unmanaged_pair_is_404_witness :
  let s := {| domains := [home]; env := offline_world |} in
  let remove := Interleaving.RemoveBlock (Some "example.com")
                  (Some "new.example.com") in
  let add := Interleaving.AddBlock (Some "nowhere.test")
               (Some "a.nowhere.test") in
  delete_domains (Some "example.com") (Some "new.example.com") s =
    (mkResponse 404 (JMessage TxtNotFound), s) /\
  Interleaving.domains_ref (Interleaving.run_block (racing_config []) remove)
    = 1 /\
  attempted (racing_config [[]; [add]])
    (Interleaving.part_000_updateDNS 4 (racing_config [[]; [add]]))
    = Some ["example.com"; "nowhere.test"] /\
  attempted (racing_config [[]; [remove; add]])
    (Interleaving.part_000_updateDNS 4 (racing_config [[]; [remove; add]]))
    = Some ["example.com"].
Proof.
  cbv zeta.
  assert ("example.com" <> "") as Hz by discriminate.
  assert ("new.example.com" <> "") as Hr by discriminate.
  assert (~ In fresh [home]) as Hn.
  { simpl; intros [E|[]]; discriminate E. }
  destruct (X1_remove_of_unmanaged_pair_is_404 "example.com"
              "new.example.com" Hz Hr) as [V H].
  split; [exact (V {| domains := [home]; env := offline_world |} Hn)|].
  split; [|split; vm_compute; reflexivity].
  assert (0 < 1) as A by lia.
  exact (proj1 (proj2 (H (racing_config []) A Hn))).
Defined.

(** X2.  A removal of a managed pair is answered 200 with the new array:
    the pair is gone, every other pair is kept (one element less when no
    pair was listed twice), [domains.json] holds the new array,
    [last_ip.txt] is untouched, and the only events are the write of
    [domains.json] and a log line: no request is sent to the provider, so
    the published record stays.  The same removal again is answered
    404. *)
Theorem X2_remove_of_managed_pair (z r : string) (s : state) :
  z <> "" -> r <> "" -> In (mkDomain z r) (domains s) ->
  let res := fst (delete_domains (Some z) (Some r) s) in
  let s' := snd (delete_domains (Some z) (Some r) s) in
  res = mkResponse 200 (JMessageDomains TxtRemoved (domains s')) /\
  ~ In (mkDomain z r) (domains s') /\
  (forall d, In d (domains s') <-> In d (domains s) /\ d <> mkDomain z r) /\
  (NoDup (domains s) -> S (length (domains s')) = length (domains s)) /\
  domains_json (env s') = Content (domains s') /\
  last_ip_txt (env s') = last_ip_txt (env s) /\
  new_events (env s) (env s') =
    [WriteDomains (domains s'); Log (MsgDomainRemoved z r)] /\
  delete_domains (Some z) (Some r) s' =
    (mkResponse 404 (JMessage TxtNotFound), s').
Proof.
  intros Hz Hr I; cbv zeta.
  rewrite (delete_domains_present z r s Hz Hr I); simpl.
  set (ds := filter (fun d => negb (same_domain z r d)) (domains s)).
  assert (~ In (mkDomain z r) ds) as N
    by (intros J; apply filter_removes in J as [_ J]; now apply J).
  split; [reflexivity|]. split; [exact N|].
  split; [intros d; apply filter_removes|].
  split; [|split; [reflexivity|split; [reflexivity|split]]].
  - intros ND. unfold ds. clear - ND I.
    induction (domains s) as [|d l IH]; simpl in *; [contradiction|].
    inversion ND as [|? ? Nd NDl]; subst.
    destruct (same_domain z r d) eqn:E; simpl.
    + apply same_domain_eq in E; subst d.
      now rewrite (filter_absent z r l Nd).
    + destruct I as [->|I].
      * rewrite (proj2 (same_domain_eq z r (mkDomain z r)) eq_refl) in E.
        discriminate.
      * now rewrite (IH I NDl).
  - now apply new_events_trace.
  - now apply delete_domains_absent.
Qed.

Lemma X2_remove_of_managed_pair_witness :
  let s := {| domains := [home; fresh]; env := offline_world |} in
  let s' := snd (delete_domains (Some "example.com") (Some "home.example.com") s) in
  ~ In home (domains s') /\
  domains_json (env s') = Content (domains s').
Proof.
  cbv zeta.
  pose proof (X2_remove_of_managed_pair "example.com" "home.example.com"
                {| domains := [home; fresh]; env := offline_world |}) as H.
  cbv zeta in H.
  assert ("example.com" <> "") as Hz by discriminate.
  assert ("home.example.com" <> "") as Hr by discriminate.
  assert (In home [home; fresh]) as Hi by (now left).
  destruct (H Hz Hr Hi) as (_ & N & _ & _ & J & _).
  split; [exact N|exact J].
Defined.

Lemma filter_added (z r : string) (ds : list Domain) :
  ~ In (mkDomain z r) ds ->
  filter (fun d => negb (same_domain z r d)) (ds ++ [mkDomain z r]) = ds.
Proof.
  intros N; rewrite filter_app, (filter_absent z r ds N); simpl.
  rewrite (proj2 (same_domain_eq z r (mkDomain z r)) eq_refl); simpl.
  apply app_nil_r.
Qed.

(** X3.  Adding a pair that is not managed and then removing it gives back
    the array there was, in [domains] and in [domains.json], whatever
    happened to the immediate update in between; the removal is answered
    200 with that array.  This holds with the add of either file. *)
Theorem X3_add_then_remove_restores_the_set (z r : string) (s : state) :
  z <> "" -> r <> "" -> ~ In (mkDomain z r) (domains s) ->
  let back (added : state) :=
    In (mkDomain z r) (domains added) /\
    fst (delete_domains (Some z) (Some r) added)
      = mkResponse 200 (JMessageDomains TxtRemoved (domains s)) /\
    domains (snd (delete_domains (Some z) (Some r) added)) = domains s /\
    domains_json (env (snd (delete_domains (Some z) (Some r) added)))
      = Content (domains s) in
  back (snd (Part000.post_domains (Some z) (Some r) s)) /\
  back (snd (IndexJs.post_domains (Some z) (Some r) s)).
Proof.
  intros Hz Hr N; cbv zeta.
  assert (forall added,
            domains added = domains s ++ [mkDomain z r] ->
            In (mkDomain z r) (domains added) /\
            fst (delete_domains (Some z) (Some r) added)
              = mkResponse 200 (JMessageDomains TxtRemoved (domains s)) /\
            domains (snd (delete_domains (Some z) (Some r) added)) = domains s /\
            domains_json (env (snd (delete_domains (Some z) (Some r) added)))
              = Content (domains s)) as B.
  { intros added E.
    assert (In (mkDomain z r) (domains added)) as I
      by (rewrite E; apply in_or_app; right; now left).
    rewrite (delete_domains_present z r added Hz Hr I); simpl.
    rewrite E, (filter_added z r _ N).
    repeat split; apply in_or_app; right; now left. }
  split; apply B.
  - rewrite (post_domains_accepted z r s Hz Hr (not_in_existsb _ _ _ N)).
    reflexivity.
  - rewrite (index_post_domains_accepted z r s Hz Hr (not_in_existsb _ _ _ N)).
    reflexivity.
Qed.

Lemma X3_add_then_remove_restores_the_set_witness :
  let s := {| domains := [home]; env := demo_world Missing "203.0.113.5" |} in
  domains (snd (delete_domains (Some "example.com") (Some "new.example.com")
                  (snd (Part000.post_domains (Some "example.com")
                          (Some "new.example.com") s)))) = [home].
Proof.
  cbv zeta.
  pose proof (X3_add_then_remove_restores_the_set "example.com"
                "new.example.com"
                {| domains := [home]; env := demo_world Missing "203.0.113.5" |})
    as H.
  cbv zeta in H.
  assert ("example.com" <> "") as Hz by discriminate.
  assert ("new.example.com" <> "") as Hr by discriminate.
  assert (~ In fresh [home]) as Hn.
  { simpl; intros [E|[]]; discriminate E. }
  destruct (H Hz Hr Hn) as ((_ & _ & D & _) & _).
  exact D.
Defined.

(** ** The array and its file *)

Lemma in_domains_dec (z r : string) (ds : list Domain) :
  {In (mkDomain z r) ds} + {~ In (mkDomain z r) ds}.
Proof.
  destruct (existsb (same_domain z r) ds) eqn:E.
  - left; now apply existsb_same_domain.
  - right; intros I; apply existsb_same_domain in I; congruence.
Qed.

Lemma delete_domains_persisted (z r : option string) (s : state) :
  persisted s -> persisted (snd (delete_domains z r s)).
Proof.
  intros P.
  destruct z as [z|]; [|exact P].
  destruct (String.eqb_spec z "") as [->|Hz]; [exact P|].
  destruct r as [r|]; [|unfold delete_domains; now rewrite when_truthy_some].
  destruct (String.eqb_spec r "") as [->|Hr];
    [unfold delete_domains; now rewrite when_truthy_some|].
  destruct (in_domains_dec z r (domains s)) as [I|N].
  - rewrite (delete_domains_present z r s Hz Hr I); left; reflexivity.
  - now rewrite (delete_domains_absent z r s Hz Hr N).
Qed.

Lemma post_domains_duplicate (z r : string) (s : state) :
  z <> "" -> r <> "" -> In (mkDomain z r) (domains s) ->
  Part000.post_domains (Some z) (Some r) s =
    (mkResponse 400 (JMessage TxtAlreadyExists), s).
Proof.
  intros Hz Hr I; unfold Part000.post_domains, Part000.post_domains_on.
  rewrite !when_truthy_some by assumption.
  now rewrite (proj2 (existsb_same_domain z r (domains s)) I).
Qed.

Lemma post_domains_persisted (z r : option string) (s : state) :
  persisted s -> persisted (snd (Part000.post_domains z r s)).
Proof.
  intros P.
  destruct z as [z|]; [|exact P].
  destruct (String.eqb_spec z "") as [->|Hz]; [exact P|].
  destruct r as [r|];
    [|unfold Part000.post_domains, Part000.post_domains_on; now rewrite when_truthy_some].
  destruct (String.eqb_spec r "") as [->|Hr];
    [unfold Part000.post_domains, Part000.post_domains_on; now rewrite when_truthy_some|].
  destruct (in_domains_dec z r (domains s)) as [I|N].
  - now rewrite (post_domains_duplicate z r s Hz Hr I).
  - rewrite (post_domains_accepted z r s Hz Hr (not_in_existsb _ _ _ N)).
    left; simpl.
    now destruct (add_run_frame _ _ _ _ _ _
                    (post_domains_update_cases z r (domains s ++ [mkDomain z r])
                       (after_add z r (domains s ++ [mkDomain z r]) (env s))))
      as (-> & _).
Qed.

Lemma missing_field (z r : option string) (s : state) :
  truthy z = false \/ truthy r = false ->
  let bad := (mkResponse 400 (JMessage TxtFieldsRequired), s) in
  Part000.post_domains z r s = bad /\
  IndexJs.post_domains z r s = bad /\
  delete_domains z r s = bad.
Proof.
  intros H; cbv zeta.
  assert (forall A (no : A) (yes : string -> string -> A),
            when_truthy z no (fun z => when_truthy r no (fun r => yes z r)) = no)
    as W.
  { intros A no yes. destruct H as [H|H].
    - now apply when_truthy_falsy.
    - unfold when_truthy at 1. destruct z as [z'|]; [|reflexivity].
      destruct (z' =? ""); [reflexivity|].
      now apply when_truthy_falsy. }
  unfold Part000.post_domains, Part000.post_domains_on, IndexJs.post_domains, delete_domains.
  repeat split; apply W.
Qed.

Lemma body_fields (z r : option string) :
  (truthy z = false \/ truthy r = false) \/
  exists z' r', z = Some z' /\ r = Some r' /\ z' <> "" /\ r' <> "".
Proof.
  destruct (truthy_cases z) as [(z' & -> & Hz)|T]; [|now left; left].
  destruct (truthy_cases r) as [(r' & -> & Hr)|T]; [|now left; right].
  right; exists z', r'; auto.
Qed.

Lemma keeps_permission_refl (w : world) : keeps_permission w w.
Proof. split; auto. Qed.

Lemma keeps_permission_trans (w1 w2 w3 : world) :
  keeps_permission w1 w2 -> keeps_permission w2 w3 -> keeps_permission w1 w3.
Proof.
  intros [A B] [C D]; split; [auto|].
  intros M; destruct (B M) as [M2 E2]; destruct (D M2) as [M3 E3].
  split; [exact M3|congruence].
Qed.

Lemma keeps_permission_saved (ds : list Domain) (w : world)
    (evs : list event) :
  keeps_permission w (add_events (set_domains_json ds w) evs).
Proof.
  split; simpl.
  - intros E; destruct (domains_json w); simpl; auto.
  - intros M; split; [discriminate|].
    destruct (domains_json w); simpl; congruence.
Qed.

Lemma pass_run_keeps_permission
    (shape : string -> Domain -> outcome -> list event -> Prop)
    (ds : list Domain) (w w' : world) :
  pass_run shape ds w w' -> keeps_permission w w'.
Proof. intros []; split; simpl; auto. Qed.

Lemma add_run_keeps_permission (z r : string) (ds : list Domain)
    (w w' : world) (res : http_response) :
  add_run z r ds w res w' -> keeps_permission w w'.
Proof. intros []; split; simpl; auto. Qed.

Lemma delete_domains_keeps_permission (z r : option string) (s : state) :
  keeps_permission (env s) (env (snd (delete_domains z r s))).
Proof.
  destruct (body_fields z r) as [M|(z' & r' & -> & -> & Hz & Hr)].
  - destruct (missing_field _ _ s M) as (_ & _ & ->).
    apply keeps_permission_refl.
  - destruct (in_domains_dec z' r' (domains s)) as [I|N].
    + rewrite (delete_domains_present z' r' s Hz Hr I).
      apply keeps_permission_saved.
    + rewrite (delete_domains_absent z' r' s Hz Hr N).
      apply keeps_permission_refl.
Qed.

Lemma post_domains_keeps_permission (z r : option string) (s : state) :
  keeps_permission (env s) (env (snd (Part000.post_domains z r s))).
Proof.
  destruct (body_fields z r) as [M|(z' & r' & -> & -> & Hz & Hr)].
  - destruct (missing_field _ _ s M) as (-> & _).
    apply keeps_permission_refl.
  - destruct (in_domains_dec z' r' (domains s)) as [I|N].
    + rewrite (post_domains_duplicate z' r' s Hz Hr I).
      apply keeps_permission_refl.
    + rewrite (post_domains_accepted z' r' s Hz Hr (not_in_existsb _ _ _ N)).
      simpl.
      apply (keeps_permission_trans _
               (after_add z' r' (domains s ++ [mkDomain z' r']) (env s))).
      * apply keeps_permission_saved.
      * apply (add_run_keeps_permission _ _ _ _ _ _
                 (post_domains_update_cases z' r' _ _)).
Qed.

Lemma step_keeps_permission (API_KEY : option string) (s : state) :
  keeps_permission (env s) (env (Part000.tick s)) /\
  forall req,
    keeps_permission (env s) (env (snd (Part000.app API_KEY req s))).
Proof.
  split.
  - apply (pass_run_keeps_permission _ _ _ _
             (part_000_pass (domains s) (env s))).
  - intros req; unfold Part000.app.
    destruct (Part000.authenticate API_KEY req);
      [|apply keeps_permission_refl].
    destruct (rt req); try apply keeps_permission_refl.
    + apply post_domains_keeps_permission.
    + apply delete_domains_keeps_permission.
Qed.

Lemma reachable_persisted (API_KEY : option string) (w0 : world) (s : state) :
  domains_json w0 = Missing \/ domains_denied w0 = None ->
  reachable API_KEY w0 s ->
  persisted s /\ domains_denied (env s) = None.
Proof.
  intros H R; induction R as [|s R IH|s req R IH].
  - unfold load_domains, persisted, read.
    destruct H as [E|E]; rewrite E.
    + simpl; rewrite E; auto.
    + destruct (domains_json w0) as [|err|ds] eqn:F; simpl; rewrite ?F, ?E;
        eauto.
  - destruct IH as [P D]; split.
    + unfold Part000.tick, run, persisted in *; simpl.
      now rewrite (pass_run_domains_json _ _ _ _
                     (part_000_pass (domains s) (env s))).
    + now apply (proj1 (step_keeps_permission API_KEY s)).
  - destruct IH as [P D]; split.
    + unfold Part000.app.
      destruct (Part000.authenticate API_KEY req); [|exact P].
      destruct (rt req); try exact P.
      * now apply post_domains_persisted.
      * now apply delete_domains_persisted.
    + now apply (proj2 (step_keeps_permission API_KEY s)).
Qed.

Lemma reachable_denied (API_KEY : option string) (w0 : world) (s : state)
    (err : string) :
  domains_json w0 <> Missing -> domains_denied w0 = Some err ->
  reachable API_KEY w0 s ->
  domains_json (env s) <> Missing /\ domains_denied (env s) = Some err.
Proof.
  intros M D R; induction R as [|s R IH|s req R IH].
  - unfold load_domains, read; rewrite D.
    destruct (domains_json w0) eqn:F; [contradiction| |]; simpl;
      rewrite F, D; split; auto; discriminate.
  - destruct IH as [M' D'].
    destruct (proj2 (proj1 (step_keeps_permission API_KEY s)) M') as [A B].
    split; [exact A|congruence].
  - destruct IH as [M' D'].
    destruct (proj2 (proj2 (step_keeps_permission API_KEY s) req) M')
      as [A B].
    split; [exact A|congruence].
Qed.

(** X4.  The managed set survives a restart when the process can read
    [domains.json].  Started on a file that is absent, or that it may read
    (whether or not its text can be parsed), the process is at every moment
    in a state where the initialisation run again on the files as they are
    gives the array it holds: [domains.json] holds that array, or it still
    cannot be parsed and the array is still empty.  Started on a file that
    it may write but not read, the initialisation run again gives the empty
    array at every moment, whatever the process holds and has written. *)
Theorem X4_restart_gives_the_same_set
    (API_KEY : option string) (w0 : world) (s : state) :
  reachable API_KEY w0 s ->
  (domains_json w0 = Missing \/ domains_denied w0 = None ->
     persisted s /\ domains (load_domains (env s)) = domains s) /\
  (forall err,
     domains_json w0 <> Missing -> domains_denied w0 = Some err ->
     domains (load_domains (env s)) = []).
Proof.
  intros R; split.
  - intros H; destruct (reachable_persisted _ _ _ H R) as [P D].
    split; [exact P|].
    unfold load_domains, read; rewrite D.
    destruct P as [E|(E & err & F)]; rewrite ?E, ?F; simpl; congruence.
  - intros err M D.
    destruct (reachable_denied _ _ _ err M D R) as [M' D'].
    unfold load_domains, read; rewrite D'.
    destruct (domains_json (env s)); [contradiction| |]; reflexivity.
Qed.

(** A first run, then an accepted add: a restart finds the pair.  The same
    on a [domains.json] the process may not read: the pair is held and
    written, and a restart finds nothing. *)
Lemma X4_restart_gives_the_same_set_witness :
  let req := mkRequest POST_domains (Some "secret")
               (Some "example.com") (Some "home.example.com") in
  let s := snd (Part000.app (Some "secret") req
                  (load_domains (demo_world Missing "203.0.113.5"))) in
  let s' := snd (Part000.app (Some "secret") req (load_domains write_only_world)) in
  (domains s = [home] /\ domains (load_domains (env s)) = domains s) /\
  (domains s' = [home] /\ domains_json (env s') = Content [home] /\
   domains (load_domains (env s')) = []).
Proof.
  cbv zeta; split.
  - split; [reflexivity|].
    apply (X4_restart_gives_the_same_set (Some "secret")
             (demo_world Missing "203.0.113.5")).
    + apply reach_request, reach_start.
    + now left.
  - split; [reflexivity|split; [reflexivity|]].
    apply (X4_restart_gives_the_same_set (Some "secret") write_only_world)
      with (err := "EACCES: permission denied, open 'domains.json'").
    + apply reach_request, reach_start.
    + discriminate.
    + reflexivity.
Defined.

(** X5.  Behind the API key, the two files manage the set in the same
    way: for a request that passes [authenticate], the application with
    authentication and the one of [index.js] leave the same array in
    [domains] and the same content in [domains.json]; on every route but
    [POST /domains] they give the same reply and the same state. *)
Theorem X5_both_files_manage_the_set_alike
    (API_KEY : option string) (req : http_request) (s : state) :
  Part000.authenticate API_KEY req = true ->
  domains (snd (Part000.app API_KEY req s))
    = domains (snd (IndexJs.app req s)) /\
  domains_json (env (snd (Part000.app API_KEY req s)))
    = domains_json (env (snd (IndexJs.app req s))) /\
  (rt req <> POST_domains -> Part000.app API_KEY req s = IndexJs.app req s).
Proof.
  intros A; unfold Part000.app, IndexJs.app; rewrite A.
  destruct (rt req); try (repeat split; reflexivity).
  assert (domains (snd (Part000.post_domains (body_zone req) (body_record req) s))
            = domains (snd (IndexJs.post_domains (body_zone req) (body_record req) s)) /\
          domains_json (env (snd (Part000.post_domains (body_zone req) (body_record req) s)))
            = domains_json (env (snd (IndexJs.post_domains (body_zone req) (body_record req) s))))
    as [D J]; [|split; [exact D|split; [exact J|congruence]]].
  destruct (body_fields (body_zone req) (body_record req))
    as [M|(z & r & -> & -> & Hz & Hr)].
  - destruct (missing_field _ _ s M) as (-> & -> & _); split; reflexivity.
  - destruct (in_domains_dec z r (domains s)) as [I|N].
    + rewrite (post_domains_duplicate z r s Hz Hr I).
      unfold IndexJs.post_domains.
      rewrite !when_truthy_some by assumption.
      rewrite (proj2 (existsb_same_domain z r (domains s)) I).
      split; reflexivity.
    + pose proof (not_in_existsb _ _ _ N) as E.
      rewrite (post_domains_accepted z r s Hz Hr E),
              (index_post_domains_accepted z r s Hz Hr E); simpl.
      split; [reflexivity|].
      now destruct (add_run_frame _ _ _ _ _ _
                      (post_domains_update_cases z r (domains s ++ [mkDomain z r])
                         (after_add z r (domains s ++ [mkDomain z r]) (env s))))
        as (-> & _).
Qed.

Lemma X5_both_files_manage_the_set_alike_witness :
  let req := mkRequest POST_domains (Some "secret")
               (Some "example.com") (Some "new.example.com") in
  let s := {| domains := [home]; env := demo_world Missing "203.0.113.5" |} in
  domains (snd (Part000.app (Some "secret") req s))
    = domains (snd (IndexJs.app req s)).
Proof.
  cbv zeta.
  apply (X5_both_files_manage_the_set_alike (Some "secret")
           (mkRequest POST_domains (Some "secret")
              (Some "example.com") (Some "new.example.com"))).
  reflexivity.
Defined.

(** X6.  A body whose [zone] or [record] is absent or empty is answered
    400 "zone and record are required" and changes nothing, in
    [POST /domains] of both files and in [DELETE /domains], even when the
    other field names a managed pair. *)
Theorem X6_missing_field_is_400 (z r : option string) (s : state) :
  truthy z = false \/ truthy r = false ->
  let bad := (mkResponse 400 (JMessage TxtFieldsRequired), s) in
  Part000.post_domains z r s = bad /\
  IndexJs.post_domains z r s = bad /\
  delete_domains z r s = bad.
Proof. exact (missing_field z r s). Qed.

Lemma X6_missing_field_is_400_witness :
  let s := {| domains := [home]; env := offline_world |} in
  delete_domains (Some "example.com") (Some "") s
    = (mkResponse 400 (JMessage TxtFieldsRequired), s).
Proof.
  cbv zeta.
  apply (X6_missing_field_is_400 (Some "example.com") (Some "")).
  right; reflexivity.
Defined.

(** ** More on the timer-triggered pass *)

(** X16.  In a pass of the service with record creation that goes through
    the domains, whatever the provider answers to any call (rejections
    included): the zone of every domain of the array is asked for, in
    order, each domain gets its own create-or-update attempt decided by the
    answers to its own calls, and the pass runs to its end, the write of
    [LastKnownIP]. *)
Theorem X16_every_domain_is_attempted
    (ds : list Domain) (w : world) (addr : string) :
  fst (getPublicIP w) = Some addr -> addr <> "" ->
  last_known_ip w <> Some addr ->
  let evs := emitted (Part000.updateDNS ds) w in
  zones_requested evs = map zone ds /\
  (forall d, In d ds -> exists rs, In (Http (GET_zones (zone d)) rs) evs) /\
  attempts_each (upsert_attempt addr) ds (provider_calls evs) /\
  exists pre, evs = pre ++ [WriteLastIP addr].
Proof.
  intros H1 H2 H3; cbv zeta; unfold emitted.
  destruct (pass_run_calls _ _ _ _ _ (part_000_pass ds w) H1 H2 H3)
    as (S & Z & E).
  repeat split; try assumption.
  intros d I.
  assert (In (zone d) (zones_requested
            (new_events w (snd (Part000.updateDNS ds w))))) as J
    by (rewrite Z; now apply in_map).
  clear - J. induction (new_events _ _) as [|e l IH]; simpl in *; [contradiction|].
  destruct e as [[| z0 | | |] rs| | | |]; simpl in J;
    try (destruct (IH J) as (rs' & ?); exists rs'; now right).
  destruct J as [->|J].
  - exists rs; now left.
  - destruct (IH J) as (rs' & ?); exists rs'; now right.
Qed.

(** The zone of the first domain is unknown to the provider, the record of
    the second one is still updated in the same pass. *)
Lemma X16_every_domain_is_attempted_witness :
  let evs := emitted (Part000.updateDNS [stray; home])
               (demo_world (Content "198.51.100.7") "203.0.113.5") in
  zones_requested evs = ["nowhere.test"; "example.com"] /\
  (forall d, In d [stray; home] ->
     exists rs, In (Http (GET_zones (zone d)) rs) evs) /\
  attempts_each (upsert_attempt "203.0.113.5") [stray; home]
    (provider_calls evs) /\
  exists pre, evs = pre ++ [WriteLastIP "203.0.113.5"].
Proof.
  apply (X16_every_domain_is_attempted [stray; home]
           (demo_world (Content "198.51.100.7") "203.0.113.5") "203.0.113.5").
  - reflexivity.
  - discriminate.
  - discriminate.
Defined.


Lemma last_known_ip_set (w : world) (addr : string) (evs : list event) :
  reads_back w ->
  last_known_ip (add_events (set_last_ip addr w) evs) = Some (trim addr).
Proof.
  unfold last_known_ip, getLastIP, read; simpl.
  intros [->| ->]; [reflexivity|].
  destruct (last_ip_txt w); reflexivity.
Qed.

Lemma write_only_add (w : world) (evs : list event) :
  write_only w -> write_only (add_events w evs).
Proof. intros [A B]; split; assumption. Qed.

Lemma write_only_set (w : world) (addr : string) (evs : list event) :
  write_only w -> write_only (add_events (set_last_ip addr w) evs).
Proof.
  intros [A B]; split; simpl; [discriminate|].
  destruct (last_ip_txt w); [contradiction| |]; exact B.
Qed.

Lemma write_only_unknown (w : world) (addr : string) :
  write_only w -> last_known_ip w <> Some addr.
Proof.
  intros [A B] Q; apply last_known_ip_file in Q as (c & _ & D & _).
  contradiction.
Qed.

Lemma pass_run_write_only
    (shape : string -> Domain -> outcome -> list event -> Prop)
    (ds : list Domain) (w w' : world) :
  pass_run shape ds w w' -> write_only w -> write_only w'.
Proof.
  intros [] W; [now apply write_only_add..|now apply write_only_set].
Qed.

Lemma add_run_write_only (z r : string) (ds : list Domain) (w w' : world)
    (res : http_response) :
  add_run z r ds w res w' -> write_only w -> write_only w'.
Proof.
  intros [] W; [now apply write_only_add..|now apply write_only_set].
Qed.

Lemma pass_run_records
    (shape : string -> Domain -> outcome -> list event -> Prop)
    (ds : list Domain) (w w' : world) (addr : string) :
  pass_run shape ds w w' ->
  fst (getPublicIP w) = Some addr -> addr <> "" ->
  (last_known_ip w <> Some addr -> last_ip_txt w' = Content addr) /\
  (trim addr = addr -> reads_back w -> last_known_ip w' = Some addr).
Proof.
  intros P H1 H2; split.
  - intros Q.
    now destruct (pass_run_attempts _ _ _ _ _ P H1 H2 Q) as (? & ? & -> & _).
  - intros T B. destruct (last_known_ip_dec w addr) as [Q|Q].
    + destruct (pass_run_unchanged _ _ _ _ _ P H1 H2 Q) as (? & -> & _).
      now rewrite last_known_ip_add.
    + destruct (pass_run_attempts _ _ _ _ _ P H1 H2 Q) as (? & ? & -> & _).
      now rewrite last_known_ip_set, T.
Qed.

Lemma pass_run_silent
    (shape : string -> Domain -> outcome -> list event -> Prop)
    (ds : list Domain) (w w' : world) (addr : string) :
  pass_run shape ds w w' ->
  fst (getPublicIP w) = Some addr -> addr <> "" ->
  last_known_ip w = Some addr ->
  provider_calls (new_events w w') = [] /\
  filter is_write (new_events w w') = [] /\
  last_ip_txt w' = last_ip_txt w.
Proof.
  intros P H1 H2 Q.
  destruct (pass_run_unchanged _ _ _ _ _ P H1 H2 Q) as (logs & -> & L).
  rewrite new_events_add; simpl.
  rewrite filter_app, (writes_reports logs L).
  repeat split; norm_events; reflexivity.
Qed.

(** X7.  Two passes in a row on the same address: a pass has resolved an
    address without white space at its ends, and the next pass resolves the
    same address.  When the process can read back what it writes into
    [last_ip.txt] (the file did not exist, or it may read it), the next pass
    makes no provider call and writes no file, whatever the managed set has
    become and whatever the provider answered during the first pass.  When
    the file exists and the process may write it but not read it, the next
    pass goes through every managed domain again.  This holds in both
    files. *)
Theorem X7_next_pass_on_same_address_is_silent
    (ds ds' : list Domain) (w : world) (addr : string) :
  fst (getPublicIP w) = Some addr -> addr <> "" -> trim addr = addr ->
  let next (pass : list Domain -> IO unit) :=
    let w1 := snd (pass ds w) in
    fst (getPublicIP w1) = Some addr ->
    (reads_back w ->
       provider_calls (emitted (pass ds') w1) = [] /\
       filter is_write (emitted (pass ds') w1) = [] /\
       last_ip_txt (snd (pass ds' w1)) = last_ip_txt w1) /\
    (write_only w ->
       zones_requested (emitted (pass ds') w1) = map zone ds') in
  next Part000.updateDNS /\ next IndexJs.updateDNS.
Proof.
  intros H1 H2 T; cbv zeta; unfold emitted; split; intros G; split.
  - intros B.
    apply (pass_run_silent _ _ _ _ addr (part_000_pass ds' _) G H2).
    now apply (pass_run_records _ _ _ _ addr (part_000_pass ds w)).
  - intros W.
    apply (pass_run_calls _ _ _ _ _ (part_000_pass ds' _) G H2).
    apply write_only_unknown.
    now apply (pass_run_write_only _ _ _ _ (part_000_pass ds w)).
  - intros B.
    apply (pass_run_silent _ _ _ _ addr (index_js_pass ds' _) G H2).
    now apply (pass_run_records _ _ _ _ addr (index_js_pass ds w)).
  - intros W.
    apply (pass_run_calls _ _ _ _ _ (index_js_pass ds' _) G H2).
    apply write_only_unknown.
    now apply (pass_run_write_only _ _ _ _ (index_js_pass ds w)).
Qed.

(** The address changed; after the pass that published it, the next pass
    is silent.  With a [last_ip.txt] that the process cannot read, the next
    pass asks again for the zone of every domain. *)
Lemma X7_next_pass_on_same_address_is_silent_witness :
  let w1 := snd (Part000.updateDNS [stray; home]
                   (demo_world (Content "198.51.100.7") "203.0.113.5")) in
  let w2 := snd (Part000.updateDNS [stray; home] write_only_world) in
  provider_calls (emitted (Part000.updateDNS [stray; home; fresh]) w1) = [] /\
  zones_requested (emitted (Part000.updateDNS [stray; home; fresh]) w2)
    = ["nowhere.test"; "example.com"; "example.com"].
Proof.
  cbv zeta; split.
  - destruct (X7_next_pass_on_same_address_is_silent [stray; home]
                [stray; home; fresh]
                (demo_world (Content "198.51.100.7") "203.0.113.5")
                "203.0.113.5") as [H _].
    + reflexivity.
    + discriminate.
    + reflexivity.
    + apply H; [reflexivity|right; reflexivity].
  - destruct (X7_next_pass_on_same_address_is_silent [stray; home]
                [stray; home; fresh] write_only_world "203.0.113.5")
      as [H _].
    + reflexivity.
    + discriminate.
    + reflexivity.
    + apply H; [reflexivity|split; discriminate].
Defined.

(** X8.  A pass that goes through the domains (an address was resolved
    and is not [LastKnownIP], which includes a missing or unreadable
    [last_ip.txt]) leaves the resolved address in [last_ip.txt], whatever
    the provider answered, even if every call was rejected, and also when
    no domain is managed, in which case it makes no provider call at all.
    This holds in both files. *)
Theorem X8_pass_records_the_address_whatever_happened
    (ds : list Domain) (w : world) (addr : string) :
  fst (getPublicIP w) = Some addr -> addr <> "" ->
  (last_known_ip w <> Some addr ->
     last_ip_txt (snd (Part000.updateDNS ds w)) = Content addr /\
     last_ip_txt (snd (IndexJs.updateDNS ds w)) = Content addr /\
     (ds = [] ->
        provider_calls (emitted (Part000.updateDNS ds) w) = [] /\
        provider_calls (emitted (IndexJs.updateDNS ds) w) = [])) /\
  (last_ip_txt w = Missing \/ (exists err, last_ip_txt w = Unreadable err) ->
     last_known_ip w <> Some addr).
Proof.
  intros H1 H2; split.
  - intros Q. split; [|split].
    + now apply (pass_run_records _ _ _ _ addr (part_000_pass ds w)).
    + now apply (pass_run_records _ _ _ _ addr (index_js_pass ds w)).
    + intros ->; unfold emitted; split.
      * destruct (provider_calls _) as [|e l] eqn:E; [reflexivity|].
        destruct (pass_run_calls _ _ _ _ _ (part_000_pass [] w) H1 H2 Q)
          as ((chunks & C & F) & _).
        inversion F; subst; rewrite E in C; discriminate C.
      * destruct (provider_calls _) as [|e l] eqn:E; [reflexivity|].
        destruct (pass_run_calls _ _ _ _ _ (index_js_pass [] w) H1 H2 Q)
          as ((chunks & C & F) & _).
        inversion F; subst; rewrite E in C; discriminate C.
  - intros H; rewrite last_known_ip_none; [discriminate|].
    destruct H as [H|H]; [left|right; left]; exact H.
Qed.

(** A [last_ip.txt] that the process may write but not read, and a
    provider that rejects every call: the pass records the address. *)
Lemma X8_pass_records_the_address_whatever_happened_witness :
  let w := {| last_ip_txt := Content "198.51.100.7"; domains_json := Missing;
              network := fun _ rq =>
                match rq with
                | GET_ipify => ok_ip "203.0.113.5"
                | _ => Rejected "timeout"
                end;
              trace := [];
              last_ip_denied :=
                Some "EACCES: permission denied, open 'last_ip.txt'";
              domains_denied := None |} in
  last_ip_txt (snd (Part000.updateDNS [home; stray] w)) = Content "203.0.113.5".
Proof.
  cbv zeta.
  match goal with |- last_ip_txt (snd (Part000.updateDNS ?ds ?w)) = _ =>
    destruct (X8_pass_records_the_address_whatever_happened ds w "203.0.113.5")
      as [H K]
  end.
  - reflexivity.
  - discriminate.
  - apply H. vm_compute; discriminate.
Defined.

Lemma attempts_each_forall
    (shape : Domain -> outcome -> list event -> Prop) (Q : event -> Prop)
    (ds : list Domain) (calls : list event) :
  attempts_each shape ds calls ->
  (forall d o c, In d ds -> shape d o c -> Forall Q c) ->
  Forall Q calls.
Proof.
  intros (chunks & -> & F) H.
  induction F as [|d c ds cs (o & S) F IH]; simpl; [constructor|].
  apply Forall_app; split.
  - apply (H d o c); [now left|assumption].
  - apply IH; intros d' o' c' I; apply H; now right.
Qed.

Lemma attempts_each_length
    (shape : Domain -> outcome -> list event -> Prop)
    (ds : list Domain) (calls : list event) :
  attempts_each shape ds calls ->
  (forall d o c, shape d o c -> 1 <= length c <= 3) ->
  length ds <= length calls <= 3 * length ds.
Proof.
  intros (chunks & -> & F) H.
  induction F as [|d c ds cs (o & S) F IH]; simpl; [lia|].
  rewrite length_app. specialize (H d o c S). lia.
Qed.

Lemma upsert_attempt_length (addr : string) (d : Domain) (o : outcome)
    (c : list event) :
  upsert_attempt addr d o c -> 1 <= length c <= 3.
Proof. intros []; simpl; lia. Qed.

Lemma update_attempt_length (addr : string) (d : Domain) (o : outcome)
    (c : list event) :
  update_attempt addr d o c -> 1 <= length c <= 3.
Proof. intros []; simpl; lia. Qed.

Lemma pass_run_bound
    (shape : string -> Domain -> outcome -> list event -> Prop)
    (ds : list Domain) (w w' : world) :
  (forall addr d o c, shape addr d o c -> 1 <= length c <= 3) ->
  pass_run shape ds w w' ->
  length (provider_calls (new_events w w')) <= 3 * length ds /\
  length (filter is_http (new_events w w'))
    = S (length (provider_calls (new_events w w'))).
Proof.
  assert (forall l, forallb is_report l = true -> filter is_http l = []) as R.
  { induction l as [|e l IH]; simpl; [reflexivity|].
    intros H; apply andb_prop in H as [He Hl].
    destruct e as [| | |[]|]; try discriminate; simpl; auto. }
  assert (forall l, forallb is_attempt_event l = true ->
                    filter is_http l = provider_calls l) as A.
  { induction l as [|e l IH]; simpl; [reflexivity|].
    intros H; apply andb_prop in H as [He Hl].
    destruct e as [[] ?| | |[]|]; try discriminate; simpl;
      now rewrite ?(IH Hl). }
  intros H [logs T L|a logs G N Q L|a logs evs G N Q L S Z Ae].
  - rewrite new_events_add; simpl; rewrite (R _ L).
    norm_events; simpl; lia.
  - rewrite new_events_add; simpl; rewrite filter_app, (R _ L).
    norm_events; simpl; lia.
  - rewrite new_events_set; simpl.
    rewrite !filter_app, (R _ L); simpl; rewrite filter_app, (A _ Ae); simpl.
    norm_events; rewrite !app_nil_r.
    split; [|reflexivity].
    apply (attempts_each_length _ _ _ S (H a)).
Qed.

(** X9.  Whatever happens, a pass sends one request to the address
    resolver and at most three requests to the DNS provider per managed
    domain (the zone lookup, the record lookup, the update or creation),
    and nothing else over the network.  This holds in both files. *)
Theorem X9_pass_makes_at_most_three_calls_per_domain
    (ds : list Domain) (w : world) :
  let bounded (evs : list event) :=
    length (provider_calls evs) <= 3 * length ds /\
    length (filter is_http evs) = S (length (provider_calls evs)) in
  bounded (emitted (Part000.updateDNS ds) w) /\
  bounded (emitted (IndexJs.updateDNS ds) w).
Proof.
  cbv zeta; unfold emitted; split.
  - apply (pass_run_bound _ _ _ _ upsert_attempt_length (part_000_pass ds w)).
  - apply (pass_run_bound _ _ _ _ update_attempt_length (index_js_pass ds w)).
Qed.

Lemma upsert_attempt_about (addr : string) (ds : list Domain) (d : Domain)
    (o : outcome) (c : list event) :
  In d ds -> upsert_attempt addr d o c -> Forall (call_about addr ds) c.
Proof.
  intros I []; repeat constructor; simpl; eauto.
Qed.

Lemma update_attempt_about (addr : string) (ds : list Domain) (d : Domain)
    (o : outcome) (c : list event) :
  In d ds -> update_attempt addr d o c ->
  Forall (fun e => call_about addr ds e /\ is_create e = false) c.
Proof.
  intros I []; repeat constructor; simpl; eauto.
Qed.

Lemma pass_run_forall
    (shape : string -> Domain -> outcome -> list event -> Prop)
    (Q : event -> Prop) (ds : list Domain) (w w' : world) (addr : string) :
  (forall d o c, In d ds -> shape addr d o c -> Forall Q c) ->
  pass_run shape ds w w' ->
  fst (getPublicIP w) = Some addr ->
  Forall Q (provider_calls (new_events w w')).
Proof.
  intros H [logs T L|a logs G N E L|a logs evs G N E L S Z A] H1.
  - rewrite new_events_add; norm_events; constructor.
  - rewrite new_events_add; norm_events; constructor.
  - assert (a = addr) by congruence; subst a.
    rewrite new_events_set; norm_events; rewrite app_nil_r.
    now apply (attempts_each_forall _ _ _ _ S).
Qed.

(** X10.  Every request a pass sends to the DNS provider concerns a
    managed domain: a zone lookup is for the zone of one, a record lookup,
    an update or a creation is for the record name of one; and every update
    or creation carries the address the pass resolved, never another one.
    The pass of [index.js] sends no creation request at all. *)
Theorem X10_pass_calls_concern_managed_domains
    (ds : list Domain) (w : world) (addr : string) :
  fst (getPublicIP w) = Some addr ->
  Forall (call_about addr ds)
    (provider_calls (emitted (Part000.updateDNS ds) w)) /\
  Forall (fun e => call_about addr ds e /\ is_create e = false)
    (provider_calls (emitted (IndexJs.updateDNS ds) w)).
Proof.
  intros H1; unfold emitted; split.
  - apply (pass_run_forall upsert_attempt _ ds w _ addr); auto.
    + intros d o c; apply upsert_attempt_about.
    + apply part_000_pass.
  - apply (pass_run_forall update_attempt _ ds w _ addr); auto.
    + intros d o c; apply update_attempt_about.
    + apply index_js_pass.
Qed.

Lemma X10_pass_calls_concern_managed_domains_witness :
  Forall (call_about "203.0.113.5" [home; fresh])
    (provider_calls
       (emitted (Part000.updateDNS [home; fresh])
          (demo_world Missing "203.0.113.5"))).
Proof.
  apply (X10_pass_calls_concern_managed_domains [home; fresh]
           (demo_world Missing "203.0.113.5") "203.0.113.5").
  reflexivity.
Defined.

Lemma reports_no_write_in (l : list event) (e : event) :
  forallb is_report l = true -> In e l -> is_write e = false.
Proof.
  intros L I. rewrite forallb_forall in L. specialize (L e I).
  destruct e as [| | |[]|]; try discriminate; reflexivity.
Qed.

Lemma attempt_events_no_write_in (l : list event) (e : event) :
  forallb is_attempt_event l = true -> In e l -> is_write e = false.
Proof.
  intros L I. rewrite forallb_forall in L. specialize (L e I).
  destruct e as [| | |[]|]; try discriminate; reflexivity.
Qed.

Lemma pass_run_writes
    (shape : string -> Domain -> outcome -> list event -> Prop)
    (ds : list Domain) (w w' : world) :
  pass_run shape ds w w' -> writes_only_the_address w w'.
Proof.
  intros [logs T L|a logs G N Q L|a logs evs G N Q L S Z A].
  - unfold writes_only_the_address; rewrite new_events_add; split; [reflexivity|]; split; [|reflexivity].
    intros e [<-|I] W; [discriminate|].
    rewrite (reports_no_write_in _ _ L I) in W; discriminate.
  - unfold writes_only_the_address; rewrite new_events_add; split; [reflexivity|]; split; [|reflexivity].
    intros e [<-|I] W; [discriminate|].
    apply in_app_or in I as [I|[<-|[]]]; [|discriminate].
    rewrite (reports_no_write_in _ _ L I) in W; discriminate.
  - unfold writes_only_the_address; rewrite new_events_set; split; [reflexivity|]; split.
    + intros e [<-|I] W; [discriminate|].
      apply in_app_or in I as [I|[<-|I]]; [|discriminate|].
      * rewrite (reports_no_write_in _ _ L I) in W; discriminate.
      * apply in_app_or in I as [I|[<-|[]]].
        -- rewrite (attempt_events_no_write_in _ _ A I) in W; discriminate.
        -- exists a; auto.
    + simpl; rewrite filter_app; simpl; rewrite filter_app; simpl.
      intros F; apply app_eq_nil in F as [_ F].
      apply app_eq_nil in F as [_ F]; discriminate.
Qed.

Lemma add_run_writes (z r : string) (ds : list Domain) (w w' : world)
    (res : http_response) :
  add_run z r ds w res w' -> writes_only_the_address w w'.
Proof.
  intros [logs T L|addr logs evs G N L U A|addr logs evs o logs' G N L U O A L' Q
         |addr logs evs o logs' G N L U O A L' Q].
  - unfold writes_only_the_address; rewrite new_events_add; split; [reflexivity|]; split; [|reflexivity].
    intros e [<-|I] W; [discriminate|].
    rewrite (reports_no_write_in _ _ L I) in W; discriminate.
  - unfold writes_only_the_address; rewrite new_events_add; split; [reflexivity|]; split; [|reflexivity].
    intros e [<-|I] W; [discriminate|].
    apply in_app_or in I as [I|I].
    + rewrite (reports_no_write_in _ _ L I) in W; discriminate.
    + rewrite (attempt_events_no_write_in _ _ A I) in W; discriminate.
  - unfold writes_only_the_address; rewrite new_events_add; split; [reflexivity|]; split; [|reflexivity].
    intros e [<-|I] W; [discriminate|].
    apply in_app_or in I as [I|I];
      [|apply in_app_or in I as [I|I]].
    + rewrite (reports_no_write_in _ _ L I) in W; discriminate.
    + rewrite (attempt_events_no_write_in _ _ A I) in W; discriminate.
    + rewrite (reports_no_write_in _ _ L' I) in W; discriminate.
  - unfold writes_only_the_address; rewrite new_events_set; split; [reflexivity|]; split.
    + intros e [<-|I] W; [discriminate|].
      apply in_app_or in I as [I|I];
        [|apply in_app_or in I as [I|I];
          [|apply in_app_or in I as [I|[<-|[]]]]].
      * rewrite (reports_no_write_in _ _ L I) in W; discriminate.
      * rewrite (attempt_events_no_write_in _ _ A I) in W; discriminate.
      * rewrite (reports_no_write_in _ _ L' I) in W; discriminate.
      * exists addr; auto.
    + simpl; rewrite !filter_app; simpl.
      intros F; apply app_eq_nil in F as [_ F].
      apply app_eq_nil in F as [_ F].
      apply app_eq_nil in F as [_ F]; discriminate.
Qed.

(** X11.  A pass never writes [domains.json], and the only file write it
    can make is the one of [last_ip.txt] with the address it resolved, the
    content the file then has; when the trace of the pass shows no write,
    [last_ip.txt] is as it was.  This holds for [updateDNS] in both files
    and for the immediate update of [POST /domains]. *)
Theorem X11_pass_writes_only_the_resolved_address
    (ds : list Domain) (w : world) (z r : string) :
  writes_only_the_address w (snd (Part000.updateDNS ds w)) /\
  writes_only_the_address w (snd (IndexJs.updateDNS ds w)) /\
  writes_only_the_address w (snd (Part000.post_domains_update z r ds w)).
Proof.
  split; [|split].
  - apply (pass_run_writes _ _ _ _ (part_000_pass ds w)).
  - apply (pass_run_writes _ _ _ _ (index_js_pass ds w)).
  - apply (add_run_writes _ _ _ _ _ _ (post_domains_update_cases z r ds w)).
Qed.

Lemma add_run_records (z r : string) (ds : list Domain) (w w' : world)
    (res : http_response) (addr : string) :
  add_run z r ds w res w' ->
  status res = 201 ->
  fst (getPublicIP w) = Some addr -> trim addr = addr -> reads_back w ->
  last_known_ip w' = Some addr.
Proof.
  intros [logs T L|a logs evs G N L U A|a logs evs o logs' G N L U O A L' Q
         |a logs evs o logs' G N L U O A L' Q] S H1 T' B; try discriminate S.
  - rewrite last_known_ip_add; congruence.
  - assert (a = addr) by congruence; subst a.
    now rewrite last_known_ip_set, T'.
Qed.

(** X12.  After an add answered 201 that resolved an address without white
    space at its ends, when the process can read back what it writes into
    [last_ip.txt], the file holds that address (white space at the ends
    apart) and can be read, whatever it held before.  So a timer-triggered
    pass that then resolves the same address makes no provider call: when
    the address had changed since the last pass, the add has updated the
    new domain only, and this pass does not update the other managed
    domains.  When [last_ip.txt] exists and the process may write it but
    not read it, that pass goes through every managed domain. *)
Theorem X12_add_then_pass_on_same_address_is_silent
    (z r : string) (s : state) (addr : string) :
  z <> "" -> r <> "" -> ~ In (mkDomain z r) (domains s) ->
  let ds := domains s ++ [mkDomain z r] in
  let res := fst (Part000.post_domains (Some z) (Some r) s) in
  let s' := snd (Part000.post_domains (Some z) (Some r) s) in
  status res = 201 ->
  fst (getPublicIP (after_add z r ds (env s))) = Some addr ->
  addr <> "" -> trim addr = addr ->
  (reads_back (env s) ->
     (exists c,
        last_ip_txt (env s') = Content c /\ last_ip_denied (env s') = None /\
        trim c = addr) /\
     (fst (getPublicIP (env s')) = Some addr ->
      provider_calls (new_events (env s') (env (Part000.tick s'))) = [] /\
      zones_requested (new_events (env s') (env (Part000.tick s'))) = [])) /\
  (write_only (env s) ->
     fst (getPublicIP (env s')) = Some addr ->
     zones_requested (new_events (env s') (env (Part000.tick s')))
       = map zone ds).
Proof.
  intros Hz Hr N; cbv zeta.
  rewrite (post_domains_accepted z r s Hz Hr (not_in_existsb _ _ _ N)); simpl.
  intros S G Ha T; split.
  - intros B.
    pose proof (add_run_records _ _ _ _ _ _ addr
                  (post_domains_update_cases z r _ _) S G T B) as K.
    split; [now apply last_known_ip_file|].
    intros G'; unfold Part000.tick, run; simpl.
    match goal with |- context [Part000.updateDNS ?ds' ?w'] =>
      destruct (pass_run_silent _ _ _ _ addr (part_000_pass ds' w') G' Ha K)
        as (P & _)
    end.
    split; [exact P|now apply provider_calls_zones].
  - intros W G'; unfold Part000.tick, run; simpl.
    match goal with |- context [Part000.updateDNS ?ds' ?w'] =>
      apply (pass_run_calls _ _ _ _ _ (part_000_pass ds' w') G' Ha)
    end.
    apply write_only_unknown.
    apply (add_run_write_only _ _ _ _ _ _
             (post_domains_update_cases z r _ _)).
    exact W.
Qed.

(** The address changed from 198.51.100.7 while [home.example.com] is
    managed; a new domain is added, then the timer fires: the pass is
    silent and [home.example.com] is not updated. *)
Lemma X12_add_then_pass_on_same_address_is_silent_witness :
  let s := {| domains := [home];
              env := demo_world (Content "198.51.100.7") "203.0.113.5" |} in
  let s' := snd (Part000.post_domains (Some "example.com")
                   (Some "new.example.com") s) in
  last_ip_txt (env s') = Content "203.0.113.5" /\
  provider_calls (new_events (env s') (env (Part000.tick s'))) = [].
Proof.
  cbv zeta.
  pose proof (X12_add_then_pass_on_same_address_is_silent "example.com"
                "new.example.com"
                {| domains := [home];
                   env := demo_world (Content "198.51.100.7") "203.0.113.5" |}
                "203.0.113.5") as H.
  cbv zeta in H.
  assert ("example.com" <> "") as Hz by discriminate.
  assert ("new.example.com" <> "") as Hr by discriminate.
  assert (~ In fresh [home]) as Hn.
  { simpl; intros [E|[]]; discriminate E. }
  assert ("203.0.113.5" <> "") as Ha by discriminate.
  destruct (H Hz Hr Hn eq_refl eq_refl Ha eq_refl) as ((K & P) & _).
  - right; reflexivity.
  - split; [reflexivity|].
    apply P; reflexivity.
Defined.

(** ** The record lookup of the two files *)

(** X13.  [getDNSRecordID] of the two files differ only in what they log.
    Run in the same world they send the same single request and return the
    same value: the first identifier of a successful, non-empty answer, and
    [null] in every other case, a rejected request included.  When the
    provider answers successfully that there is no such record, the file
    with record creation logs nothing, and [index.js] logs an error. *)
Theorem X13_record_lookups_differ_only_in_logs
    (zoneID recordName : string) (w : world) :
  let rs := network w (trace w) (GET_dns_records zoneID recordName) in
  let old := IndexJs.getDNSRecordID zoneID recordName in
  let new := Part000.getDNSRecordID zoneID recordName in
  fst (old w) = fst (new w) /\
  filter is_http (emitted old w)
    = [Http (GET_dns_records zoneID recordName) rs] /\
  filter is_http (emitted new w)
    = [Http (GET_dns_records zoneID recordName) rs] /\
  filter is_write (emitted old w) = [] /\
  filter is_write (emitted new w) = [] /\
  (forall d, rs = Fulfilled d -> success d = false \/ result d = Some [] ->
   emitted new w = [Http (GET_dns_records zoneID recordName) rs] /\
   emitted old w = [Http (GET_dns_records zoneID recordName) rs;
                    ErrorLog (MsgRecordNotFound recordName zoneID)]).
Proof.
  cbv zeta; unfold emitted.
  unfold IndexJs.getDNSRecordID, Part000.getDNSRecordID, bind, axios, emit,
    errorLog, ret; simpl.
  set (rs := network w (trace w) (GET_dns_records zoneID recordName)).
  assert (forall e l, new_events w
            {| last_ip_txt := last_ip_txt w; domains_json := domains_json w;
               network := network w; trace := (trace w ++ [e]) ++ l;
               last_ip_denied := last_ip_denied w;
               domains_denied := domains_denied w |}
            = e :: l) as E2
    by (intros e l; apply new_events_trace; simpl; now rewrite <- app_assoc).
  assert (forall e, new_events w
            {| last_ip_txt := last_ip_txt w; domains_json := domains_json w;
               network := network w; trace := trace w ++ [e];
               last_ip_denied := last_ip_denied w;
               domains_denied := domains_denied w |}
            = [e]) as E1
    by (intros e; now apply new_events_trace).
  destruct rs as [err|d] eqn:R; simpl.
  - rewrite !E2; simpl. repeat split; discriminate.
  - destruct (success d) eqn:S; [destruct (result d) as [[|id ids]|] eqn:Q|];
      simpl; rewrite ?E2, ?E1; simpl; repeat split;
      try (intros;
           match goal with H : Fulfilled _ = Fulfilled _ |- _ =>
             injection H as <-
           end; intuition congruence).
Qed.

Lemma X13_record_lookups_differ_only_in_logs_witness :
  let w := demo_world Missing "203.0.113.5" in
  emitted (Part000.getDNSRecordID "z1" "new.example.com") w
    = [Http (GET_dns_records "z1" "new.example.com") (ok_ids [])] /\
  emitted (IndexJs.getDNSRecordID "z1" "new.example.com") w
    = [Http (GET_dns_records "z1" "new.example.com") (ok_ids []);
       ErrorLog (MsgRecordNotFound "new.example.com" "z1")].
Proof.
  cbv zeta.
  destruct (X13_record_lookups_differ_only_in_logs "z1" "new.example.com"
              (demo_world Missing "203.0.113.5")) as (_ & _ & _ & _ & _ & H).
  apply (H (mkData None true (Some []))).
  - reflexivity.
  - right; reflexivity.
Defined.

(** ** The managed set while handlers interleave with a pass *)

Lemma index_post_domains_nodup (z r : option string) (s : state) :
  NoDup (domains s) -> NoDup (domains (snd (IndexJs.post_domains z r s))).
Proof.
  intros N.
  destruct (body_fields z r) as [M|(z' & r' & -> & -> & Hz & Hr)].
  - now destruct (missing_field z r s M) as (_ & -> & _).
  - destruct (in_domains_dec z' r' (domains s)) as [I|A].
    + unfold IndexJs.post_domains.
      rewrite !when_truthy_some by assumption.
      now rewrite (proj2 (existsb_same_domain z' r' (domains s)) I).
    + rewrite (index_post_domains_accepted z' r' s Hz Hr
                 (not_in_existsb _ _ _ A)); simpl.
      apply NoDup_app; repeat split; [exact N|repeat constructor; auto|].
      intros d Hd [<-|[]]; contradiction.
Qed.

Lemma delete_domains_nodup (z r : option string) (s : state) :
  NoDup (domains s) -> NoDup (domains (snd (delete_domains z r s))).
Proof.
  intros N.
  destruct (body_fields z r) as [M|(z' & r' & -> & -> & Hz & Hr)].
  - now destruct (missing_field z r s M) as (_ & _ & ->).
  - destruct (in_domains_dec z' r' (domains s)) as [I|A].
    + rewrite (delete_domains_present z' r' s Hz Hr I); simpl.
      now apply NoDup_filter.
    + now rewrite (delete_domains_absent z' r' s Hz Hr A).
Qed.

Lemma run_block_no_dup (c : Interleaving.config) (b : Interleaving.block) :
  live_no_duplicates c -> live_no_duplicates (Interleaving.run_block c b).
Proof.
  intros [Hr N]; split.
  - assert (allocated (Interleaving.domains_ref c) c) as A by (split; exact Hr).
    destruct b as [z r|z r]; simpl.
    + apply (post_domains_sync_step _ z r c A).
    + apply (delete_domains_step _ z r c A).
  - destruct b as [z r|z r]; cbn [Interleaving.run_block].
    + rewrite (post_domains_sync_view z r c Hr).
      now apply index_post_domains_nodup.
    + rewrite (delete_domains_view z r c Hr).
      now apply delete_domains_nodup.
Qed.

Lemma run_blocks_no_dup (bs : list Interleaving.block) (c : Interleaving.config) :
  live_no_duplicates c ->
  live_no_duplicates (fold_left Interleaving.run_block bs c).
Proof.
  revert c; induction bs as [|b bs IH]; intros c L; simpl; [exact L|].
  now apply IH, run_block_no_dup.
Qed.

Lemma await_no_dup {A : Type} (m : IO A) (c : Interleaving.config) :
  live_no_duplicates c -> live_no_duplicates (snd (Interleaving.await m c)).
Proof.
  intros L; unfold Interleaving.await, Interleaving.lift.
  destruct (m (Interleaving.wld c)); simpl.
  apply run_blocks_no_dup; exact L.
Qed.

Lemma lift_no_dup {A : Type} (m : IO A) (c : Interleaving.config) :
  live_no_duplicates c -> live_no_duplicates (snd (Interleaving.lift m c)).
Proof.
  intros L; unfold Interleaving.lift.
  destruct (m (Interleaving.wld c)); exact L.
Qed.

Lemma part_000_body_no_dup (addr : string) (d : Domain)
    (c : Interleaving.config) :
  live_no_duplicates c ->
  live_no_duplicates (snd (Interleaving.part_000_body addr d c)).
Proof.
  intros L; unfold Interleaving.part_000_body, bind.
  pose proof (await_no_dup (getZoneID (zone d)) c L) as L1.
  destruct (Interleaving.await (getZoneID (zone d)) c) as [zoneID c1].
  unfold when_truthy; destruct zoneID as [zid|]; [|exact L1].
  destruct (zid =? ""); [exact L1|].
  pose proof (await_no_dup (Part000.getDNSRecordID zid (record d)) c1 L1) as L2.
  destruct (Interleaving.await _ c1) as [recordID c2].
  destruct recordID as [rid|]; [|now apply await_no_dup].
  destruct (rid =? ""); now apply await_no_dup.
Qed.

Lemma index_js_body_no_dup (addr : string) (d : Domain)
    (c : Interleaving.config) :
  live_no_duplicates c ->
  live_no_duplicates (snd (Interleaving.index_js_body addr d c)).
Proof.
  intros L; unfold Interleaving.index_js_body, bind.
  pose proof (await_no_dup (getZoneID (zone d)) c L) as L1.
  destruct (Interleaving.await (getZoneID (zone d)) c) as [zoneID c1].
  unfold when_truthy; destruct zoneID as [zid|]; [|exact L1].
  destruct (zid =? ""); [exact L1|].
  pose proof (await_no_dup (IndexJs.getDNSRecordID zid (record d)) c1 L1) as L2.
  destruct (Interleaving.await _ c1) as [recordID c2].
  destruct recordID as [rid|]; [|exact L2].
  destruct (rid =? ""); [exact L2|now apply await_no_dup].
Qed.

Lemma for_of_live_no_dup (body : Domain -> ST Interleaving.config unit) :
  (forall d c, live_no_duplicates c -> live_no_duplicates (snd (body d c))) ->
  forall fuel a i c c',
    live_no_duplicates c ->
    Interleaving.for_of_live fuel a i body c = Some c' ->
    live_no_duplicates c'.
Proof.
  intros Hb fuel; induction fuel as [|fuel IH]; intros a i c c' L E;
    simpl in E; [discriminate|].
  destruct (nth_error (Interleaving.array_at a c) i) as [d|].
  - apply (IH _ _ _ _ (Hb d c L) E).
  - now injection E as <-.
Qed.

Lemma updateDNS_with_no_dup
    (body : string -> Domain -> ST Interleaving.config unit) :
  (forall addr d c,
     live_no_duplicates c -> live_no_duplicates (snd (body addr d c))) ->
  forall fuel c c',
    live_no_duplicates c ->
    Interleaving.updateDNS_with body fuel c = Some c' ->
    live_no_duplicates c'.
Proof.
  intros Hb fuel c c' L; unfold Interleaving.updateDNS_with.
  pose proof (await_no_dup getPublicIP c L) as L1.
  destruct (Interleaving.await getPublicIP c) as [currentIP c1].
  cbn [snd] in L1.
  unfold when_truthy; destruct currentIP as [addr|]; [|now intros [= <-]].
  destruct (addr =? ""); [now intros [= <-]|].
  pose proof (lift_no_dup getLastIP c1 L1) as L2.
  destruct (Interleaving.lift getLastIP c1) as [lastIP c2].
  cbn [snd] in L2.
  destruct (strict_eq addr lastIP).
  - intros E; injection E as <-.
    exact (lift_no_dup (log (MsgIPUnchanged addr)) c2 L2).
  - cbv zeta.
    pose proof (lift_no_dup (log (MsgIPChanged lastIP addr)) c2 L2) as L3.
    destruct (Interleaving.for_of_live _ _ _ _ _) as [c4|] eqn:E;
      [|discriminate].
    intros E'; injection E' as <-.
    exact (lift_no_dup (saveLastIP addr) c4
             (for_of_live_no_dup _ (Hb addr) _ _ _ _ _ L3 E)).
Qed.

(** X14.  No duplicate can appear while handlers interleave with a pass.
    If the array bound to [domains] lists no pair twice, it still lists
    none twice after any handler blocks (adds and removals, in any order)
    have run, and at the end of a pass of either file during which any
    such blocks ran at the suspensions: the test and the [push] of an add
    are in one block, with no [await] in between. *)
Theorem X14_no_duplicate_under_interleaving (c : Interleaving.config) :
  live_no_duplicates c ->
  (forall bs, live_no_duplicates (fold_left Interleaving.run_block bs c)) /\
  (forall fuel c',
     Interleaving.part_000_updateDNS fuel c = Some c' ->
     live_no_duplicates c') /\
  (forall fuel c',
     Interleaving.index_js_updateDNS fuel c = Some c' ->
     live_no_duplicates c').
Proof.
  intros L; split; [|split].
  - intros bs; now apply run_blocks_no_dup.
  - intros fuel c'.
    apply (updateDNS_with_no_dup _ part_000_body_no_dup fuel c c' L).
  - intros fuel c'.
    apply (updateDNS_with_no_dup _ index_js_body_no_dup fuel c c' L).
Qed.

(** The same add arrives twice during a pass, at two suspensions: the
    pass ends, and the pair is listed once. *)
Lemma X14_no_duplicate_under_interleaving_witness :
  let add := Interleaving.AddBlock (Some "nowhere.test") (Some "a.nowhere.test") in
  let racing := racing_config [[add]; [add]] in
  live_no_duplicates
    (fold_left Interleaving.run_block [add; add] (racing_config [])) /\
  exists c',
    Interleaving.part_000_updateDNS 6 racing = Some c' /\
    domains (Interleaving.view c')
      = [home; mkDomain "nowhere.test" "a.nowhere.test"] /\
    live_no_duplicates c'.
Proof.
  cbv zeta.
  assert (forall sched, live_no_duplicates (racing_config sched)) as L.
  { intros sched; split; [simpl; lia|].
    simpl; repeat constructor; simpl; tauto. }
  split.
  - apply (X14_no_duplicate_under_interleaving (racing_config [])), L.
  - destruct (Interleaving.part_000_updateDNS 6
                (racing_config
                   [[Interleaving.AddBlock (Some "nowhere.test")
                       (Some "a.nowhere.test")];
                    [Interleaving.AddBlock (Some "nowhere.test")
                       (Some "a.nowhere.test")]])) as [c'|] eqn:E;
      [|vm_compute in E; discriminate E].
    exists c'; split; [reflexivity|split].
    + vm_compute in E; injection E as <-; reflexivity.
    + match type of E with Interleaving.part_000_updateDNS _ ?c = _ =>
        destruct (X14_no_duplicate_under_interleaving c (L _)) as (_ & H & _)
      end.
      exact (H _ _ E).
Defined.

(** ** Time stamps *)

Lemma string_length_app (a b : string) :
  String.length (a ++ b)%string = String.length a + String.length b.
Proof. induction a as [|c a IH]; simpl; [reflexivity|now rewrite IH]. Qed.

Lemma string_app_inv (a a' b b' : string) :
  String.length a = String.length a' ->
  (a ++ b)%string = (a' ++ b')%string -> a = a' /\ b = b'.
Proof.
  revert a'; induction a as [|c a IH]; intros [|c' a']; simpl;
    try discriminate; [auto|].
  intros [= L] [= -> E]. destruct (IH a' L E) as [-> ->]; auto.
Qed.

Lemma below_100 (P : nat -> bool) :
  forallb P (seq 0 100) = true -> forall n, n < 100 -> P n = true.
Proof.
  intros H n L. rewrite forallb_forall in H. apply H, in_seq; lia.
Qed.

Lemma two_digits_length (n : nat) :
  n < 100 -> String.length (padStart 2 "0" (String_of_nat n)) = 2.
Proof.
  intros L; apply Nat.eqb_eq.
  apply (below_100
           (fun n => (String.length (padStart 2 "0" (String_of_nat n)) =? 2)%nat));
    [vm_compute; reflexivity|exact L].
Qed.

Lemma two_digits_inj (n m : nat) :
  n < 100 -> m < 100 ->
  padStart 2 "0" (String_of_nat n) = padStart 2 "0" (String_of_nat m) ->
  n = m.
Proof.
  intros Ln Lm E.
  pose proof (below_100
    (fun n => forallb
       (fun m => implb (padStart 2 "0" (String_of_nat n)
                          =? padStart 2 "0" (String_of_nat m))%string
                       (n =? m)%nat) (seq 0 100))) as H.
  specialize (H ltac:(vm_compute; reflexivity) n Ln).
  rewrite forallb_forall in H.
  specialize (H m ltac:(apply in_seq; lia)).
  rewrite E, String.eqb_refl in H. now apply Nat.eqb_eq.
Qed.

Lemma String_of_Z_inj (a b : Z) : String_of_Z a = String_of_Z b -> a = b.
Proof.
  unfold String_of_Z; intros E.
  assert (forall z, NilZero.int_of_string (NilZero.string_of_int (Z.to_int z))
                    = Some (Z.to_int z)) as R.
  { intros z; apply NilZero.isi; destruct z as [|p|p]; simpl;
      try discriminate; intros [= H];
      now apply (DecimalPos.Unsigned.to_uint_nonnil p). }
  apply DecimalZ.to_int_inj.
  pose proof (R a) as Ra; rewrite E, R in Ra; congruence.
Qed.

Lemma four_digit_year (y : Z) :
  (1000 <= y <= 9999)%Z -> String.length (String_of_Z y) = 4.
Proof.
  intros [L U].
  assert (forallb (fun n => (String.length (String_of_Z (Z.of_nat n)) =? 4)%nat)
            (seq 1000 (90 * 100)) = true) as H by (vm_compute; reflexivity).
  rewrite forallb_forall in H.
  specialize (H (Z.to_nat y) ltac:(apply in_seq; lia)).
  rewrite Z2Nat.id in H by lia. now apply Nat.eqb_eq.
Qed.

(** X15.  For the values the getters of a [Date] return, the time stamp is
    the year followed by twelve characters, [/mm/dd hh:mm] with every
    field on two digits and the month counted from 1; it is sixteen
    characters long for a year of four digits; and two dates that differ
    in the year, the month, the day, the hour or the minute get different
    time stamps. *)
Theorem X15_time_stamp_is_fixed_width_and_unambiguous (now : Date) :
  date_in_range now ->
  String.length (getTimestamp now)
    = String.length (String_of_Z (getFullYear now)) + 12 /\
  ((1000 <= getFullYear now <= 9999)%Z ->
     String.length (getTimestamp now) = 16 /\
     String.get 4 (getTimestamp now) = Some "/"%char /\
     String.get 7 (getTimestamp now) = Some "/"%char /\
     String.get 10 (getTimestamp now) = Some " "%char /\
     String.get 13 (getTimestamp now) = Some ":"%char) /\
  (forall other,
     date_in_range other -> getTimestamp now = getTimestamp other ->
     now = other).
Proof.
  intros (Lm & Ld & Lh & Li).
  assert (forall d, date_in_range d ->
            exists m d' h i,
              String.length m = 2 /\ String.length d' = 2 /\
              String.length h = 2 /\ String.length i = 2 /\
              m = padStart 2 "0" (String_of_nat (getMonth d + 1)) /\
              d' = padStart 2 "0" (String_of_nat (getDate d)) /\
              h = padStart 2 "0" (String_of_nat (getHours d)) /\
              i = padStart 2 "0" (String_of_nat (getMinutes d)) /\
              getTimestamp d =
                (String_of_Z (getFullYear d) ++ "/" ++ m ++ "/" ++ d' ++ " "
                   ++ h ++ ":" ++ i)%string) as Sh.
  { intros d (A & B & C & D).
    do 4 eexists; repeat split; try reflexivity;
      apply two_digits_length; lia. }
  assert (forall d, date_in_range d ->
            String.length (getTimestamp d)
              = String.length (String_of_Z (getFullYear d)) + 12) as Len.
  { intros d R. destruct (Sh d R) as (m & d' & h & i & M & D & H & I & _ & _ & _ & _ & ->).
    repeat (rewrite !string_length_app; simpl).
    rewrite M, D, H, I; lia. }
  assert (date_in_range now) as Rn by (repeat split; assumption).
  split; [now apply Len|]. split.
  - intros Y. pose proof (four_digit_year _ Y) as L4.
    split; [rewrite (Len now Rn), L4; reflexivity|].
    destruct (Sh now Rn) as (m & d' & h & i & M & D & H & I & _ & _ & _ & _ & ->).
    destruct (String_of_Z (getFullYear now)) as [|y1 [|y2 [|y3 [|y4 [|? ?]]]]];
      try discriminate L4.
    destruct m as [|m1 [|m2 [|? ?]]]; try discriminate M.
    destruct d' as [|d1 [|d2 [|? ?]]]; try discriminate D.
    destruct h as [|h1 [|h2 [|? ?]]]; try discriminate H.
    repeat split.
  - intros other Ro E.
    pose proof (Len now Rn) as L1. pose proof (Len other Ro) as L2.
    rewrite E in L1.
    destruct (Sh now Rn) as (m & d' & h & i & M & D & H & I & Em & Ed & Eh & Ei & En).
    destruct (Sh other Ro)
      as (m2 & d2 & h2 & i2 & M2 & D2 & H2 & I2 & Em2 & Ed2 & Eh2 & Ei2 & Eo).
    rewrite En, Eo in E.
    apply string_app_inv in E as [EY E]; [|lia].
    simpl in E; injection E as E.
    apply string_app_inv in E as [EM E]; [|congruence].
    simpl in E; injection E as E.
    apply string_app_inv in E as [ED E]; [|congruence].
    simpl in E; injection E as E.
    apply string_app_inv in E as [EH E]; [|congruence].
    simpl in E; injection E as E.
    destruct Ro as (Lm2 & Ld2 & Lh2 & Li2).
    apply String_of_Z_inj in EY.
    rewrite Em, Em2 in EM. rewrite Ed, Ed2 in ED.
    rewrite Eh, Eh2 in EH. rewrite Ei, Ei2 in E.
    apply two_digits_inj in EM; [|lia|lia].
    apply two_digits_inj in ED; [|lia|lia].
    apply two_digits_inj in EH; [|lia|lia].
    apply two_digits_inj in E; [|lia|lia].
    destruct now, other; simpl in *; f_equal; lia.
Qed.

Lemma X15_time_stamp_is_fixed_width_and_unambiguous_witness :
  getTimestamp (mkDate 2024 0 5 9 7) = "2024/01/05 09:07" /\
  String.length (getTimestamp (mkDate 2024 0 5 9 7)) = 16.
Proof.
  split; [reflexivity|].
  destruct (X15_time_stamp_is_fixed_width_and_unambiguous (mkDate 2024 0 5 9 7))
    as (_ & H & _).
  - unfold date_in_range; simpl; lia.
  - apply H; simpl; lia.
Defined.
